(** * Kraken descending-highs scanner: OHLC cache, pattern detectors,
      volume profile and scoring, embedded from the Python sources.

    Conventions of the embedding.
    - A pandas DataFrame of candles is a [list Candle] in row order.
    - Python floats are modelled by exact rationals [Q]; the NaN sentinel
      is explicit ([fnum]).  Rounding is not modelled.
    - Candle and indicator timestamps are epoch seconds; readings of the
      wall clock ([datetime.now], file modification times) are epoch
      microseconds.
    - Python exceptions are the [Raise] results of the [result] monad.
    - Dictionaries are stdpp [gmap]s keyed by strings. *)

From Stdlib Require Import ZArith QArith Qround Qminmax Qabs Lia Lqa Sorted Ascii.
From stdpp Require Import gmap strings list pretty.

Local Open Scope Z_scope.

(** ** Exceptions *)

Inductive exn : Type :=
| KeyError
| IndexError
| ValueError
| LinAlgError
| RuntimeError.

Inductive result (A : Type) : Type :=
| Ok (a : A)
| Raise (e : exn).

Arguments Ok {A} a.
Arguments Raise {A} e.

#[global] Instance result_ret : MRet result := fun A a => Ok a.
#[global] Instance result_bind : MBind result :=
  fun A B f m => match m with Ok a => f a | Raise e => Raise e end.

Definition returns {A} (m : result A) : bool :=
  match m with Ok _ => true | Raise _ => false end.

(** [d[k]] on a dictionary: [KeyError] when the key is absent. *)
Definition getitem {V} (d : gmap string V) (k : string) : result V :=
  match d !! k with Some v => Ok v | None => Raise KeyError end.

(** ** Candle frames *)

Record Candle : Type := mkCandle {
  time : Z;
  open : Q;
  high : Q;
  low : Q;
  close : Q;
  vwap : Q;
  volume : Q;
  count : Z
}.

Definition DataFrame : Type := list Candle.

Definition empty (df : DataFrame) : bool :=
  match df with [] => true | _ => false end.

(** [df.sort_values("time")]: rows in ascending time order.  Rows with
    equal timestamps keep their relative order here; pandas' default sort
    leaves the order of such ties open. *)
Fixpoint insert_by_time (c : Candle) (df : DataFrame) : DataFrame :=
  match df with
  | [] => [c]
  | d :: rest =>
      if time c <=? time d then c :: d :: rest
      else d :: insert_by_time c rest
  end.

Fixpoint sort_values (df : DataFrame) : DataFrame :=
  match df with
  | [] => []
  | c :: rest => insert_by_time c (sort_values rest)
  end.

(** [df.drop_duplicates(subset=["time"])] with pandas' default
    [keep="first"]: a row is dropped when an earlier row carries the same
    timestamp. *)
Fixpoint drop_duplicates_seen (seen : list Z) (df : DataFrame) : DataFrame :=
  match df with
  | [] => []
  | c :: rest =>
      if existsb (Z.eqb (time c)) seen then drop_duplicates_seen seen rest
      else c :: drop_duplicates_seen (time c :: seen) rest
  end.

Definition drop_duplicates (df : DataFrame) : DataFrame :=
  drop_duplicates_seen [] df.

(** [df["time"].max()] of a frame. *)
Definition max_time (df : DataFrame) : Z :=
  match df with
  | [] => 0
  | c :: rest => fold_left Z.max (map time rest) (time c)
  end.

(** ** Calendar arithmetic for month-end resampling (proleptic Gregorian) *)

Definition days_from_civil (y m d : Z) : Z :=
  let y' := if m <=? 2 then y - 1 else y in
  let era := y' / 400 in
  let yoe := y' - era * 400 in
  let mp := if m >? 2 then m - 3 else m + 9 in
  let doy := (153 * mp + 2) / 5 + d - 1 in
  let doe := yoe * 365 + yoe / 4 - yoe / 100 + doy in
  era * 146097 + doe - 719468.

(** Year and month of a day number (days since 1970-01-01). *)
Definition civil_year_month (days : Z) : Z * Z :=
  let z := days + 719468 in
  let era := z / 146097 in
  let doe := z - era * 146097 in
  let yoe := (doe - doe / 1460 + doe / 36524 - doe / 146096) / 365 in
  let doy := doe - (365 * yoe + yoe / 4 - yoe / 100) in
  let mp := (5 * doy + 2) / 153 in
  let m := if mp <? 10 then mp + 3 else mp - 9 in
  let y := yoe + era * 400 in
  (if m <=? 2 then y + 1 else y, m).

(** Label of the month-end bucket of a timestamp: midnight of the last day
    of its calendar month. *)
Definition month_end_label (t : Z) : Z :=
  let '(y, m) := civil_year_month (t / 86400) in
  let '(y', m') := if m =? 12 then (y + 1, 1) else (y, m + 1) in
  (days_from_civil y' m' 1 - 1) * 86400.

(** ** config/settings.py *)

Inductive ResampleRule : Type := ME.

Record TimeframeConfig : Type := mkTimeframeConfig {
  interval_minutes : Z;
  history_days : option Z;
  cache_ttl_hours : Z;
  resample_rule : option ResampleRule
}.

(** [timedelta(hours=cache_ttl_hours)], in microseconds. *)
Definition cache_ttl (cfg : TimeframeConfig) : Z :=
  cache_ttl_hours cfg * 3600 * 1000000.

Definition TIMEFRAMES : gmap string TimeframeConfig :=
  <["monthly" := mkTimeframeConfig 1440 None 24 (Some ME)]>
  (<["daily" := mkTimeframeConfig 1440 None 6 None]>
  (<["4h" := mkTimeframeConfig 240 (Some 7) 2 None]> ∅)).

Definition TIMEFRAME_WEIGHTS : gmap string Q :=
  <["monthly" := (4 # 10)%Q]>
  (<["daily" := (35 # 100)%Q]>
  (<["4h" := (25 # 100)%Q]> ∅)).

Definition SOL_BONUS : Q := 0%Q.

Definition PATTERN_DETECTOR_VERSION : Z := 2.
Definition PAT2_MONTHS_LOOKBACK : nat := 2.
Definition PAT2_DAILY_LOOKBACK_DAYS : Z := 30.
Definition PAT2_DAILY_RECENT_DAYS : Z := 7.
Definition PAT2_4H_LOOKBACK_DAYS : Z := 7.
Definition PAT2_4H_RECENT_BARS : nat := 12.

(** [timedelta(days=d)] in microseconds. *)
Definition days_us (d : Z) : Z := d * 86400 * 1000000.

(** ** src/api/data_fetcher.py *)

Record PairMeta : Type := mkPairMeta {
  altname : string;
  wsname : string;
  base : string;
  quote : string;
  is_solana : bool
}.

(** A parquet cache file: its modification time and the frame it holds. *)
Record CacheFile : Type := mkCacheFile {
  st_mtime : Z;
  content : DataFrame
}.

(** The on-disk state touched by [fetch_ohlc]: the cache directory, keyed
    by file name, and the JSON state file, keyed by [pair_tf]. *)
Record Store : Type := mkStore {
  cache_dir : gmap string CacheFile;
  state_file : gmap string Z
}.

(** [KrakenPublicClient.get_ohlc(pair, interval, since)], parsed rows. *)
Definition Client : Type := string -> Z -> option Z -> result (list Candle).

Definition _cache_path (pair tf : string) : string :=
  pair +:+ "_" +:+ tf +:+ ".parquet".

Definition _state_key (pair tf : string) : string :=
  pair +:+ "_" +:+ tf.

Definition _is_cache_fresh (st : Store) (now : Z) (path : string) (ttl : Z) : bool :=
  match cache_dir st !! path with
  | None => false
  | Some f => now - st_mtime f <? ttl
  end.

Definition _kraken_ts (now : Z) (days_back : option Z) : option Z :=
  match days_back with
  | None => None
  | Some d => Some (Z.quot (now - days_us d) 1000000)
  end.

(** Python's [since or last_ts] on an [Optional[int]]: [None] and [0] are
    both falsy. *)
Definition py_or (since : option Z) (dflt : Z) : Z :=
  match since with
  | Some s => if s =? 0 then dflt else s
  | None => dflt
  end.

(** The cached frame read back for an incremental pull (lines 176-178). *)
Definition base_frame (st : Store) (path : string) (refresh : bool) : option DataFrame :=
  match cache_dir st !! path with
  | Some f => if negb refresh then Some (content f) else None
  | None => None
  end.

(** The [since] cursor sent upstream (lines 174-182). *)
Definition since_cursor (cfg : TimeframeConfig) (now : Z) (base_df : option DataFrame) : option Z :=
  let since := _kraken_ts now (history_days cfg) in
  match base_df with
  | Some b =>
      if negb (empty b) then
        let last_ts := max_time b in
        Some (Z.max (py_or since last_ts) (last_ts - interval_minutes cfg * 60))
      else since
  | None => since
  end.

(** Merge with the existing cache if present (lines 196-198). *)
Definition merge_cache (base_df : option DataFrame) (df : DataFrame) : DataFrame :=
  match base_df with
  | Some b =>
      if negb (empty b) then sort_values (drop_duplicates (b ++ df))
      else df
  | None => df
  end.

(** Consecutive rows with the same bucket label, in row order. *)
Fixpoint buckets (label : Z -> Z) (df : DataFrame) : list (Z * list Candle) :=
  match df with
  | [] => []
  | c :: rest =>
      match buckets label rest with
      | (l, cs) :: bs =>
          if l =? label (time c) then (l, c :: cs) :: bs
          else (label (time c), [c]) :: (l, cs) :: bs
      | [] => [(label (time c), [c])]
      end
  end.

Definition Qsum (l : list Q) : Q := fold_left Qplus l 0%Q.
Definition Zsum (l : list Z) : Z := fold_left Z.add l 0.
Definition Qmean (l : list Q) : Q :=
  Qred (Qsum l / inject_Z (Z.of_nat (length l))).
Definition Qmaximum (x : Q) (l : list Q) : Q := fold_left Qmax l x.
Definition Qminimum (x : Q) (l : list Q) : Q := fold_left Qmin l x.

(** The aggregation of one non-empty bucket: open first, high max, low
    min, close last, vwap mean, volume sum, count sum. *)
Definition agg_bucket (label : Z) (first : Candle) (others : list Candle) : Candle :=
  let rows := first :: others in
  {| time := label;
     open := open first;
     high := Qmaximum (high first) (map high others);
     low := Qminimum (low first) (map low others);
     close := close (List.last others first);
     vwap := Qmean (map vwap rows);
     volume := Qred (Qsum (map volume rows));
     count := Zsum (map count rows) |}.

Definition rule_label (rule : ResampleRule) : Z -> Z :=
  match rule with ME => month_end_label end.

(** [_resample_ohlc]: pandas orders the index before binning; buckets
    without rows aggregate to nulls and are removed by [dropna], so only
    months that hold rows appear in the result. *)
Definition _resample_ohlc (df : DataFrame) (rule : ResampleRule) : DataFrame :=
  flat_map
    (fun b : Z * list Candle =>
       match snd b with
       | [] => []
       | c :: cs => [agg_bucket (fst b) c cs]
       end)
    (buckets (rule_label rule) (sort_values df)).

Definition apply_resample (cfg : TimeframeConfig) (df : DataFrame) : DataFrame :=
  match resample_rule cfg with
  | Some rule => _resample_ohlc df rule
  | None => df
  end.

(** [df.to_parquet(cache_file)] followed by the state-file update. *)
Definition persist (st : Store) (now : Z) (path key : string) (df : DataFrame) : Store :=
  {| cache_dir := <[path := mkCacheFile now df]> (cache_dir st);
     state_file :=
       if negb (empty df) then <[key := max_time df]> (state_file st)
       else state_file st |}.

(** [pd.read_parquet(path)]. *)
Definition read_parquet (st : Store) (path : string) : result DataFrame :=
  match cache_dir st !! path with
  | Some f => Ok (content f)
  | None => Raise RuntimeError
  end.

Definition fetch_ohlc (client : Client) (now : Z) (st : Store)
    (pair : PairMeta) (tf : string) (refresh : bool) : result (DataFrame * Store) :=
  cfg ← getitem TIMEFRAMES tf;
  let cache_file := _cache_path (altname pair) tf in
  let state_key := _state_key (altname pair) tf in
  if negb refresh && _is_cache_fresh st now cache_file (cache_ttl cfg) then
    df ← read_parquet st cache_file;
    Ok (df, st)
  else
    let base_df := base_frame st cache_file refresh in
    let since := since_cursor cfg now base_df in
    raw ← client (altname pair) (interval_minutes cfg) since;
    let df := sort_values raw in
    let df := merge_cache base_df df in
    let df := apply_resample cfg df in
    Ok (df, persist st now cache_file state_key df).


(** ** Numeric helpers *)

Definition Qltb (a b : Q) : bool := negb (Qle_bool b a).

(** The NaN-aware floats of result records. *)
Inductive fnum : Type :=
| NaN
| Num (q : Q).

Definition isnan (x : fnum) : bool :=
  match x with NaN => true | Num _ => false end.

(** [float(b)] of a Python bool. *)
Definition float_of_bool (b : bool) : Q := if b then 1%Q else 0%Q.

(** [np.clip(x, lo, hi)]. *)
Definition clip (x lo hi : Q) : Q := Qmin (Qmax x lo) hi.

(** Python's [a or b] on an optional string: [None] and the empty string
    are falsy. *)
Definition str_or (a : option string) (b : string) : string :=
  match a with
  | Some s => if String.eqb s "" then b else s
  | None => b
  end.

(** [l.iloc[-k]] for [1 <= k <= len(l)]. *)
Definition iloc_neg {A} (l : list A) (k : nat) (d : A) : A :=
  nth (length l - k)%nat l d.

(** [df.tail(n)]. *)
Definition tail_rows {A} (n : nat) (l : list A) : list A :=
  skipn (length l - n)%nat l.

(** The least-squares slope of [y] against [x = 0, 1, ..., n-1]: what
    [np.polyfit(x, y, 1)] returns as its first coefficient, in exact
    arithmetic. *)
Definition xs_of (y : list Q) : list Q :=
  map (fun i => inject_Z (Z.of_nat i)) (seq 0 (length y)).

Definition lstsq_slope (y : list Q) : Q :=
  let n := inject_Z (Z.of_nat (length y)) in
  let x := xs_of y in
  let sx := Qsum x in
  let sy := Qsum y in
  let sxy := Qsum (map (fun p : Q * Q => (fst p * snd p)%Q) (combine x y)) in
  let sxx := Qsum (map (fun a => (a * a)%Q) x) in
  Qred ((n * sxy - sx * sy) / (n * sxx - sx * sx))%Q.

(** [np.polyfit(np.arange(len(y)), y, 1)[0]].  With fewer than two points
    the fit is not determined and numpy does not return a slope. *)
Definition polyfit_slope (y : list Q) : result Q :=
  if (length y <? 2)%nat then Raise LinAlgError else Ok (lstsq_slope y).

(** ** src/analysis/pattern_detector.py *)

Record PatternResult : Type := mkPatternResult {
  passed : bool;
  slope : Q;
  peaks : DataFrame;
  score : Q;
  violations : Z;
  max_break_pct : Q;
  reason : option string
}.

(** [data.take(i, mode="clip")]. *)
Definition take_clip (data : list Q) (i : Z) : Q :=
  let last := Z.of_nat (length data) - 1 in
  nth (Z.to_nat (Z.max 0 (Z.min i last))) data 0%Q.

(** [scipy.signal.argrelextrema(data, np.greater, order=order)[0]]: the
    positions strictly greater than every neighbour at distance
    [1..order] on both sides, edges clipped. *)
Definition is_relmax (data : list Q) (order : nat) (i : Z) : bool :=
  forallb
    (fun s : nat =>
       Qltb (take_clip data (i + Z.of_nat s)) (take_clip data i)
       && Qltb (take_clip data (i - Z.of_nat s)) (take_clip data i))
    (seq 1 order).

Definition relmax_positions (data : list Q) (order : nat) : list nat :=
  List.filter (fun i : nat => is_relmax data order (Z.of_nat i)) (seq 0 (length data)).

Definition argrelextrema (data : list Q) (order : Z) : result (list nat) :=
  if order <? 1 then Raise ValueError
  else Ok (relmax_positions data (Z.to_nat order)).

(** [df.iloc[idx]]. *)
Definition iloc_rows (df : DataFrame) (idx : list nat) : DataFrame :=
  flat_map (fun i => match nth_error df i with Some c => [c] | None => [] end) idx.

(** The counters of the walk over consecutive peak highs. *)
Record Steps : Type := mkSteps {
  descending_steps : Z;
  step_violations : Z;
  step_max_break : Q
}.

Fixpoint walk_steps (prev : Q) (rest : list Q) (acc : Steps) : Steps :=
  match rest with
  | [] => acc
  | h :: rest' =>
      let acc' :=
        if Qltb h prev then
          mkSteps (descending_steps acc + 1) (step_violations acc) (step_max_break acc)
        else
          mkSteps (descending_steps acc) (step_violations acc + 1)
            (if Qltb 0%Q prev
             then Qmax (step_max_break acc) ((h - prev) / prev)%Q
             else step_max_break acc)
      in walk_steps h rest' acc'
  end.

Definition count_steps (highs_series : list Q) : Steps :=
  match highs_series with
  | [] => mkSteps 0 0 0%Q
  | h :: rest => walk_steps h rest (mkSteps 0 0 0%Q)
  end.

Definition detect_lower_highs_scored (df : DataFrame) (min_peaks order : Z)
    : result PatternResult :=
  if empty df then
    Ok (mkPatternResult false 0%Q [] 0%Q 0 0%Q (Some "no data"))
  else if Z.of_nat (length df) <? Z.max (min_peaks * order) 5 then
    Ok (mkPatternResult false 0%Q [] 0%Q 0 0%Q (Some "insufficient candles"))
  else
    let highs := map high df in
    peak_idx ← argrelextrema highs order;
    let peaks := iloc_rows df peak_idx in
    if Z.of_nat (length peaks) <? min_peaks then
      Ok (mkPatternResult false 0%Q peaks 0%Q 0 0%Q (Some "not enough peaks"))
    else
      let highs_series := map high peaks in
      let total_steps := Z.of_nat (length highs_series) - 1 in
      let st := count_steps highs_series in
      let base_score :=
        if 0 <? total_steps
        then (inject_Z (descending_steps st) / inject_Z total_steps)%Q
        else 0%Q in
      let penalty := Qmin (step_max_break st * (1 # 2))%Q (1 # 2)%Q in
      let score := Qmax (base_score - penalty)%Q 0%Q in
      slope ← polyfit_slope highs_series;
      let score := if Qle_bool 0%Q slope then (score * (1 # 2))%Q else score in
      let passed := Qle_bool (1 # 2)%Q score && (2 <=? descending_steps st) in
      Ok (mkPatternResult passed slope peaks score (step_violations st)
            (step_max_break st)
            (if passed then None else Some "weak descent")).

(** ** src/analysis/pattern_detector2.py *)

(** A row of an indicator file; a column without a value in the row (or
    holding NaN) is null. *)
Record IndRow : Type := mkIndRow {
  ind_time : Z;
  ind_vals : gmap string Q
}.

Record IndFrame : Type := mkIndFrame {
  ind_columns : list string;
  ind_rows : list IndRow
}.

(** The indicator directory, keyed by file name. *)
Definition IndStore : Type := gmap string IndFrame.

Definition has_column (ind : IndFrame) (col : string) : bool :=
  existsb (String.eqb col) (ind_columns ind).

(** [ind.dropna(subset=[col])[col]]: the non-null values of a column, in
    row order; [KeyError] when the frame has no such column. *)
Definition column_values (rows : list IndRow) (col : string) : list Q :=
  omap (fun r => ind_vals r !! col) rows.

Definition dropna_column (ind : IndFrame) (col : string) : result (list Q) :=
  if has_column ind col then Ok (column_values (ind_rows ind) col)
  else Raise KeyError.

Definition _slope (y : list Q) : result Q :=
  if (length y <? 2)%nat then Ok 0%Q else polyfit_slope y.

Definition _load_indicators (inds : IndStore) (pair tf : string) : option IndFrame :=
  inds !! (pair +:+ "_" +:+ tf +:+ "_indicators.parquet").

Definition _ema_desc (ind : option IndFrame) (col : string) (lag : nat)
    (strict : bool) (tol : Q) : bool * option string :=
  match ind with
  | None => if strict then (false, Some ("missing " +:+ col)) else (true, None)
  | Some ind =>
      if negb (has_column ind col) then
        if strict then (false, Some ("missing " +:+ col)) else (true, None)
      else
        let clean := column_values (ind_rows ind) col in
        if (length clean <=? lag)%nat then
          if strict then (false, Some ("insufficient " +:+ col)) else (true, None)
        else
          let past_val := iloc_neg clean (lag + 1) 0%Q in
          let recent_val := iloc_neg clean 1 0%Q in
          let descending := Qltb recent_val (past_val * (1 + tol))%Q in
          (descending, if descending then None else Some (col +:+ " not descending"))
  end.

(** [df[df["time"] >= cutoff]] with the cutoff a clock reading. *)
Definition since_us (cutoff : Z) (t : Z) : bool := cutoff <=? t * 1000000.

Definition rows_since (cutoff : Z) (df : DataFrame) : DataFrame :=
  List.filter (fun c => since_us cutoff (time c)) df.

Definition rows_before (cutoff : Z) (df : DataFrame) : DataFrame :=
  List.filter (fun c => negb (since_us cutoff (time c))) df.

(** [s.max()] of a non-empty series of highs. *)
Definition high_max (df : DataFrame) : Q :=
  match df with
  | [] => 0%Q
  | c :: rest => Qmaximum (high c) (map high rest)
  end.

Definition fail_result (window : DataFrame) (why : string) : PatternResult :=
  mkPatternResult false 0%Q window 0%Q 0 0%Q (Some why).

Definition rule_result (passed : bool) (slope : Q) (window : DataFrame)
    (reason : option string) (dflt : string) : PatternResult :=
  mkPatternResult passed slope window (float_of_bool passed)
    (if passed then 0 else 1) 0%Q
    (if passed then None else Some (str_or reason dflt)).

(** The trend check of the daily branch (lines 84-107): the pass flag and
    the reason. *)
Definition daily_ema_check (ind : option IndFrame) : result (bool * option string) :=
  match ind with
  | Some frame =>
      if has_column frame "ema_50" then
        let clean := column_values (ind_rows frame) "ema_50" in
        let ema50_ready := (50 <? length clean)%nat in
        let '(ema50_pass, r50) :=
          if ema50_ready then _ema_desc ind "ema_50" 50 true 0%Q else (false, None) in
        let '(ema200_pass, r200) :=
          if has_column frame "ema_200"
             && (200 <? length (column_values (ind_rows frame) "ema_200"))%nat
          then _ema_desc ind "ema_200" 200 true 0%Q else (true, None) in
        clean200 ← dropna_column frame "ema_200";
        if (200 <? length clean200)%nat then
          let ema_pass := ema50_pass && ema200_pass in
          Ok (ema_pass,
              if negb ema_pass
              then Some (str_or r200 (str_or r50 "ema 50/200 not descending"))
              else None)
        else
          let ema_pass := ema50_pass in
          Ok (ema_pass,
              if negb ema_pass then Some (str_or r50 "ema 50 not descending")
              else None)
      else Ok (false, Some "missing ema 50")
  | None => Ok (false, Some "missing ema 50")
  end.

(** The trend check of the 4h branch (lines 125-139). *)
Definition h4_ema_check (ind : option IndFrame) (cutoff : Z) : bool * option string :=
  match ind with
  | Some frame =>
      if has_column frame "ema_7" then
        let rows :=
          if has_column frame "time"
          then List.filter (fun r => since_us cutoff (ind_time r)) (ind_rows frame)
          else ind_rows frame in
        let rows := List.filter (fun r => bool_decide (is_Some (ind_vals r !! "ema_7"))) rows in
        if (7 <? length rows)%nat then
          _ema_desc (Some (mkIndFrame (ind_columns frame) rows)) "ema_7" 7 true (2 # 1000)%Q
        else (false, Some "insufficient ema_7")
      else (false, Some "missing ema_7")
  | None => (false, Some "missing ema_7")
  end.

Definition detect_descending_rules (inds : IndStore) (now : Z)
    (df : DataFrame) (tf pair : string) : result PatternResult :=
  if empty df then Ok (fail_result [] "no data")
  else
    let ind := _load_indicators inds pair tf in
    if String.eqb tf "monthly" then
      if (length df <? PAT2_MONTHS_LOOKBACK)%nat then
        Ok (fail_result [] "insufficient months")
      else
        let last_two := tail_rows PAT2_MONTHS_LOOKBACK df in
        let current_high := iloc_neg (map high last_two) 1 0%Q in
        let prev_high := iloc_neg (map high last_two) 2 0%Q in
        let highs_pass := Qle_bool current_high prev_high in
        let '(ema_pass, reason) := _ema_desc ind "ema_12" 12 true 0%Q in
        let passed := highs_pass && ema_pass in
        slope ← _slope (map high last_two);
        Ok (rule_result passed slope last_two reason "current high > prev high")
    else if String.eqb tf "daily" then
      let cutoff := now - days_us PAT2_DAILY_LOOKBACK_DAYS in
      let window := rows_since cutoff df in
      if empty window then Ok (fail_result [] "no recent data")
      else
        let recent_cut := now - days_us PAT2_DAILY_RECENT_DAYS in
        let recent := rows_since recent_cut window in
        let baseline := rows_before recent_cut window in
        if empty baseline || empty recent then
          Ok (fail_result window "not enough split")
        else
          let highs_pass := Qle_bool (high_max recent) (high_max baseline) in
          '(ema_pass, reason) ← daily_ema_check ind;
          let passed := highs_pass && ema_pass in
          slope ← _slope (map high window);
          Ok (rule_result passed slope window reason "recent high > prior window")
    else if String.eqb tf "4h" then
      let cutoff := now - days_us PAT2_4H_LOOKBACK_DAYS in
      let window := rows_since cutoff df in
      if empty window then Ok (fail_result [] "no recent data")
      else
        let recent_bars := PAT2_4H_RECENT_BARS in
        if (length window <=? recent_bars)%nat then
          Ok (fail_result window "not enough bars")
        else
          let recent := tail_rows recent_bars window in
          let baseline := firstn (length window - recent_bars)%nat window in
          if empty baseline then Ok (fail_result window "not enough baseline")
          else
            let highs_pass := Qle_bool (high_max recent) (high_max baseline) in
            let '(ema_pass, reason) := h4_ema_check ind cutoff in
            let passed := highs_pass && ema_pass in
            slope ← _slope (map high window);
            Ok (rule_result passed slope window reason "recent high > prior bars")
    else Ok (fail_result [] "unsupported tf").

(** ** src/analysis/volume_profile.py *)

Record VolumeProfileResult : Type := mkVolumeProfileResult {
  poc : fnum;
  vah : fnum;
  val : fnum;
  bin_edges : list Q;
  histogram : list Q
}.

(** [np.linspace(first, last, n + 1)]. *)
Definition linspace (first last : Q) (n : nat) : list Q :=
  map (fun i : nat =>
         Qred (first + (last - first) * inject_Z (Z.of_nat i) / inject_Z (Z.of_nat n))%Q)
      (seq 0 (S n)).

(** The bin of a value among [n] equal-width bins over [first, last]; the
    right edge belongs to the last bin. *)
Definition bin_index (first last : Q) (n : nat) (x : Q) : Z :=
  let i := Qfloor ((x - first) * inject_Z (Z.of_nat n) / (last - first))%Q in
  if i =? Z.of_nat n then i - 1 else i.

(** [np.histogram(prices, bins=bins, weights=volumes)]: the weighted
    counts and the edges.  A degenerate range is widened by one half on
    each side; a bin count below one is rejected. *)
Definition np_histogram (prices volumes : list Q) (bins : Z)
    : result (list Q * list Q) :=
  if bins <? 1 then Raise ValueError
  else
    match prices with
    | [] => Raise ValueError
    | p :: ps =>
        let lo := Qminimum p ps in
        let hi := Qmaximum p ps in
        let '(first, last) :=
          if Qeq_bool lo hi then ((lo - (1 # 2))%Q, (hi + (1 # 2))%Q) else (lo, hi) in
        let n := Z.to_nat bins in
        let hist :=
          map (fun b : nat =>
                 Qred (Qsum (map snd
                   (List.filter (fun pv : Q * Q =>
                              bin_index first last n (fst pv) =? Z.of_nat b)
                           (combine prices volumes)))))
              (seq 0 n) in
        Ok (hist, linspace first last n)
    end.

(** [hist.argmax()]: the first position of the largest count. *)
Fixpoint argmax_from (best_i : nat) (best : Q) (i : nat) (l : list Q) : nat :=
  match l with
  | [] => best_i
  | x :: rest =>
      if Qltb best x then argmax_from i x (S i) rest
      else argmax_from best_i best (S i) rest
  end.

Definition argmax (l : list Q) : nat :=
  match l with
  | [] => 0%nat
  | x :: rest => argmax_from 0 x 1 rest
  end.

Definition _bin_midpoint (edges : list Q) (idx : nat) : Q :=
  Qred ((nth idx edges 0 + nth (S idx) edges 0) / 2)%Q.

(** The loop of [_value_area_bounds].  Every round adds one bin to
    [included], so [length hist] rounds of fuel are never used up. *)
Fixpoint value_area_loop (fuel : nat) (hist : list Q) (total target : Q)
    (included : list Z) (left right : Z) (volume_accum : Q) : list Z :=
  match fuel with
  | O => included
  | S fuel' =>
      let len := Z.of_nat (length hist) in
      if Qltb (volume_accum / total) target && ((0 <=? left) || (right <? len)) then
        let left_vol := if 0 <=? left then nth (Z.to_nat left) hist 0%Q else (-1)%Q in
        let right_vol := if right <? len then nth (Z.to_nat right) hist 0%Q else (-1)%Q in
        if Qle_bool left_vol right_vol && (right <? len) then
          value_area_loop fuel' hist total target (right :: included) left (right + 1)
            (volume_accum + nth (Z.to_nat right) hist 0)%Q
        else if 0 <=? left then
          value_area_loop fuel' hist total target (left :: included) (left - 1) right
            (volume_accum + nth (Z.to_nat left) hist 0)%Q
        else included
      else included
  end.

Definition _value_area_bounds (hist edges : list Q) (poc_idx : nat) (target : Q)
    : Q * Q :=
  let total := Qsum hist in
  let p := Z.of_nat poc_idx in
  let included :=
    value_area_loop (length hist) hist total target [p] (p - 1) (p + 1)
      (nth poc_idx hist 0%Q) in
  let lower_idx := fold_left Z.min included p in
  let upper_idx := fold_left Z.max included p in
  (nth (Z.to_nat (upper_idx + 1)) edges 0%Q, nth (Z.to_nat lower_idx) edges 0%Q).

Definition nan_profile (edges hist : list Q) : VolumeProfileResult :=
  mkVolumeProfileResult NaN NaN NaN edges hist.

Definition compute_volume_profile (df : DataFrame) (bins : Z) (target_value_area : Q)
    : result VolumeProfileResult :=
  if empty df || Qeq_bool (Qsum (map volume df)) 0 then Ok (nan_profile [] [])
  else
    let prices := map close df in
    let volumes := map volume df in
    '(hist, edges) ← np_histogram prices volumes bins;
    if Qeq_bool (Qsum hist) 0 then Ok (nan_profile edges hist)
    else
      let poc_idx := argmax hist in
      let poc_price := _bin_midpoint edges poc_idx in
      let '(vah, val) := _value_area_bounds hist edges poc_idx target_value_area in
      Ok (mkVolumeProfileResult (Num poc_price) (Num vah) (Num val) edges hist).

(** ** src/scoring/coin_ranker.py *)

Record TimeframeOutcome : Type := mkTimeframeOutcome {
  name : string;
  pattern : PatternResult;
  volume_profile : VolumeProfileResult;
  volume_decline_score_of : Q;
  poc_distance_score_of : Q
}.

Definition volume_decline_score (df : DataFrame) : Q :=
  if (length df <? 10)%nat then 0%Q
  else
    let split := Nat.max (length df / 4) 1 in
    let early := Qmean (firstn split (map volume df)) in
    let recent := Qmean (tail_rows split (map volume df)) in
    if Qle_bool early 0 then 0%Q
    else clip ((early - recent) / early) 0 1.

(** [df["close"].iloc[-1]] raises [IndexError] on a frame without rows. *)
Definition poc_distance_score (df : DataFrame) (vp : VolumeProfileResult) : result Q :=
  match df with
  | [] => Raise IndexError
  | c :: rest =>
      let last_close := close (List.last rest c) in
      match poc vp with
      | NaN => Ok 0%Q
      | Num p =>
          if Qeq_bool last_close 0 then Ok 0%Q
          else
            let distance := (Qabs (last_close - p) / last_close)%Q in
            Ok (clip (1 - distance) 0 1)
      end
  end.

Definition score_timeframe (tf_name : string) (df : DataFrame)
    (pattern : PatternResult) (vp : VolumeProfileResult) : result TimeframeOutcome :=
  let vol_decline := volume_decline_score df in
  poc_score ← poc_distance_score df vp;
  Ok (mkTimeframeOutcome tf_name pattern vp vol_decline poc_score).

Definition aggregate_score (timeframes : list TimeframeOutcome) (is_solana : bool) : Q :=
  let total :=
    fold_left
      (fun (acc : Q) (tf : TimeframeOutcome) =>
         let weight := default 0%Q (TIMEFRAME_WEIGHTS !! name tf) in
         let tf_score :=
           ((6 # 10) * score (pattern tf)
            + (25 # 100) * volume_decline_score_of tf
            + (15 # 100) * poc_distance_score_of tf)%Q in
         (acc + weight * tf_score)%Q)
      timeframes 0%Q in
  if is_solana then (total + SOL_BONUS)%Q else total.

(** ** src/types.py and main.py *)

Record PairResult : Type := mkPairResult {
  res_pair : string;
  res_wsname : string;
  res_score : Q;
  res_is_solana : bool;
  res_outcomes : list TimeframeOutcome;
  res_frames : gmap string DataFrame
}.

Definition PATTERN_MIN_PEAKS : gmap string Z :=
  <["monthly" := 3]> (<["daily" := 4]> (<["4h" := 4]> ∅)).

Definition PATTERN_ORDER : gmap string Z :=
  <["monthly" := 2]> (<["daily" := 2]> (<["4h" := 2]> ∅)).

(** The body of the loop of [analyze_pair] once the frame is fetched:
    detector, volume profile (default [bins=30], [target_value_area=0.7])
    and per-timeframe scores. *)
Definition analyze_frame (inds : IndStore) (now : Z) (pair : PairMeta)
    (tf : string) (df : DataFrame) : result TimeframeOutcome :=
  pattern ←
    (if PATTERN_DETECTOR_VERSION =? 2 then
       detect_descending_rules inds now df tf (altname pair)
     else
       min_peaks ← getitem PATTERN_MIN_PEAKS tf;
       order ← getitem PATTERN_ORDER tf;
       detect_lower_highs_scored df min_peaks order);
  vp ← compute_volume_profile df 30 (7 # 10);
  score_timeframe tf df pattern vp.

Fixpoint analyze_loop (client : Client) (inds : IndStore) (now : Z)
    (pair : PairMeta) (refresh : bool) (timeframes : list string)
    (st : Store) (outcomes : list TimeframeOutcome) (frames : gmap string DataFrame)
    : result (list TimeframeOutcome * gmap string DataFrame * Store) :=
  match timeframes with
  | [] => Ok (outcomes, frames, st)
  | tf :: rest =>
      '(df, st') ← fetch_ohlc client now st pair tf refresh;
      outcome ← analyze_frame inds now pair tf df;
      analyze_loop client inds now pair refresh rest st'
        (outcomes ++ [outcome]) (<[tf := df]> frames)
  end.

Definition analyze_pair (client : Client) (inds : IndStore) (now : Z) (st : Store)
    (pair : PairMeta) (refresh : bool) (timeframes : list string)
    : result (PairResult * Store) :=
  '(outcomes, frames, st') ←
    analyze_loop client inds now pair refresh timeframes st [] ∅;
  let score := aggregate_score outcomes (is_solana pair) in
  Ok (mkPairResult (altname pair) (wsname pair) score (is_solana pair) outcomes frames,
      st').

(** ** Declarative readings used in the statements *)

(** Consecutive pairs [(previous, next)] of a series. *)
Definition adjacent_pairs (hs : list Q) : list (Q * Q) :=
  match hs with
  | [] => []
  | _ :: rest => combine hs rest
  end.

(** A step descends when the next peak is strictly lower. *)
Definition descends (p : Q * Q) : bool := Qltb (snd p) (fst p).

Definition spec_descending_steps (hs : list Q) : Z :=
  Z.of_nat (length (List.filter descends (adjacent_pairs hs))).

Definition spec_violations (hs : list Q) : Z :=
  Z.of_nat (length (List.filter (fun p => negb (descends p)) (adjacent_pairs hs))).

(** The upward breaks, as fractions of the previous peak, of the steps
    that do not descend from a positive peak. *)
Definition break_fractions (hs : list Q) : list Q :=
  map (fun p : Q * Q => ((snd p - fst p) / fst p)%Q)
    (List.filter (fun p => negb (descends p) && Qltb 0 (fst p)) (adjacent_pairs hs)).

Definition spec_max_break (hs : list Q) : Q :=
  fold_left Qmax (break_fractions hs) 0%Q.

(** Every peak strictly lower than the one before. *)
Definition strictly_descending (hs : list Q) : Prop :=
  Forall (fun p : Q * Q => (snd p < fst p)%Q) (adjacent_pairs hs).

(** The daily trend rule as the specification words it: the 50-period
    average strictly decreased over a lag of 50; when at least 200 points
    of the 200-period average are available it must also have strictly
    decreased over a lag of 200; missing data fails. *)
Definition strictly_decreased_over (vals : list Q) (lag : nat) : bool :=
  (lag <? length vals)%nat
  && Qltb (iloc_neg vals 1 0%Q) (iloc_neg vals (lag + 1) 0%Q).

Definition spec_daily_trend_check (ind : option IndFrame) (threshold : nat) : bool :=
  match ind with
  | None => false
  | Some frame =>
      let e50 := column_values (ind_rows frame) "ema_50" in
      let e200 := column_values (ind_rows frame) "ema_200" in
      has_column frame "ema_50"
      && strictly_decreased_over e50 50
      && (if (threshold <=? length e200)%nat
          then strictly_decreased_over e200 200
          else true)
  end.

(** The cache of [(pair, tf)] holds [df] and is fresh at the clock
    reading [now], so that [fetch_ohlc] serves [df] from the cache. *)
Definition fresh_frame (st : Store) (pair : PairMeta) (now : Z) (tf : string)
    (df : DataFrame) : Prop :=
  exists cfg f,
    TIMEFRAMES !! tf = Some cfg /\
    cache_dir st !! _cache_path (altname pair) tf = Some f /\
    content f = df /\
    _is_cache_fresh st now (_cache_path (altname pair) tf) (cache_ttl cfg) = true.

(** The lookback windows, in days, that variant B cuts relative to the
    clock on each timeframe. *)
Definition window_days (tf : string) : list Z :=
  if String.eqb tf "daily" then [PAT2_DAILY_LOOKBACK_DAYS; PAT2_DAILY_RECENT_DAYS]
  else if String.eqb tf "4h" then [PAT2_4H_LOOKBACK_DAYS]
  else [].

(** The timestamps compared with the clock: the candles, and on the 4h
    timeframe the indicator rows. *)
Definition watched_times (inds : IndStore) (pair tf : string) (df : DataFrame) : list Z :=
  map time df ++
  (if String.eqb tf "4h" then
     match _load_indicators inds pair tf with
     | Some frame => map ind_time (ind_rows frame)
     | None => []
     end
   else []).

(** Two clock readings select the same rows in every window of [tf]. *)
Definition same_windows (now1 now2 : Z) (tf : string) (ts : list Z) : Prop :=
  forall d t, In d (window_days tf) -> In t ts ->
    since_us (now1 - days_us d) t = since_us (now2 - days_us d) t.

(** ** Shapes of a series of highs *)

(** The highs never rise from one candle to the next. *)
Definition highs_non_increasing (df : DataFrame) : Prop :=
  forall i, (S i < length df)%nat ->
    (nth (S i) (map high df) 0 <= nth i (map high df) 0)%Q.

(** The highs never fall from one candle to the next. *)
Definition highs_non_decreasing (df : DataFrame) : Prop :=
  forall i, (S i < length df)%nat ->
    (nth i (map high df) 0 <= nth (S i) (map high df) 0)%Q.

(** ** Readings of the scores *)

(** The configured weight of a timeframe, 0 when it has none. *)
Definition weight_of (tf : string) : Q := default 0%Q (TIMEFRAME_WEIGHTS !! tf).

(** The composite of one timeframe. *)
Definition composite (o : TimeframeOutcome) : Q :=
  ((6 # 10) * score (pattern o)
   + (25 # 100) * volume_decline_score_of o
   + (15 # 100) * poc_distance_score_of o)%Q.

(** All three component scores of an outcome lie in [0, 1]. *)
Definition unit_outcome (o : TimeframeOutcome) : Prop :=
  (0 <= score (pattern o) <= 1)%Q /\
  (0 <= volume_decline_score_of o <= 1)%Q /\
  (0 <= poc_distance_score_of o <= 1)%Q.

(** ** src/analysis/compute_indicators.py *)

(** [ema(series, window)]: pandas' [ewm(span=window, adjust=False,
    min_periods=window).mean()] on a series without nulls.  The average
    starts at the first value and moves by [alpha = 2 / (window + 1)] of
    the distance to each next value; the first [window - 1] results are
    null. *)
Fixpoint ewm_from (alpha prev : Q) (xs : list Q) : list Q :=
  match xs with
  | [] => []
  | x :: rest =>
      let y := Qred ((1 - alpha) * prev + alpha * x)%Q in
      y :: ewm_from alpha y rest
  end.

Definition ewm (alpha : Q) (xs : list Q) : list Q :=
  match xs with
  | [] => []
  | x :: rest => x :: ewm_from alpha x rest
  end.

Definition span_alpha (window : nat) : Q :=
  (2 / (inject_Z (Z.of_nat window) + 1))%Q.

Definition ema (series : list Q) (window : nat) : list (option Q) :=
  imap (fun (i : nat) (y : Q) => if (S i <? window)%nat then None else Some y)
    (ewm (span_alpha window) series).

(** Safe percent change: nothing when an input is missing or the start
    is zero. *)
Definition pct_change (start end_ : option Q) : option Q :=
  match start, end_ with
  | Some s, Some e => if Qeq_bool s 0 then None else Some ((e - s) / s)%Q
  | _, _ => None
  end.

Definition WINDOWS : gmap string (list nat) :=
  <["monthly" := [5; 12]%nat]>
  (<["daily" := [5; 30; 50; 200]%nat]>
  (<["4h" := [5; 7]%nat]> ∅)).

(** [f"ema_{w}"]. *)
Definition ema_name (w : nat) : string := "ema_" +:+ pretty w.

(** The calendar year of a timestamp. *)
Definition year_of (t : Z) : Z := fst (civil_year_month (t / 86400)).

Definition first_close (rows : DataFrame) : option Q :=
  match rows with
  | [] => None
  | c :: _ => Some (close c)
  end.

(** The YTD, 30-day and 7-day returns attached to the daily frame, each
    relative to the latest close. *)
Definition daily_returns (out : DataFrame) : list (string * option Q) :=
  match out with
  | [] => []
  | c0 :: rest =>
      let latest := List.last rest c0 in
      let latest_close := close latest in
      let latest_ts := time latest in
      let year_df := List.filter (fun c => year_of (time c) =? year_of latest_ts) out in
      let ytd_return := pct_change (first_close year_df) (Some latest_close) in
      let window_return (days : Z) :=
        let cutoff := latest_ts - days * 86400 in
        match List.filter (fun c => cutoff <=? time c) out with
        | [] => None
        | c :: _ => pct_change (Some (close c)) (Some latest_close)
        end in
      [("return_ytd", ytd_return);
       ("return_30d", window_return 30);
       ("return_7d", window_return 7)]
  end.

(** [out[name] = value] on one row: a null value leaves the cell
    empty. *)
Definition set_cell (nm : string) (v : option Q) (m : gmap string Q) : gmap string Q :=
  match v with
  | Some x => <[nm := x]> m
  | None => delete nm m
  end.

(** The cells of row [i]: its close, then one cell per average, then the
    daily returns, assigned in that order. *)
Definition row_values (i : nat) (c : Candle)
    (emas : list (string * list (option Q))) (consts : list (string * option Q))
    : gmap string Q :=
  fold_left (fun m (col : string * option Q) => set_cell (fst col) (snd col) m) consts
    (fold_left
       (fun m (col : string * list (option Q)) =>
          set_cell (fst col) (nth i (snd col) None) m)
       emas {[ "close" := close c ]}).

(** The indicator frame written for one cached frame. *)
Definition indicators_of (tf : string) (df : DataFrame) : IndFrame :=
  let out := sort_values df in
  let closes := map close out in
  let emas := map (fun w => (ema_name w, ema closes w)) (default [] (WINDOWS !! tf)) in
  let consts :=
    if String.eqb tf "daily" && negb (empty out) then daily_returns out else [] in
  mkIndFrame ("time" :: "close" :: map fst emas ++ map fst consts)
    (imap (fun i c => mkIndRow (time c) (row_values i c emas consts)) out).

Definition indicators_path (pair tf : string) : string :=
  pair +:+ "_" +:+ tf +:+ "_indicators.parquet".

(** [compute_for_pair]: timeframes without a cache file are skipped. *)
Fixpoint compute_for_pair (st : Store) (pair : string) (timeframes : list string)
    (inds : IndStore) : IndStore :=
  match timeframes with
  | [] => inds
  | tf :: rest =>
      match cache_dir st !! _cache_path pair tf with
      | None => compute_for_pair st pair rest inds
      | Some f =>
          compute_for_pair st pair rest
            (<[indicators_path pair tf := indicators_of tf (content f)]> inds)
      end
  end.

(** ** src/api/data_fetcher.py: discovery of the USD pairs *)

(** [s.endswith(suffix)]. *)
Fixpoint endswith (s suffix : string) : bool :=
  String.eqb s suffix
  || match s with
     | EmptyString => false
     | String _ rest => endswith rest suffix
     end.

(** [sub in s]. *)
Fixpoint contains (s sub : string) : bool :=
  String.prefix sub s
  || match s with
     | EmptyString => false
     | String _ rest => contains rest sub
     end.

(** [s[:-n]] for [n > 0]: all but the last [n] characters, nothing when
    [s] is shorter. *)
Definition drop_last (n : nat) (s : string) : string :=
  String.substring 0 (String.length s - n) s.

(** [s.lstrip(ch)] for a one-character argument. *)
Fixpoint lstrip (ch : Ascii.ascii) (s : string) : string :=
  match s with
  | EmptyString => EmptyString
  | String c rest => if Ascii.eqb c ch then lstrip ch rest else s
  end.

Definition _normalize_base (altname base : string) : string :=
  if endswith altname "USD" then drop_last 3 altname
  else if negb (String.eqb base "") then lstrip "Z"%char (lstrip "X"%char base)
  else altname.

(** One entry of Kraken's AssetPairs answer; the fields read here are
    strings, and [info.get(key, "")] reads a missing one as empty. *)
Definition Info : Type := gmap string string.

Definition get (info : Info) (key : string) : string := default "" (info !! key).

Definition _is_usd_spot_pair (info : Info) : bool :=
  let wsname := get info "wsname" in
  let altname := get info "altname" in
  let quote := get info "quote" in
  if endswith altname ".d" then false
  else if negb (String.eqb quote "ZUSD" || String.eqb quote "USD")
          && negb (endswith altname "USD")
          && negb (contains wsname "/USD") then false
  else if negb (String.eqb (get info "aclass_base") "")
          && negb (String.eqb (get info "aclass_base") "currency") then false
  else true.

Definition PAIR_WHITELIST : list string := ["JTOUSD"].

Definition SOL_MEME_BASES : list string := ["BONK"; "WIF"; "SAMO"; "JTO"].

(** The [PairMeta] built for one accepted entry (lines 56-70); [upper]
    stands for [str.upper]. *)
Definition meta_of (upper : string -> string) (info : Info) : PairMeta :=
  let wsname :=
    if String.eqb (get info "wsname") "" then get info "altname"
    else get info "wsname" in
  let altname := get info "altname" in
  let quote := get info "quote" in
  let base := get info "base" in
  let base_symbol := upper (_normalize_base altname base) in
  let is_solana :=
    String.eqb base_symbol "SOL" || existsb (String.eqb base_symbol) SOL_MEME_BASES in
  mkPairMeta altname wsname base_symbol
    (if String.eqb quote "" then "USD" else quote) is_solana.

(** The [PairMeta] appended for a whitelist member that was not
    discovered (line 75). *)
Definition whitelist_meta (altname : string) : PairMeta :=
  mkPairMeta altname (drop_last 3 altname +:+ "/USD") (_normalize_base altname "")
    "USD" false.

(** [discover_usd_pairs], on the answer [pairs] of
    [client.get_asset_pairs()], in the order of its entries. *)
Definition discover_usd_pairs (upper : string -> string)
    (pairs : list (string * Info)) : list PairMeta :=
  let metas :=
    map (fun kv => meta_of upper (snd kv))
      (List.filter (fun kv => _is_usd_spot_pair (snd kv)) pairs) in
  let whitelist_missing :=
    List.filter (fun w => negb (existsb (String.eqb w) (map altname metas)))
      PAIR_WHITELIST in
  metas ++ map whitelist_meta whitelist_missing.

(** ASCII upper-casing, for the sample inputs. *)
Definition ascii_upper (c : Ascii.ascii) : Ascii.ascii :=
  let n := Ascii.nat_of_ascii c in
  if ((97 <=? n) && (n <=? 122))%nat then Ascii.ascii_of_nat (n - 32) else c.

Fixpoint upper (s : string) : string :=
  match s with
  | EmptyString => EmptyString
  | String c rest => String (ascii_upper c) (upper rest)
  end.

(** ** Concrete inputs used by the examples below *)

Module Samples.

(** A candle whose prices all equal [px]. *)
Definition candle_at (t : Z) (px vol : Q) : Candle :=
  mkCandle t px px px px px vol 1.

Definition xbt : PairMeta := mkPairMeta "XBTUSD" "XBT/USD" "XBT" "USD" false.

Definition no_store : Store := mkStore ∅ ∅.

(** An upstream that answers every request with the same batch. *)
Definition fixed_client (batch : list Candle) : Client := fun _ _ _ => Ok batch.

(** An upstream that only answers requests starting at [t]. *)
Definition probe_client (t : Z) : Client :=
  fun _ _ since =>
    match since with
    | Some s => if s =? t then Ok [] else Raise RuntimeError
    | None => Raise RuntimeError
    end.

(** 2024-01-15 00:00:00 UTC and a clock reading later that day. *)
Definition jan15 : Z := 1705276800.
Definition jan15_clock : Z := 1705300000 * 1000000.
Definition hours_us (h : Z) : Z := h * 3600 * 1000000.

(** A daily cache written at the epoch holding one candle of day 10. *)
Definition day10 : Z := 864000.
Definition daily_cache (row : Candle) : Store :=
  mkStore {[ "XBTUSD_daily.parquet" := mkCacheFile 0 [row] ]} ∅.

End Samples.

Module DetectorSamples.

(** Candles with the given highs, one per day. *)
Definition with_highs (hs : list Q) : DataFrame :=
  imap (fun i h => mkCandle (Z.of_nat i * 86400) 1 h 1 1 1 1 1) hs.

(** Two peaks, 5 then 4. *)
Definition two_peaks : DataFrame := with_highs [1; 5; 1; 4; 1]%Q.

(** Two monthly bars, the latest high above the previous one. *)
Definition rising_months : DataFrame := with_highs [90; 100]%Q.

(** Candles with the given closes and volumes. *)
Definition priced (pv : list (Q * Q)) : DataFrame :=
  map (fun p : Q * Q => mkCandle 0 1 1 1 (fst p) 1 (snd p) 1) pv.

(** An indicator frame of [n] daily rows in which [ema_50] falls by one
    per row and [ema_200] rises by one per row. *)
Definition falling_50_rising_200 (n : nat) : IndFrame :=
  mkIndFrame ["time"; "close"; "ema_50"; "ema_200"]
    (map (fun i : nat =>
            mkIndRow (Z.of_nat i * 86400)
              (<["ema_50" := inject_Z (1000 - Z.of_nat i)]>
               (<["ema_200" := inject_Z (Z.of_nat i)]> ∅)))
         (seq 0 n)).

End DetectorSamples.

Module ClockSamples.

Definition day (d : Z) : Z := d * 86400.

(** Daily candles of days 10, 20 and 35 with highs 100, 50 and 60. *)
Definition candles : DataFrame :=
  [ mkCandle (day 10) 1 100 1 1 1 1 1;
    mkCandle (day 20) 1 50 1 1 1 1 1;
    mkCandle (day 35) 1 60 1 1 1 1 1 ].

(** Two clock readings, one hour before and one hour after midnight of
    day 40, and a cache written two hours before that midnight. *)
Definition clock1 : Z := (day 40 - 3600) * 1000000.
Definition clock2 : Z := (day 40 + 3600) * 1000000.

Definition store : Store :=
  mkStore {[ "XBTUSD_daily.parquet" := mkCacheFile ((day 40 - 7200) * 1000000) candles ]} ∅.

Definition indicators : IndStore :=
  {[ "XBTUSD_daily_indicators.parquet" := DetectorSamples.falling_50_rising_200 60 ]}.

(** No upstream is reachable. *)
Definition offline : Client := fun _ _ _ => Raise RuntimeError.

End ClockSamples.

Module ExtraSamples.

(** A daily indicator file that carries [ema_50] but no [ema_200]
    column. *)
Definition only_ema_50 : IndFrame :=
  mkIndFrame ["time"; "close"; "ema_50"]
    (map (fun i : nat =>
            mkIndRow (Z.of_nat i * 86400) {[ "ema_50" := inject_Z (1000 - Z.of_nat i) ]})
         (seq 0 60)).

Definition indicators_without_ema_200 : IndStore :=
  {[ "XBTUSD_daily_indicators.parquet" := only_ema_50 ]}.




(** A daily cache of 120 candles, one per day, whose closes fall by one
    per day. *)
Definition falling_daily : DataFrame :=
  map (fun i : nat =>
         mkCandle (Z.of_nat i * 86400) 1 1 1 (inject_Z (1000 - Z.of_nat i)) 1 1 1)
      (seq 0 120).

Definition falling_store : Store :=
  mkStore {[ "XBTUSD_daily.parquet" := mkCacheFile 0 falling_daily ]} ∅.

End ExtraSamples.

Module DiscoverySamples.

(** Two entries of an AssetPairs answer: a spot pair and its dark-pool
    twin. *)
Definition bonk : Info :=
  {[ "altname" := "BONKUSD"; "wsname" := "BONK/USD"; "base" := "BONK";
     "quote" := "ZUSD"; "aclass_base" := "currency" ]}.

Definition bonk_dark : Info :=
  {[ "altname" := "BONKUSD.d"; "wsname" := "BONK/USD"; "base" := "BONK";
     "quote" := "ZUSD"; "aclass_base" := "currency" ]}.

Definition answer : list (string * Info) :=
  [("BONKUSD", bonk); ("BONKUSD.d", bonk_dark)].

End DiscoverySamples.
(** * Properties *)

(** ** Sorting and deduplication of frames *)

Definition time_le (a b : Candle) : Prop := time a <= time b.
Definition time_lt (a b : Candle) : Prop := time a < time b.

Lemma insert_by_time_In c d df :
  In d (insert_by_time c df) <-> d = c \/ In d df.
Proof.
  induction df as [|e rest IH]; simpl.
  - intuition.
  - destruct (time c <=? time e); simpl; [intuition|].
    rewrite IH. intuition.
Qed.

Lemma sort_values_In c df : In c (sort_values df) <-> In c df.
Proof.
  induction df as [|d rest IH]; simpl; [tauto|].
  rewrite insert_by_time_In, IH. intuition.
Qed.

Lemma insert_by_time_length c df :
  length (insert_by_time c df) = S (length df).
Proof.
  induction df as [|e rest IH]; simpl; [reflexivity|].
  destruct (time c <=? time e); simpl; congruence.
Qed.

Lemma sort_values_length df : length (sort_values df) = length df.
Proof.
  induction df as [|d rest IH]; simpl; [reflexivity|].
  rewrite insert_by_time_length. congruence.
Qed.

Lemma sort_values_nil_inv df : sort_values df = [] -> df = [].
Proof.
  intros H. apply (f_equal (@length _)) in H.
  rewrite sort_values_length in H. destruct df; [reflexivity|discriminate].
Qed.

Lemma insert_by_time_sorted c df :
  StronglySorted time_le df -> StronglySorted time_le (insert_by_time c df).
Proof.
  induction 1 as [|e rest Hs IH Hall]; simpl.
  - repeat constructor.
  - destruct (time c <=? time e) eqn:E.
    + apply Z.leb_le in E. constructor.
      * constructor; assumption.
      * constructor; [exact E|].
        eapply List.Forall_impl; [|exact Hall].
        unfold time_le. intros; lia.
    + apply Z.leb_gt in E. constructor; [exact IH|].
      apply List.Forall_forall. intros x Hx.
      apply insert_by_time_In in Hx. destruct Hx as [->|Hx].
      * unfold time_le. lia.
      * rewrite List.Forall_forall in Hall. auto.
Qed.

Lemma sort_values_sorted df : StronglySorted time_le (sort_values df).
Proof.
  induction df as [|c rest IH]; simpl; [constructor|].
  apply insert_by_time_sorted, IH.
Qed.

(** A frame already in ascending order is left as it is. *)
Lemma sort_values_id df : StronglySorted time_le df -> sort_values df = df.
Proof.
  induction 1 as [|c rest Hs IH Hall]; simpl; [reflexivity|].
  rewrite IH. destruct rest as [|d rest']; simpl; [reflexivity|].
  inversion Hall as [|? ? Hcd _]; subst. unfold time_le in Hcd.
  apply Z.leb_le in Hcd. rewrite Hcd. reflexivity.
Qed.

Lemma sort_values_idem df : sort_values (sort_values df) = sort_values df.
Proof. apply sort_values_id, sort_values_sorted. Qed.

Lemma insert_by_time_times c df :
  Permutation (map time (insert_by_time c df)) (time c :: map time df).
Proof.
  induction df as [|e rest IH]; simpl; [reflexivity|].
  destruct (time c <=? time e); simpl; [reflexivity|].
  rewrite IH. apply perm_swap.
Qed.

Lemma sort_values_times df :
  Permutation (map time (sort_values df)) (map time df).
Proof.
  induction df as [|c rest IH]; simpl; [reflexivity|].
  rewrite insert_by_time_times. constructor. exact IH.
Qed.

(** Ascending order without repeated timestamps is strictly ascending. *)
Lemma sorted_nodup_strict df :
  StronglySorted time_le df -> List.NoDup (map time df) -> StronglySorted time_lt df.
Proof.
  induction 1 as [|c rest Hs IH Hall]; simpl; intros Hnd; [constructor|].
  apply List.NoDup_cons_iff in Hnd. destruct Hnd as [Hni Hnd].
  constructor; [auto|].
  apply List.Forall_forall. intros x Hx.
  rewrite List.Forall_forall in Hall. specialize (Hall x Hx).
  unfold time_le in Hall. unfold time_lt.
  assert (time x <> time c).
  { intros E. apply Hni. rewrite <- E. apply in_map. exact Hx. }
  lia.
Qed.

Lemma strict_sorted_le df : StronglySorted time_lt df -> StronglySorted time_le df.
Proof.
  induction 1 as [|c rest Hs IH Hall]; constructor; [exact IH|].
  eapply List.Forall_impl; [|exact Hall]. unfold time_lt, time_le. intros; lia.
Qed.

Lemma strict_sorted_nodup df : StronglySorted time_lt df -> List.NoDup (map time df).
Proof.
  induction 1 as [|c rest Hs IH Hall]; simpl; constructor; [|exact IH].
  intros Hin. apply List.in_map_iff in Hin. destruct Hin as (x & E & Hx).
  rewrite List.Forall_forall in Hall. specialize (Hall x Hx).
  unfold time_lt in Hall. lia.
Qed.

Lemma existsb_eqb_In t seen : existsb (Z.eqb t) seen = true <-> In t seen.
Proof.
  rewrite List.existsb_exists. split.
  - intros (x & Hx & E). apply Z.eqb_eq in E. subst. exact Hx.
  - intros H. exists t. split; [exact H|apply Z.eqb_refl].
Qed.

Lemma existsb_eqb_ext t s1 s2 :
  (forall x, In x s1 <-> In x s2) ->
  existsb (Z.eqb t) s1 = existsb (Z.eqb t) s2.
Proof.
  intros H. apply eq_true_iff_eq. rewrite !existsb_eqb_In. apply H.
Qed.

(** Only the set of timestamps seen so far matters. *)
Lemma drop_duplicates_seen_ext df : forall s1 s2,
  (forall x, In x s1 <-> In x s2) ->
  drop_duplicates_seen s1 df = drop_duplicates_seen s2 df.
Proof.
  induction df as [|c rest IH]; intros s1 s2 H; simpl; [reflexivity|].
  rewrite (existsb_eqb_ext _ s1 s2 H).
  destruct (existsb (Z.eqb (time c)) s2).
  - apply IH, H.
  - f_equal. apply IH. intros x. simpl. rewrite H. tauto.
Qed.

Lemma drop_duplicates_seen_app l1 : forall seen l2,
  drop_duplicates_seen seen (l1 ++ l2) =
  drop_duplicates_seen seen l1 ++ drop_duplicates_seen (map time l1 ++ seen) l2.
Proof.
  induction l1 as [|c rest IH]; intros seen l2; simpl; [reflexivity|].
  destruct (existsb (Z.eqb (time c)) seen) eqn:E.
  - rewrite IH. f_equal. apply drop_duplicates_seen_ext.
    apply existsb_eqb_In in E. intros x. simpl. rewrite !in_app_iff.
    split; [tauto|]. intros [Hx|H]; [subst x|]; tauto.
  - simpl. rewrite IH. do 2 f_equal. apply drop_duplicates_seen_ext.
    intros x. simpl. rewrite !in_app_iff. simpl. tauto.
Qed.

(** Rows whose timestamps were all seen are all dropped. *)
Lemma drop_duplicates_seen_all df : forall seen,
  (forall c, In c df -> In (time c) seen) ->
  drop_duplicates_seen seen df = [].
Proof.
  induction df as [|c rest IH]; intros seen H; simpl; [reflexivity|].
  assert (E : existsb (Z.eqb (time c)) seen = true).
  { apply existsb_eqb_In, H. left. reflexivity. }
  rewrite E. apply IH. intros d Hd. apply H. right. exact Hd.
Qed.

(** Rows with fresh, pairwise distinct timestamps are all kept. *)
Lemma drop_duplicates_seen_fresh df : forall seen,
  List.NoDup (map time df) ->
  (forall c, In c df -> ~ In (time c) seen) ->
  drop_duplicates_seen seen df = df.
Proof.
  induction df as [|c rest IH]; intros seen Hnd H; simpl; [reflexivity|].
  simpl in Hnd. apply List.NoDup_cons_iff in Hnd. destruct Hnd as [Hni Hnd].
  destruct (existsb (Z.eqb (time c)) seen) eqn:E.
  - apply existsb_eqb_In in E. exfalso. apply (H c); [left; reflexivity|exact E].
  - f_equal. apply IH; [exact Hnd|].
    intros d Hd [Hx|Hx].
    + apply Hni. rewrite Hx. apply in_map. exact Hd.
    + apply (H d); [right; exact Hd|exact Hx].
Qed.

Lemma drop_duplicates_nodup_id df :
  List.NoDup (map time df) -> drop_duplicates df = df.
Proof.
  intros H. apply drop_duplicates_seen_fresh; [exact H|]. intros c _ [].
Qed.

Lemma drop_duplicates_seen_In df : forall seen c,
  In c (drop_duplicates_seen seen df) -> In c df /\ ~ In (time c) seen.
Proof.
  induction df as [|d rest IH]; intros seen c; simpl; [tauto|].
  destruct (existsb (Z.eqb (time d)) seen) eqn:E.
  - intros H. apply IH in H. tauto.
  - intros [->|H].
    + split; [tauto|]. intros Hin. apply existsb_eqb_In in Hin. congruence.
    + apply IH in H. simpl in H. tauto.
Qed.

Lemma drop_duplicates_seen_nodup df : forall seen,
  List.NoDup (map time (drop_duplicates_seen seen df)).
Proof.
  induction df as [|d rest IH]; intros seen; simpl; [constructor|].
  destruct (existsb (Z.eqb (time d)) seen); [apply IH|].
  simpl. constructor; [|apply IH].
  intros Hin. apply List.in_map_iff in Hin. destruct Hin as (x & E & Hx).
  apply drop_duplicates_seen_In in Hx. destruct Hx as [_ Hx].
  apply Hx. left. symmetry. exact E.
Qed.

Lemma drop_duplicates_seen_times df : forall seen t,
  In t (map time (drop_duplicates_seen seen df)) <->
  In t (map time df) /\ ~ In t seen.
Proof.
  induction df as [|d rest IH]; intros seen t; simpl; [tauto|].
  destruct (existsb (Z.eqb (time d)) seen) eqn:E.
  - rewrite IH. apply existsb_eqb_In in E.
    split; [tauto|]. intros [[Hx|H] Hn]; [subst t|]; tauto.
  - simpl. rewrite IH. simpl.
    assert (Hd : ~ In (time d) seen).
    { intros Hin. apply existsb_eqb_In in Hin. congruence. }
    destruct (Z.eq_dec (time d) t) as [Hx|Hne]; [subst t|]; tauto.
Qed.

(** The rows kept are exactly the first rows of their timestamps. *)
Lemma drop_duplicates_seen_find df : forall seen c,
  In c (drop_duplicates_seen seen df) <->
  find (fun d => time d =? time c) df = Some c /\ ~ In (time c) seen.
Proof.
  induction df as [|d rest IH]; intros seen c; simpl; [intuition discriminate|].
  destruct (existsb (Z.eqb (time d)) seen) eqn:E.
  - apply existsb_eqb_In in E. rewrite IH.
    destruct (time d =? time c) eqn:Edc.
    + apply Z.eqb_eq in Edc. rewrite <- Edc. split; [tauto|].
      intros [_ Hn]. tauto.
    + tauto.
  - assert (Hd : ~ In (time d) seen).
    { intros Hin. apply existsb_eqb_In in Hin. congruence. }
    simpl. rewrite IH. simpl.
    destruct (time d =? time c) eqn:Edc.
    + apply Z.eqb_eq in Edc. split.
      * intros [->|[_ Hn]]; [tauto|]. exfalso. apply Hn. left. exact Edc.
      * intros [H Hn]. left. congruence.
    + apply Z.eqb_neq in Edc. split.
      * intros [->|[H Hn]]; [congruence|tauto].
      * intros [H Hn]. right. split; [exact H|]. intros [Hx|Hx]; tauto.
Qed.

(** ** fetch_ohlc: the path that pulls from upstream *)

Lemma empty_false_iff (df : DataFrame) : empty df = false <-> df <> [].
Proof. destruct df; simpl; split; congruence. Qed.

(** Unfolding of [fetch_ohlc] when the early return is not taken. *)
Lemma fetch_ohlc_pull client now st pair tf refresh cfg raw :
  TIMEFRAMES !! tf = Some cfg ->
  negb refresh && _is_cache_fresh st now (_cache_path (altname pair) tf) (cache_ttl cfg) = false ->
  client (altname pair) (interval_minutes cfg)
    (since_cursor cfg now (base_frame st (_cache_path (altname pair) tf) refresh)) = Ok raw ->
  let df := apply_resample cfg
              (merge_cache (base_frame st (_cache_path (altname pair) tf) refresh)
                 (sort_values raw)) in
  fetch_ohlc client now st pair tf refresh =
  Ok (df, persist st now (_cache_path (altname pair) tf) (_state_key (altname pair) tf) df).
Proof.
  intros Hcfg Hfresh Hraw. unfold fetch_ohlc, getitem. rewrite Hcfg. simpl.
  rewrite Hfresh, Hraw. reflexivity.
Qed.

(** Unfolding of [fetch_ohlc] on the early return. *)
Lemma fetch_ohlc_fresh client now st pair tf cfg f :
  TIMEFRAMES !! tf = Some cfg ->
  cache_dir st !! _cache_path (altname pair) tf = Some f ->
  _is_cache_fresh st now (_cache_path (altname pair) tf) (cache_ttl cfg) = true ->
  fetch_ohlc client now st pair tf false = Ok (content f, st).
Proof.
  intros Hcfg Hf Hfresh. unfold fetch_ohlc, getitem, read_parquet.
  rewrite Hcfg. simpl. rewrite Hfresh, Hf. reflexivity.
Qed.

Lemma persist_lookup st now path key df :
  cache_dir (persist st now path key df) !! path = Some (mkCacheFile now df).
Proof. simpl. apply lookup_insert_eq. Qed.

(** The merged frame: strictly ascending, with the timestamps of both
    inputs, each carried by its first row in [old ++ new]. *)
Lemma merge_rows_spec (old new : DataFrame) :
  let merged := sort_values (drop_duplicates (old ++ new)) in
  StronglySorted time_lt merged /\
  (forall t, In t (map time merged) <-> In t (map time old) \/ In t (map time new)) /\
  (forall c, In c merged <-> find (fun d => time d =? time c) (old ++ new) = Some c).
Proof.
  intros merged. subst merged. split; [|split].
  - apply sorted_nodup_strict; [apply sort_values_sorted|].
    eapply Permutation_NoDup; [symmetry; apply sort_values_times|].
    apply drop_duplicates_seen_nodup.
  - intros t. rewrite (Permutation_in' (eq_refl t) (sort_values_times _)).
    unfold drop_duplicates. rewrite drop_duplicates_seen_times.
    rewrite map_app, in_app_iff. simpl. tauto.
  - intros c. rewrite sort_values_In. unfold drop_duplicates.
    rewrite drop_duplicates_seen_find. simpl. tauto.
Qed.

Lemma find_app_left {A} (p : A -> bool) (l1 l2 : list A) x :
  find p l1 = Some x -> find p (l1 ++ l2) = Some x.
Proof.
  induction l1 as [|a l1 IH]; simpl; [discriminate|].
  destruct (p a); auto.
Qed.


(** ** fetch_ohlc: merge with the cached series (C1) *)




(** ** fetch_ohlc: fetching the same batch twice (C2) *)

(** Merging a batch into a series that already absorbed it changes
    nothing, provided the batch has no repeated timestamps or the series
    came out of a merge. *)
Lemma merge_cache_absorbs base raw :
  (List.NoDup (map time raw) \/ exists b, base = Some b /\ b <> []) ->
  let s1 := merge_cache base (sort_values raw) in
  merge_cache (Some s1) (sort_values raw) = s1.
Proof.
  intros Hcase s1.
  assert (Hs1 : StronglySorted time_lt s1 /\
                forall c, In c (sort_values raw) -> In (time c) (map time s1)).
  { subst s1. unfold merge_cache.
    destruct base as [b|].
    - destruct (empty b) eqn:E; simpl.
      + destruct Hcase as [Hnd|(b' & Hb & Hne)].
        * split; [|intros c Hc; apply in_map; exact Hc].
          apply sorted_nodup_strict; [apply sort_values_sorted|].
          eapply Permutation_NoDup; [symmetry; apply sort_values_times|exact Hnd].
        * injection Hb as <-. apply empty_false_iff in Hne. congruence.
      + destruct (merge_rows_spec b (sort_values raw)) as (Hs & Ht & _).
        split; [exact Hs|]. intros c Hc. apply Ht. right. apply in_map. exact Hc.
    - destruct Hcase as [Hnd|(b' & Hb & _)]; [|discriminate].
      split; [|intros c Hc; apply in_map; exact Hc].
      apply sorted_nodup_strict; [apply sort_values_sorted|].
      eapply Permutation_NoDup; [symmetry; apply sort_values_times|exact Hnd]. }
  destruct Hs1 as [Hsorted Hcover].
  unfold merge_cache at 1. destruct (empty s1) eqn:E; simpl.
  - destruct s1; [|discriminate]. destruct (sort_values raw) as [|c r]; [reflexivity|].
    exfalso. apply (Hcover c). left. reflexivity.
  - unfold drop_duplicates. rewrite drop_duplicates_seen_app.
    rewrite (drop_duplicates_seen_all (sort_values raw)).
    + rewrite app_nil_r. rewrite drop_duplicates_seen_fresh.
      * apply sort_values_id, strict_sorted_le, Hsorted.
      * apply strict_sorted_nodup, Hsorted.
      * intros c _ [].
    + intros c Hc. rewrite app_nil_r. apply Hcover, Hc.
Qed.

(** The sibling path of C2: for a timeframe without a resample rule, a
    pull followed by a second fetch that receives the same batch leaves
    the stored series as the first pull wrote it. *)
Lemma fetch_twice_no_resample client now1 now2 st pair tf refresh cfg raw :
  TIMEFRAMES !! tf = Some cfg ->
  resample_rule cfg = None ->
  (forall since, client (altname pair) (interval_minutes cfg) since = Ok raw) ->
  List.NoDup (map time raw) ->
  negb refresh && _is_cache_fresh st now1 (_cache_path (altname pair) tf) (cache_ttl cfg) = false ->
  exists df1 st1 df2 st2,
    fetch_ohlc client now1 st pair tf refresh = Ok (df1, st1) /\
    fetch_ohlc client now2 st1 pair tf false = Ok (df2, st2) /\
    df2 = df1 /\
    content <$> cache_dir st1 !! _cache_path (altname pair) tf = Some df1 /\
    content <$> cache_dir st2 !! _cache_path (altname pair) tf = Some df1.
Proof.
  intros Hcfg Hrule Hclient Hnd Hpull.
  set (path := _cache_path (altname pair) tf) in *.
  set (key := _state_key (altname pair) tf).
  set (base := base_frame st path refresh).
  set (df1 := merge_cache base (sort_values raw)).
  pose proof (fetch_ohlc_pull client now1 st pair tf refresh cfg raw Hcfg Hpull
                (Hclient _)) as H1.
  unfold apply_resample in H1. rewrite Hrule in H1. simpl in H1.
  fold path key base df1 in H1.
  set (st1 := persist st now1 path key df1) in *.
  assert (Hfile : cache_dir st1 !! path = Some (mkCacheFile now1 df1))
    by apply persist_lookup.
  assert (Habsorb : merge_cache (Some df1) (sort_values raw) = df1).
  { apply merge_cache_absorbs. left. exact Hnd. }
  destruct (_is_cache_fresh st1 now2 path (cache_ttl cfg)) eqn:Hfresh2.
  - exists df1, st1, df1, st1.
    split; [exact H1|].
    split; [exact (fetch_ohlc_fresh client now2 st1 pair tf cfg _ Hcfg Hfile Hfresh2)|].
    split; [reflexivity|].
    split; rewrite Hfile; reflexivity.
  - assert (Hbase2 : base_frame st1 path false = Some df1).
    { unfold base_frame. rewrite Hfile. reflexivity. }
    pose proof (fetch_ohlc_pull client now2 st1 pair tf false cfg raw Hcfg) as H2.
    fold path key in H2. rewrite Hbase2 in H2.
    change (negb false && _is_cache_fresh st1 now2 path (cache_ttl cfg))
      with (_is_cache_fresh st1 now2 path (cache_ttl cfg)) in H2.
    specialize (H2 Hfresh2 (Hclient _)).
    unfold apply_resample in H2. rewrite Hrule in H2. rewrite Habsorb in H2.
    exists df1, st1, df1, (persist st1 now2 path key df1).
    split; [exact H1|]. split; [exact H2|]. split; [reflexivity|].
    split; [rewrite Hfile; reflexivity|].
    rewrite persist_lookup. reflexivity.
Qed.

(** C2 on the monthly timeframe.  With no cache, upstream answers both
    fetches with the same single daily candle of 2024-01-15 (volume 10).
    The first fetch stores the January bar with volume 10; the second,
    25 hours later, merges the daily candle into the stored monthly bar
    and resamples again: the stored bar now has volume 20 and count 2. *)
Theorem fetch_monthly_twice_changes_store :
  let client := Samples.fixed_client [Samples.candle_at Samples.jan15 1 10] in
  let now1 := Samples.jan15_clock in
  let now2 := now1 + Samples.hours_us 25 in
  exists df1 st1 df2 st2,
    fetch_ohlc client now1 Samples.no_store Samples.xbt "monthly" false = Ok (df1, st1) /\
    fetch_ohlc client now2 st1 Samples.xbt "monthly" false = Ok (df2, st2) /\
    content <$> cache_dir st1 !! "XBTUSD_monthly.parquet" = Some df1 /\
    content <$> cache_dir st2 !! "XBTUSD_monthly.parquet" = Some df2 /\
    map time df1 = [1706659200] /\ map time df2 = [1706659200] /\
    map volume df1 = [10%Q] /\ map volume df2 = [20%Q] /\
    map count df1 = [1] /\ map count df2 = [2] /\
    df2 <> df1.
Proof.
  simpl. eexists. eexists. eexists. eexists.
  split; [vm_compute; reflexivity|].
  split; [vm_compute; reflexivity|].
  repeat (split; [vm_compute; reflexivity|]).
  discriminate.
Qed.

(** ** fetch_ohlc: the since cursor (C3) *)

(** Without a history horizon the cursor is the latest cached timestamp
    itself: [since or last_ts] is [last_ts], and [max] keeps it. *)
Lemma since_cursor_no_horizon cfg now b :
  history_days cfg = None -> b <> [] -> 0 <= interval_minutes cfg ->
  since_cursor cfg now (Some b) = Some (max_time b).
Proof.
  intros Hh Hb Hi. unfold since_cursor. rewrite Hh. simpl.
  apply empty_false_iff in Hb. rewrite Hb. simpl. f_equal. lia.
Qed.

(** With a horizon whose bound is not zero the two bounds combine by
    [max]. *)
Lemma since_cursor_horizon cfg now b d :
  history_days cfg = Some d -> b <> [] ->
  Z.quot (now - days_us d) 1000000 <> 0 ->
  since_cursor cfg now (Some b) =
  Some (Z.max (Z.quot (now - days_us d) 1000000)
              (max_time b - interval_minutes cfg * 60)).
Proof.
  intros Hh Hb Hz. unfold since_cursor. rewrite Hh. simpl.
  apply empty_false_iff in Hb. rewrite Hb. simpl.
  apply Z.eqb_neq in Hz. rewrite Hz. reflexivity.
Qed.

(** C3 on the daily timeframe (no history horizon): with a cache whose
    latest candle is day 10, the request starts at day 10 and not one
    interval (86400 s) earlier; an upstream that only answers requests
    starting at day 10 is served. *)
Theorem since_cursor_daily_starts_at_last_ts :
  let cfg := mkTimeframeConfig 1440 None 6 None in
  let row := Samples.candle_at Samples.day10 1 5 in
  TIMEFRAMES !! "daily" = Some cfg /\
  since_cursor cfg (Samples.hours_us 48) (Some [row]) = Some Samples.day10 /\
  Samples.day10 - interval_minutes cfg * 60 = 777600 /\
  returns (fetch_ohlc (Samples.probe_client Samples.day10) (Samples.hours_us 48)
             (Samples.daily_cache row) Samples.xbt "daily" false) = true /\
  returns (fetch_ohlc (Samples.probe_client 777600) (Samples.hours_us 48)
             (Samples.daily_cache row) Samples.xbt "daily" false) = false.
Proof. simpl. repeat split; vm_compute; reflexivity. Qed.

(** ** fetch_ohlc: forced refresh (C10) *)



(** ** Variant A: detect_lower_highs_scored (C4) *)

Lemma Qltb_lt a b : Qltb a b = true <-> (a < b)%Q.
Proof.
  unfold Qltb. rewrite negb_true_iff. split.
  - intros H. apply Qnot_le_lt. intros Hle.
    apply Qle_bool_iff in Hle. congruence.
  - intros H. destruct (Qle_bool b a) eqn:E; [|reflexivity].
    apply Qle_bool_iff in E. exfalso. exact (Qlt_not_le _ _ H E).
Qed.

Lemma Qle_bool_false_lt a b : Qle_bool a b = false <-> (b < a)%Q.
Proof.
  rewrite <- Qltb_lt. unfold Qltb. destruct (Qle_bool a b); simpl; split; congruence.
Qed.

(** The loop over consecutive peaks computes the declarative counts. *)
Lemma walk_steps_spec rest : forall prev acc,
  walk_steps prev rest acc =
  mkSteps
    (descending_steps acc + spec_descending_steps (prev :: rest))
    (step_violations acc + spec_violations (prev :: rest))
    (fold_left Qmax (break_fractions (prev :: rest)) (step_max_break acc)).
Proof.
  unfold spec_descending_steps, spec_violations, break_fractions, adjacent_pairs.
  induction rest as [|h rest IH]; intros prev acc.
  - simpl. destruct acc; simpl. f_equal; lia.
  - cbn [walk_steps]. rewrite IH. clear IH.
    change (combine (prev :: h :: rest) (h :: rest))
      with ((prev, h) :: combine (h :: rest) rest).
    cbn [List.filter]. change (descends (prev, h)) with (Qltb h prev). cbn [fst snd].
    destruct (Qltb h prev) eqn:E; cbn [negb andb descending_steps step_violations
                                       step_max_break length map fold_left].
    + f_equal; lia.
    + destruct (Qltb 0 prev); cbn [map fold_left length fst snd]; f_equal; lia.
Qed.

Lemma count_steps_spec hs :
  count_steps hs =
  mkSteps (spec_descending_steps hs) (spec_violations hs) (spec_max_break hs).
Proof.
  destruct hs as [|h rest]; [reflexivity|].
  unfold count_steps. rewrite walk_steps_spec. reflexivity.
Qed.

Lemma adjacent_pairs_length hs :
  length (adjacent_pairs hs) = (length hs - 1)%nat.
Proof.
  destruct hs as [|h rest]; [reflexivity|].
  unfold adjacent_pairs. rewrite List.length_combine. cbn [length]. lia.
Qed.







(** ** Variant B: detect_descending_rules (C5, C6) *)

Lemma tail_rows_app {A} (front back : list A) :
  tail_rows (length back) (front ++ back) = back.
Proof.
  unfold tail_rows. rewrite length_app.
  replace (length front + length back - length back)%nat with (length front) by lia.
  rewrite skipn_app, skipn_all, Nat.sub_diag. reflexivity.
Qed.

(** C5.  On the monthly timeframe, a series of at least two periods whose
    latest high strictly exceeds the previous high is rejected with score
    0 and a reason, whatever the indicator store holds and whatever the
    clock reads. *)
Theorem monthly_rising_high_fails inds now pair front prev cur :
  (high prev < high cur)%Q ->
  exists r,
    detect_descending_rules inds now (front ++ [prev; cur]) "monthly" pair = Ok r /\
    passed r = false /\
    score r = 0%Q /\
    peaks r = [prev; cur] /\
    reason r <> None.
Proof.
  intros Hrise. unfold detect_descending_rules.
  assert (E0 : empty (front ++ [prev; cur]) = false) by (destruct front; reflexivity).
  rewrite E0. change (String.eqb "monthly" "monthly") with true. cbv iota.
  assert (E1 : (length (front ++ [prev; cur]) <? PAT2_MONTHS_LOOKBACK)%nat = false).
  { apply Nat.ltb_ge. rewrite length_app. simpl. unfold PAT2_MONTHS_LOOKBACK. lia. }
  rewrite E1.
  change PAT2_MONTHS_LOOKBACK with (length [prev; cur]).
  rewrite tail_rows_app.
  change (iloc_neg (map high [prev; cur]) 1 0%Q) with (high cur).
  change (iloc_neg (map high [prev; cur]) 2 0%Q) with (high prev).
  assert (E2 : Qle_bool (high cur) (high prev) = false)
    by (apply Qle_bool_false_lt; exact Hrise).
  rewrite E2.
  destruct (_ema_desc (_load_indicators inds pair "monthly") "ema_12" 12 true 0)
    as [ema_pass why].
  cbn. eexists. split; [reflexivity|]. cbn.
  repeat (split; [reflexivity|]). discriminate.
Qed.

Lemma monthly_rising_high_fails_witness :
  exists r,
    detect_descending_rules ∅ 0 DetectorSamples.rising_months "monthly" "XBTUSD" = Ok r /\
    passed r = false /\ score r = 0%Q.
Proof.
  destruct (monthly_rising_high_fails ∅ 0 "XBTUSD" []
              (mkCandle 0 1 90 1 1 1 1 1) (mkCandle 86400 1 100 1 1 1 1 1))
    as (r & Hr & Hp & Hs & _).
  - reflexivity.
  - exists r. split; [exact Hr|]. split; [exact Hp|exact Hs].
Defined.

Lemma Qltb_times_one a b : Qltb a (b * (1 + 0)) = Qltb a b.
Proof.
  unfold Qltb. f_equal.
  assert (H : (b * (1 + 0) == b)%Q) by ring.
  rewrite H. reflexivity.
Qed.

(** The strict trend check of [_ema_desc] on a frame holding the column. *)
Lemma _ema_desc_strict frame col lag :
  has_column frame col = true ->
  fst (_ema_desc (Some frame) col lag true 0) =
  strictly_decreased_over (column_values (ind_rows frame) col) lag.
Proof.
  intros Hcol. unfold _ema_desc, strictly_decreased_over. rewrite Hcol. simpl.
  rewrite Nat.leb_antisym.
  destruct (lag <? length (column_values (ind_rows frame) col))%nat; simpl;
    [|reflexivity].
  apply Qltb_times_one.
Qed.

(** The daily trend check computes the rule with the threshold of 201
    points, on frames that carry the [ema_200] column whenever they carry
    [ema_50]. *)
Lemma daily_ema_check_spec frame :
  (has_column frame "ema_50" = true -> has_column frame "ema_200" = true) ->
  exists why,
    daily_ema_check (Some frame) = Ok (spec_daily_trend_check (Some frame) 201, why) /\
    (why = None <-> spec_daily_trend_check (Some frame) 201 = true).
Proof.
  intros Hcols.
  unfold daily_ema_check, spec_daily_trend_check.
  destruct (has_column frame "ema_50") eqn:H50.
  2:{ eexists. split; [reflexivity|]. simpl. split; discriminate. }
  specialize (Hcols eq_refl).
  pose proof (_ema_desc_strict frame "ema_50" 50 H50) as D50.
  pose proof (_ema_desc_strict frame "ema_200" 200 Hcols) as D200.
  unfold dropna_column. rewrite Hcols.
  set (e50 := column_values (ind_rows frame) "ema_50") in *.
  set (e200 := column_values (ind_rows frame) "ema_200") in *.
  destruct (_ema_desc (Some frame) "ema_50" 50 true 0) as [p50 r50].
  destruct (_ema_desc (Some frame) "ema_200" 200 true 0) as [p200 r200].
  simpl in D50, D200. subst p50 p200.
  change (201 <=? length e200)%nat with (200 <? length e200)%nat.
  cbn [andb].
  destruct (50 <? length e50)%nat eqn:R50.
  - destruct (200 <? length e200)%nat eqn:R200; cbn [mbind result_bind].
    + rewrite R200. eexists. split; [reflexivity|].
      destruct (strictly_decreased_over e50 50 && strictly_decreased_over e200 200);
        simpl; split; congruence.
    + rewrite R200. rewrite andb_true_r. eexists. split; [reflexivity|].
      destruct (strictly_decreased_over e50 50); simpl; split; congruence.
  - assert (S50 : strictly_decreased_over e50 50 = false).
    { unfold strictly_decreased_over. rewrite R50. reflexivity. }
    rewrite S50.
    destruct (200 <? length e200)%nat eqn:R200; cbn [mbind result_bind andb].
    + rewrite R200. eexists. split; [reflexivity|]. simpl. split; discriminate.
    + rewrite R200. eexists. split; [reflexivity|]. simpl. split; discriminate.
Qed.

(** On the daily timeframe the detector passes only when the trend check
    does. *)
Lemma detect_daily_passed inds now df pair r :
  detect_descending_rules inds now df "daily" pair = Ok r ->
  passed r = true ->
  exists why, daily_ema_check (_load_indicators inds pair "daily") = Ok (true, why).
Proof.
  unfold detect_descending_rules.
  destruct (empty df); [intros [= <-]; discriminate|].
  change (String.eqb "daily" "monthly") with false.
  change (String.eqb "daily" "daily") with true. cbv iota zeta.
  destruct (empty (rows_since _ df)); [intros [= <-]; discriminate|].
  destruct (empty (rows_before _ _) || empty (rows_since _ (rows_since _ df)));
    [intros [= <-]; discriminate|].
  destruct (daily_ema_check (_load_indicators inds pair "daily")) as [[ema_pass why]|e];
    cbn [mbind result_bind]; [|discriminate].
  destruct (_slope _) as [m|e]; cbn [mbind result_bind]; [|discriminate].
  intros [= <-]. cbn [passed rule_result]. intros H.
  apply andb_true_iff in H. destruct H as [_ ->]. eexists. reflexivity.
Qed.

(** C6, as amended.  The daily trend check passes exactly when the frame
    holds [ema_50], the 50-period average strictly decreased over a lag of
    50, and, in the case where MORE than 200 (at least 201) non-null
    points of [ema_200] are available, the 200-period average also
    strictly decreased over a lag of 200; with 200 points or fewer the
    50-period check alone governs.  A missing indicator frame or a missing
    [ema_50] column fails the check, and the detector passes on "daily"
    only when the check does. *)
Theorem daily_trend_check_spec frame :
  (has_column frame "ema_50" = true -> has_column frame "ema_200" = true) ->
  (exists why,
     daily_ema_check (Some frame) = Ok (spec_daily_trend_check (Some frame) 201, why) /\
     (why = None <-> spec_daily_trend_check (Some frame) 201 = true)) /\
  daily_ema_check None = Ok (false, Some "missing ema 50") /\
  spec_daily_trend_check None 201 = false /\
  (forall inds now df pair r,
     _load_indicators inds pair "daily" = Some frame ->
     detect_descending_rules inds now df "daily" pair = Ok r ->
     passed r = true ->
     spec_daily_trend_check (Some frame) 201 = true) /\
  (forall inds now df pair r,
     _load_indicators inds pair "daily" = None ->
     detect_descending_rules inds now df "daily" pair = Ok r ->
     passed r = false).
Proof.
  intros Hcols.
  destruct (daily_ema_check_spec frame Hcols) as (why & Hw & Hiff).
  split; [exists why; split; assumption|].
  split; [reflexivity|]. split; [reflexivity|]. split.
  - intros inds now df pair r Hload Hr Hp.
    destruct (detect_daily_passed inds now df pair r Hr Hp) as (why' & Hc).
    rewrite Hload, Hw in Hc. congruence.
  - intros inds now df pair r Hload Hr.
    destruct (passed r) eqn:Hp; [|reflexivity].
    destruct (detect_daily_passed inds now df pair r Hr Hp) as (why' & Hc).
    rewrite Hload in Hc. discriminate.
Qed.

Lemma daily_trend_check_spec_witness :
  exists why,
    daily_ema_check (Some (DetectorSamples.falling_50_rising_200 201)) = Ok (false, why).
Proof.
  destruct (daily_trend_check_spec (DetectorSamples.falling_50_rising_200 201))
    as ((why & Hw & _) & _).
  - intros _. reflexivity.
  - exists why. exact Hw.
Defined.

(** C6, as stated, fails at exactly 200 points: the frame holds 200
    non-null points of both averages, [ema_50] falling and [ema_200]
    rising.  The rule as worded (threshold "at least 200") rejects it; the
    code does not consult [ema_200] and the check passes. *)
Lemma daily_trend_check_at_200_points :
  let frame := DetectorSamples.falling_50_rising_200 200 in
  length (column_values (ind_rows frame) "ema_200") = 200%nat /\
  spec_daily_trend_check (Some frame) 200 = false /\
  daily_ema_check (Some frame) = Ok (true, None).
Proof. cbv zeta. repeat split; vm_compute; reflexivity. Qed.

(** ** Scores and volume profile on degenerate frames (C8, C9) *)

(** C8.  On a frame with rows, [poc_distance_score] returns 0 when the
    point of control is NaN or the last close is 0, and
    [clip(1 - |lastClose - poc| / lastClose, 0, 1)] otherwise.  On the
    frame without rows it does not return: reading the last close raises
    [IndexError], also when the point of control is NaN, and the error
    reaches [score_timeframe] and [analyze_frame]. *)
Theorem poc_distance_score_cases :
  (forall front c vp,
     poc_distance_score (front ++ [c]) vp =
     Ok (match poc vp with
         | NaN => 0%Q
         | Num p =>
             if Qeq_bool (close c) 0 then 0%Q
             else clip (1 - Qabs (close c - p) / close c) 0 1
         end)) /\
  (forall vp, poc_distance_score [] vp = Raise IndexError) /\
  poc_distance_score [] (nan_profile [] []) = Raise IndexError /\
  (forall tf pattern vp, score_timeframe tf [] pattern vp = Raise IndexError) /\
  (forall inds now pair tf, analyze_frame inds now pair tf [] = Raise IndexError).
Proof.
  split; [|split; [|split; [|split]]].
  - intros front c vp. unfold poc_distance_score.
    destruct (front ++ [c]) as [|d rest] eqn:E; [destruct front; discriminate|].
    assert (Hl : List.last rest d = c).
    { destruct front as [|d' front'].
      - simpl in E. injection E as <- <-. reflexivity.
      - simpl in E. injection E as -> <-.
        destruct front' as [|x xs]; [reflexivity|].
        change (List.last ((x :: xs) ++ [c]) d = c). apply last_last. }
    rewrite Hl. destruct (poc vp); [reflexivity|].
    destruct (Qeq_bool (close c) 0); reflexivity.
  - reflexivity.
  - reflexivity.
  - reflexivity.
  - reflexivity.
Qed.

(** C9.  The empty series makes both detectors return a failed result
    with the reason "no data", and the volume profile return NaN for the
    point of control and both value-area bounds with an empty histogram;
    the same profile is returned whenever the volumes sum to zero. *)
Theorem empty_series_results :
  (forall min_peaks order,
     exists r, detect_lower_highs_scored [] min_peaks order = Ok r /\
               passed r = false /\ reason r = Some "no data") /\
  (forall inds now tf pair,
     exists r, detect_descending_rules inds now [] tf pair = Ok r /\
               passed r = false /\ reason r = Some "no data") /\
  (forall bins target,
     compute_volume_profile [] bins target =
     Ok (mkVolumeProfileResult NaN NaN NaN [] [])) /\
  (forall df bins target,
     (Qsum (map volume df) == 0)%Q ->
     compute_volume_profile df bins target =
     Ok (mkVolumeProfileResult NaN NaN NaN [] [])).
Proof.
  split; [|split; [|split]].
  - intros. eexists. split; [reflexivity|]. split; reflexivity.
  - intros. eexists. split; [reflexivity|]. split; reflexivity.
  - reflexivity.
  - intros df bins target Hz. unfold compute_volume_profile.
    apply Qeq_bool_iff in Hz. rewrite Hz, orb_true_r. reflexivity.
Qed.

Lemma empty_series_results_witness :
  compute_volume_profile (DetectorSamples.priced [(1, 0); (2, 0)]%Q) 30 (7 # 10) =
  Ok (mkVolumeProfileResult NaN NaN NaN [] []).
Proof.
  apply (proj2 (proj2 (proj2 empty_series_results))). reflexivity.
Defined.

(** ** The scoring pipeline and the wall clock (C7) *)

Lemma rows_since_same c1 c2 df :
  (forall t, In t (map time df) -> since_us c1 t = since_us c2 t) ->
  rows_since c1 df = rows_since c2 df /\ rows_before c1 df = rows_before c2 df.
Proof.
  intros H. unfold rows_since, rows_before.
  split; apply List.filter_ext_in; intros c Hc.
  - apply H, in_map, Hc.
  - f_equal. apply H, in_map, Hc.
Qed.

Lemma rows_since_times c df t :
  In t (map time (rows_since c df)) -> In t (map time df).
Proof.
  unfold rows_since. rewrite !List.in_map_iff.
  intros (x & E & Hx). apply List.filter_In in Hx. exists x. tauto.
Qed.

Lemma h4_ema_check_same ind c1 c2 :
  (forall frame, ind = Some frame ->
     forall t, In t (map ind_time (ind_rows frame)) -> since_us c1 t = since_us c2 t) ->
  h4_ema_check ind c1 = h4_ema_check ind c2.
Proof.
  intros H. unfold h4_ema_check. destruct ind as [frame|]; [|reflexivity].
  specialize (H frame eq_refl).
  destruct (has_column frame "ema_7"); [|reflexivity].
  destruct (has_column frame "time"); [|reflexivity].
  assert (E : List.filter (fun r => since_us c1 (ind_time r)) (ind_rows frame) =
              List.filter (fun r => since_us c2 (ind_time r)) (ind_rows frame)).
  { apply List.filter_ext_in. intros r Hr. apply H, in_map, Hr. }
  rewrite E. reflexivity.
Qed.

(** Variant B reads the clock only to cut its windows. *)
Lemma detect_descending_rules_clock inds now1 now2 df tf pair :
  same_windows now1 now2 tf (watched_times inds pair tf df) ->
  detect_descending_rules inds now1 df tf pair =
  detect_descending_rules inds now2 df tf pair.
Proof.
  intros Hsame. unfold detect_descending_rules.
  destruct (empty df); [reflexivity|].
  destruct (String.eqb tf "monthly") eqn:Em; [reflexivity|].
  destruct (String.eqb tf "daily") eqn:Ed.
  - apply String.eqb_eq in Ed. subst tf.
    assert (H30 : forall t, In t (map time df) ->
              since_us (now1 - days_us PAT2_DAILY_LOOKBACK_DAYS) t =
              since_us (now2 - days_us PAT2_DAILY_LOOKBACK_DAYS) t).
    { intros t Ht. apply Hsame; [left; reflexivity|].
      unfold watched_times. apply in_or_app. left. exact Ht. }
    assert (H7 : forall t, In t (map time df) ->
              since_us (now1 - days_us PAT2_DAILY_RECENT_DAYS) t =
              since_us (now2 - days_us PAT2_DAILY_RECENT_DAYS) t).
    { intros t Ht. apply Hsame; [right; left; reflexivity|].
      unfold watched_times. apply in_or_app. left. exact Ht. }
    cbv zeta.
    destruct (rows_since_same _ _ df H30) as [-> _].
    set (window := rows_since (now2 - days_us PAT2_DAILY_LOOKBACK_DAYS) df).
    destruct (rows_since_same
                (now1 - days_us PAT2_DAILY_RECENT_DAYS)
                (now2 - days_us PAT2_DAILY_RECENT_DAYS) window) as [-> ->];
      [|reflexivity].
    intros t Ht. apply H7. eapply rows_since_times. exact Ht.
  - destruct (String.eqb tf "4h") eqn:E4; [|reflexivity].
    apply String.eqb_eq in E4. subst tf.
    assert (H7 : forall t, In t (watched_times inds pair "4h" df) ->
              since_us (now1 - days_us PAT2_4H_LOOKBACK_DAYS) t =
              since_us (now2 - days_us PAT2_4H_LOOKBACK_DAYS) t).
    { intros t Ht. apply Hsame; [left; reflexivity|exact Ht]. }
    cbv zeta.
    destruct (rows_since_same
                (now1 - days_us PAT2_4H_LOOKBACK_DAYS)
                (now2 - days_us PAT2_4H_LOOKBACK_DAYS) df) as [-> _].
    { intros t Ht. apply H7. unfold watched_times. apply in_or_app. left. exact Ht. }
    rewrite (h4_ema_check_same (_load_indicators inds pair "4h")
               (now1 - days_us PAT2_4H_LOOKBACK_DAYS)
               (now2 - days_us PAT2_4H_LOOKBACK_DAYS)); [reflexivity|].
    intros frame Hf t Ht. apply H7. unfold watched_times.
    apply in_or_app. right. change (String.eqb "4h" "4h") with true. cbv iota.
    rewrite Hf. exact Ht.
Qed.

Lemma analyze_frame_clock inds now1 now2 pair tf df :
  same_windows now1 now2 tf (watched_times inds (altname pair) tf df) ->
  analyze_frame inds now1 pair tf df = analyze_frame inds now2 pair tf df.
Proof.
  intros H. unfold analyze_frame.
  change (PATTERN_DETECTOR_VERSION =? 2) with true. cbv iota.
  rewrite (detect_descending_rules_clock inds now1 now2 df tf (altname pair) H).
  reflexivity.
Qed.

Lemma fetch_ohlc_fresh_frame client now st pair tf df :
  fresh_frame st pair now tf df ->
  fetch_ohlc client now st pair tf false = Ok (df, st).
Proof.
  intros (cfg & f & Hcfg & Hf & <- & Hfresh).
  exact (fetch_ohlc_fresh client now st pair tf cfg f Hcfg Hf Hfresh).
Qed.

Lemma analyze_loop_clock client inds now1 now2 pair st timeframes :
  (forall tf, In tf timeframes ->
     exists df,
       fresh_frame st pair now1 tf df /\ fresh_frame st pair now2 tf df /\
       same_windows now1 now2 tf (watched_times inds (altname pair) tf df)) ->
  forall outcomes frames,
    analyze_loop client inds now1 pair false timeframes st outcomes frames =
    analyze_loop client inds now2 pair false timeframes st outcomes frames.
Proof.
  induction timeframes as [|tf rest IH]; intros H outcomes frames; [reflexivity|].
  destruct (H tf (or_introl eq_refl)) as (df & F1 & F2 & Hw).
  cbn [analyze_loop].
  rewrite (fetch_ohlc_fresh_frame client now1 st pair tf df F1).
  rewrite (fetch_ohlc_fresh_frame client now2 st pair tf df F2).
  cbn [mbind result_bind].
  rewrite (analyze_frame_clock inds now1 now2 pair tf df Hw).
  destruct (analyze_frame inds now2 pair tf df) as [outcome|e]; [|reflexivity].
  cbn [mbind result_bind].
  apply IH. intros tf' Hin. apply H. right. exact Hin.
Qed.

(** C7, as amended.  Over caches that are fresh at both clock readings
    (the same cached candle series) and the same indicator store, two runs
    of [analyze_pair] agree, scores included, whenever the two readings
    select the same candles (and, on 4h, indicator rows) for the 30-day
    and 7-day windows of the daily and 4h rules.  The monthly rule has no
    window, so monthly scores never depend on the clock. *)
Theorem analyze_pair_same_windows client inds now1 now2 st pair timeframes :
  (forall tf, In tf timeframes ->
     exists df,
       fresh_frame st pair now1 tf df /\ fresh_frame st pair now2 tf df /\
       same_windows now1 now2 tf (watched_times inds (altname pair) tf df)) ->
  analyze_pair client inds now1 st pair false timeframes =
  analyze_pair client inds now2 st pair false timeframes
  /\ (forall df,
        analyze_frame inds now1 pair "monthly" df =
        analyze_frame inds now2 pair "monthly" df).
Proof.
  intros H. split.
  - unfold analyze_pair.
    rewrite (analyze_loop_clock client inds now1 now2 pair st timeframes H).
    reflexivity.
  - intros df. apply analyze_frame_clock. intros d t [].
Qed.

Lemma analyze_pair_same_windows_witness :
  analyze_pair ClockSamples.offline ClockSamples.indicators ClockSamples.clock1
    ClockSamples.store Samples.xbt false ["daily"] =
  analyze_pair ClockSamples.offline ClockSamples.indicators
    (ClockSamples.clock1 + 60 * 1000000)
    ClockSamples.store Samples.xbt false ["daily"].
Proof.
  refine (proj1 (analyze_pair_same_windows ClockSamples.offline ClockSamples.indicators
            ClockSamples.clock1 (ClockSamples.clock1 + 60 * 1000000)
            ClockSamples.store Samples.xbt ["daily"] _)).
  intros tf [<-|[]]. exists ClockSamples.candles.
  split; [|split].
  - exists (mkTimeframeConfig 1440 None 6 None),
      (mkCacheFile ((ClockSamples.day 40 - 7200) * 1000000) ClockSamples.candles).
    repeat split; reflexivity.
  - exists (mkTimeframeConfig 1440 None 6 None),
      (mkCacheFile ((ClockSamples.day 40 - 7200) * 1000000) ClockSamples.candles).
    repeat split; reflexivity.
  - intros d t Hd Ht.
    change (In d [30; 7]) in Hd.
    change (In t [ClockSamples.day 10; ClockSamples.day 20; ClockSamples.day 35]) in Ht.
    simpl in Hd, Ht.
    destruct Hd as [<-|[<-|[]]]; destruct Ht as [<-|[<-|[<-|[]]]]; reflexivity.
Defined.

(** C7, as stated, fails.  The daily cache, fresh at both readings, and
    the indicator store are the same; upstream is never reached; the
    clock reads one hour before midnight in the first run and one hour
    after in the second.  The day-10 candle (the highest) leaves the
    30-day window in between, the daily rule flips from pass to fail, and
    the scores differ. *)
Lemma analyze_pair_depends_on_clock :
  exists r1 r2,
    analyze_pair ClockSamples.offline ClockSamples.indicators ClockSamples.clock1
      ClockSamples.store Samples.xbt false ["daily"] = Ok (r1, ClockSamples.store) /\
    analyze_pair ClockSamples.offline ClockSamples.indicators ClockSamples.clock2
      ClockSamples.store Samples.xbt false ["daily"] = Ok (r2, ClockSamples.store) /\
    res_frames r1 = res_frames r2 /\
    map (fun o => passed (pattern o)) (res_outcomes r1) = [true] /\
    map (fun o => passed (pattern o)) (res_outcomes r2) = [false] /\
    ~ (res_score r1 == res_score r2)%Q.
Proof.
  eexists. eexists.
  split; [vm_compute; reflexivity|].
  split; [vm_compute; reflexivity|].
  cbn [res_frames res_outcomes res_score].
  split; [reflexivity|]. split; [reflexivity|]. split; [reflexivity|].
  vm_compute. discriminate.
Qed.

(** ** More on fetch_ohlc: cache hits, round trips, errors, frame *)

Lemma is_cache_fresh_age st now path ttl f :
  cache_dir st !! path = Some f ->
  _is_cache_fresh st now path ttl = true <-> now - st_mtime f < ttl.
Proof.
  intros Hf. unfold _is_cache_fresh. rewrite Hf. apply Z.ltb_lt.
Qed.

(** A cache file younger than the timeframe's TTL is served as it is:
    whatever the upstream client would answer, the cached frame is
    returned and the store is left untouched. *)
Theorem fetch_fresh_cache_skips_upstream client now st pair tf cfg f :
  TIMEFRAMES !! tf = Some cfg ->
  cache_dir st !! _cache_path (altname pair) tf = Some f ->
  now - st_mtime f < cache_ttl_hours cfg * 3600 * 1000000 ->
  fetch_ohlc client now st pair tf false = Ok (content f, st).
Proof.
  intros Hcfg Hf Hage. apply (fetch_ohlc_fresh client now st pair tf cfg f Hcfg Hf).
  apply (is_cache_fresh_age st now _ _ f Hf). exact Hage.
Qed.

Lemma fetch_fresh_cache_skips_upstream_witness :
  fetch_ohlc ClockSamples.offline ClockSamples.clock1 ClockSamples.store
    Samples.xbt "daily" false = Ok (ClockSamples.candles, ClockSamples.store).
Proof.
  apply (fetch_fresh_cache_skips_upstream ClockSamples.offline ClockSamples.clock1
           ClockSamples.store Samples.xbt "daily"
           (mkTimeframeConfig 1440 None 6 None)
           (mkCacheFile ((ClockSamples.day 40 - 7200) * 1000000) ClockSamples.candles)).
  - reflexivity.
  - reflexivity.
  - vm_compute. reflexivity.
Defined.

(** Write then read: the frame a pull returns is the frame any later
    fetch returns while the file is younger than the TTL, without asking
    upstream and without touching the store again. *)
Theorem fetch_pull_then_read_back client client' now1 now2 st pair tf refresh cfg raw :
  TIMEFRAMES !! tf = Some cfg ->
  negb refresh && _is_cache_fresh st now1 (_cache_path (altname pair) tf) (cache_ttl cfg) = false ->
  client (altname pair) (interval_minutes cfg)
    (since_cursor cfg now1 (base_frame st (_cache_path (altname pair) tf) refresh)) = Ok raw ->
  now2 - now1 < cache_ttl_hours cfg * 3600 * 1000000 ->
  exists df st1,
    fetch_ohlc client now1 st pair tf refresh = Ok (df, st1) /\
    fetch_ohlc client' now2 st1 pair tf false = Ok (df, st1).
Proof.
  intros Hcfg Hpull Hraw Hage.
  pose proof (fetch_ohlc_pull client now1 st pair tf refresh cfg raw Hcfg Hpull Hraw) as H1.
  cbv zeta in H1.
  eexists. eexists. split; [exact H1|].
  eapply (fetch_ohlc_fresh client' now2 _ pair tf cfg (mkCacheFile now1 _) Hcfg).
  - apply persist_lookup.
  - apply (is_cache_fresh_age _ now2 _ _ _ (persist_lookup _ _ _ _ _)). exact Hage.
Qed.

Lemma fetch_pull_then_read_back_witness :
  exists df st1,
    fetch_ohlc (Samples.fixed_client [Samples.candle_at Samples.jan15 1 10])
      Samples.jan15_clock Samples.no_store Samples.xbt "monthly" false = Ok (df, st1) /\
    fetch_ohlc ClockSamples.offline (Samples.jan15_clock + Samples.hours_us 23) st1
      Samples.xbt "monthly" false = Ok (df, st1).
Proof.
  apply (fetch_pull_then_read_back
           (Samples.fixed_client [Samples.candle_at Samples.jan15 1 10])
           ClockSamples.offline Samples.jan15_clock
           (Samples.jan15_clock + Samples.hours_us 23)
           Samples.no_store Samples.xbt "monthly" false
           (mkTimeframeConfig 1440 None 24 (Some ME))
           [Samples.candle_at Samples.jan15 1 10]).
  - reflexivity.
  - reflexivity.
  - reflexivity.
  - vm_compute. reflexivity.
Defined.

(** Errors.  An unknown timeframe raises [KeyError].  When upstream is
    asked (forced refresh, or no fresh cache) and fails, the failure is
    the result of the fetch even if a stale cache file exists: there is no
    fall-back to the cached series. *)
Theorem fetch_ohlc_errors client now st pair tf refresh :
  (TIMEFRAMES !! tf = None ->
   fetch_ohlc client now st pair tf refresh = Raise KeyError) /\
  (forall cfg e,
     TIMEFRAMES !! tf = Some cfg ->
     negb refresh && _is_cache_fresh st now (_cache_path (altname pair) tf) (cache_ttl cfg) = false ->
     client (altname pair) (interval_minutes cfg)
       (since_cursor cfg now (base_frame st (_cache_path (altname pair) tf) refresh)) = Raise e ->
     fetch_ohlc client now st pair tf refresh = Raise e).
Proof.
  split.
  - intros H. unfold fetch_ohlc, getitem. rewrite H. reflexivity.
  - intros cfg e Hcfg Hpull Hraw. unfold fetch_ohlc, getitem.
    rewrite Hcfg. cbn [mbind result_bind]. rewrite Hpull, Hraw. reflexivity.
Qed.

Lemma fetch_ohlc_errors_witness :
  fetch_ohlc ClockSamples.offline 0 Samples.no_store Samples.xbt "weekly" false
    = Raise KeyError /\
  fetch_ohlc ClockSamples.offline (Samples.hours_us 48)
    (Samples.daily_cache (Samples.candle_at Samples.day10 1 5)) Samples.xbt "daily" false
    = Raise RuntimeError.
Proof.
  split.
  - apply (proj1 (fetch_ohlc_errors ClockSamples.offline 0 Samples.no_store
                    Samples.xbt "weekly" false)). reflexivity.
  - apply (proj2 (fetch_ohlc_errors ClockSamples.offline (Samples.hours_us 48)
                    (Samples.daily_cache (Samples.candle_at Samples.day10 1 5))
                    Samples.xbt "daily" false)
             (mkTimeframeConfig 1440 None 6 None) RuntimeError);
      reflexivity.
Defined.

(** A fetch touches no cache file but its own. *)
Theorem fetch_touches_only_own_cache client now st pair tf refresh df st' :
  fetch_ohlc client now st pair tf refresh = Ok (df, st') ->
  forall path, path <> _cache_path (altname pair) tf ->
    cache_dir st' !! path = cache_dir st !! path.
Proof.
  unfold fetch_ohlc, getitem.
  destruct (TIMEFRAMES !! tf) as [cfg|]; cbn [mbind result_bind]; [|discriminate].
  destruct (negb refresh && _is_cache_fresh st now _ _).
  - destruct (read_parquet st _); cbn [mbind result_bind]; [|discriminate].
    intros [= _ <-]. reflexivity.
  - destruct (client _ _ _) as [raw|e]; cbn [mbind result_bind]; [|discriminate].
    intros [= _ <-] path Hne. cbn [persist cache_dir].
    apply lookup_insert_ne. congruence.
Qed.

Lemma fetch_touches_only_own_cache_witness :
  exists df st',
    fetch_ohlc (Samples.fixed_client [Samples.candle_at Samples.jan15 1 10])
      Samples.jan15_clock ClockSamples.store Samples.xbt "monthly" false = Ok (df, st') /\
    cache_dir st' !! "XBTUSD_daily.parquet" =
    cache_dir ClockSamples.store !! "XBTUSD_daily.parquet".
Proof.
  eexists. eexists.
  assert (H : fetch_ohlc (Samples.fixed_client [Samples.candle_at Samples.jan15 1 10])
                Samples.jan15_clock ClockSamples.store Samples.xbt "monthly" false
              = Ok (apply_resample (mkTimeframeConfig 1440 None 24 (Some ME))
                      (sort_values [Samples.candle_at Samples.jan15 1 10]),
                    persist ClockSamples.store Samples.jan15_clock
                      "XBTUSD_monthly.parquet" "XBTUSD_monthly"
                      (apply_resample (mkTimeframeConfig 1440 None 24 (Some ME))
                         (sort_values [Samples.candle_at Samples.jan15 1 10]))))
    by reflexivity.
  split; [exact H|].
  apply (fetch_touches_only_own_cache _ _ _ _ _ _ _ _ H). discriminate.
Defined.

(** ** More on the merge and on resampling *)

Lemma find_time_nodup (df : DataFrame) c :
  List.NoDup (map time df) -> In c df ->
  find (fun d => time d =? time c) df = Some c.
Proof.
  induction df as [|d rest IH]; intros Hnd Hin; [destruct Hin|].
  simpl in Hnd. apply List.NoDup_cons_iff in Hnd. destruct Hnd as [Hni Hnd].
  simpl. destruct Hin as [->|Hin].
  - rewrite Z.eqb_refl. reflexivity.
  - destruct (time d =? time c) eqn:E.
    + apply Z.eqb_eq in E. exfalso. apply Hni. rewrite E. apply in_map. exact Hin.
    + apply IH; assumption.
Qed.

Lemma nodup_times_rows (df : DataFrame) : List.NoDup (map time df) -> List.NoDup df.
Proof. apply NoDup_map_inv. Qed.

(** A merge never loses what the cache held.  On a timeframe without a
    resample rule, when the cached series has no repeated timestamps,
    every cached row is a row of the stored result, which is at least as
    long as the cached series; an empty upstream answer stores the cached
    rows again, in ascending order. *)
Theorem fetch_merge_keeps_every_cached_row client now st pair tf cfg f raw :
  TIMEFRAMES !! tf = Some cfg ->
  resample_rule cfg = None ->
  cache_dir st !! _cache_path (altname pair) tf = Some f ->
  List.NoDup (map time (content f)) ->
  _is_cache_fresh st now (_cache_path (altname pair) tf) (cache_ttl cfg) = false ->
  client (altname pair) (interval_minutes cfg)
    (since_cursor cfg now (Some (content f))) = Ok raw ->
  exists df st',
    fetch_ohlc client now st pair tf false = Ok (df, st') /\
    content <$> cache_dir st' !! _cache_path (altname pair) tf = Some df /\
    (raw = [] -> df = sort_values (content f)) /\
    (content f <> [] -> forall c, In c (content f) -> In c df) /\
    (content f <> [] -> (length (content f) <= length df)%nat).
Proof.
  intros Hcfg Hrule Hf Hnd Hfresh Hraw.
  assert (Hbase : base_frame st (_cache_path (altname pair) tf) false = Some (content f)).
  { unfold base_frame. rewrite Hf. reflexivity. }
  pose proof (fetch_ohlc_pull client now st pair tf false cfg raw Hcfg) as H.
  rewrite Hbase in H. specialize (H Hfresh Hraw). cbv zeta in H.
  unfold apply_resample in H. rewrite Hrule in H.
  eexists. eexists. split; [exact H|].
  split; [rewrite persist_lookup; reflexivity|].
  assert (Hkeep : content f <> [] -> forall c, In c (content f) ->
            In c (merge_cache (Some (content f)) (sort_values raw))).
  { intros Hne c Hc. unfold merge_cache.
    apply empty_false_iff in Hne. rewrite Hne. cbn [negb].
    apply (proj2 (proj2 (merge_rows_spec (content f) (sort_values raw)))).
    apply find_app_left, find_time_nodup; assumption. }
  split; [|split].
  - intros ->. unfold merge_cache. destruct (empty (content f)) eqn:E; cbn [negb].
    + destruct (content f); [reflexivity|discriminate].
    + cbn [sort_values]. rewrite app_nil_r.
      rewrite (drop_duplicates_nodup_id _ Hnd). reflexivity.
  - exact Hkeep.
  - intros Hne. apply NoDup_incl_length; [apply nodup_times_rows, Hnd|].
    intros c Hc. apply Hkeep; assumption.
Qed.

Lemma fetch_merge_keeps_every_cached_row_witness :
  exists df st',
    fetch_ohlc (Samples.fixed_client [Samples.candle_at (Samples.day10 + 86400) 2 7])
      (Samples.hours_us 48) (Samples.daily_cache (Samples.candle_at Samples.day10 1 5))
      Samples.xbt "daily" false = Ok (df, st') /\
    In (Samples.candle_at Samples.day10 1 5) df /\ (1 <= length df)%nat.
Proof.
  destruct (fetch_merge_keeps_every_cached_row
              (Samples.fixed_client [Samples.candle_at (Samples.day10 + 86400) 2 7])
              (Samples.hours_us 48)
              (Samples.daily_cache (Samples.candle_at Samples.day10 1 5))
              Samples.xbt "daily" (mkTimeframeConfig 1440 None 6 None)
              (mkCacheFile 0 [Samples.candle_at Samples.day10 1 5])
              [Samples.candle_at (Samples.day10 + 86400) 2 7])
    as (df & st' & Hf & _ & _ & Hin & Hlen).
  - reflexivity.
  - reflexivity.
  - reflexivity.
  - repeat constructor. intros [].
  - reflexivity.
  - reflexivity.
  - exists df, st'. split; [exact Hf|]. split.
    + apply Hin; [discriminate|left; reflexivity].
    + apply Hlen. discriminate.
Defined.

Lemma fetch_twice_no_resample_witness :
  exists df1 st1 df2 st2,
    fetch_ohlc (Samples.fixed_client [Samples.candle_at Samples.jan15 1 10])
      Samples.jan15_clock Samples.no_store Samples.xbt "daily" false = Ok (df1, st1) /\
    fetch_ohlc (Samples.fixed_client [Samples.candle_at Samples.jan15 1 10])
      (Samples.jan15_clock + Samples.hours_us 25) st1 Samples.xbt "daily" false
      = Ok (df2, st2) /\
    df2 = df1.
Proof.
  destruct (fetch_twice_no_resample
              (Samples.fixed_client [Samples.candle_at Samples.jan15 1 10])
              Samples.jan15_clock (Samples.jan15_clock + Samples.hours_us 25)
              Samples.no_store Samples.xbt "daily" false
              (mkTimeframeConfig 1440 None 6 None)
              [Samples.candle_at Samples.jan15 1 10])
    as (df1 & st1 & df2 & st2 & H1 & H2 & E & _).
  - reflexivity.
  - reflexivity.
  - intros since. reflexivity.
  - repeat constructor. intros [].
  - reflexivity.
  - exists df1, st1, df2, st2. split; [exact H1|]. split; [exact H2|exact E].
Defined.

(** Sums over frames. *)




Lemma Qsum_fold l : forall a, (fold_left Qplus l a == a + Qsum l)%Q.
Proof.
  unfold Qsum. induction l as [|x l IH]; intros a; cbn [fold_left]; [ring|].
  rewrite (IH (a + x)%Q), (IH (0 + x)%Q). ring.
Qed.

Lemma Qsum_cons x l : (Qsum (x :: l) == x + Qsum l)%Q.
Proof. unfold Qsum at 1. simpl. rewrite Qsum_fold. ring. Qed.








(** ** More on variant A: ranges, errors, where peaks can be *)

Lemma fold_Qmax_ge l : forall a, (a <= fold_left Qmax l a)%Q.
Proof.
  induction l as [|x l IH]; intros a; simpl; [apply Qle_refl|].
  eapply Qle_trans; [apply Q.le_max_l|apply IH].
Qed.

Lemma spec_max_break_nonneg hs : (0 <= spec_max_break hs)%Q.
Proof. apply fold_Qmax_ge. Qed.

Lemma filter_length_le {A} (p : A -> bool) l :
  (length (List.filter p l) <= length l)%nat.
Proof. induction l as [|x l IH]; simpl; [lia|]. destruct (p x); simpl; lia. Qed.

Lemma filter_length_split {A} (p : A -> bool) l :
  (length (List.filter p l) + length (List.filter (fun x => negb (p x)) l))%nat = length l.
Proof. induction l as [|x l IH]; simpl; [lia|]. destruct (p x); simpl; lia. Qed.

(** Every step either descends or is a violation. *)
Lemma steps_partition hs :
  spec_descending_steps hs + spec_violations hs = Z.of_nat (length hs - 1) /\
  0 <= spec_descending_steps hs /\ 0 <= spec_violations hs.
Proof.
  unfold spec_descending_steps, spec_violations.
  pose proof (filter_length_split descends (adjacent_pairs hs)) as H.
  rewrite adjacent_pairs_length in H. lia.
Qed.

Lemma inject_Z_ratio_le_1 a b : 0 <= a <= b -> 0 < b ->
  (0 <= inject_Z a / inject_Z b <= 1)%Q.
Proof.
  intros [Ha Hab] Hb.
  assert (Hbq : (0 < inject_Z b)%Q) by (unfold Qlt; simpl; lia).
  split.
  - apply Qle_shift_div_l; [exact Hbq|]. rewrite Qmult_0_l.
    unfold Qle; simpl; lia.
  - apply Qle_shift_div_r; [exact Hbq|]. rewrite Qmult_1_l.
    unfold Qle; simpl; lia.
Qed.

(** The score before the slope test lies in [0, 1]. *)
Lemma raw_score_range base mb :
  (0 <= base <= 1)%Q -> (0 <= mb)%Q ->
  (0 <= Qmax (base - Qmin (mb * (1 # 2)) (1 # 2)) 0 <= 1)%Q.
Proof.
  intros [Hb0 Hb1] Hmb. split; [apply Q.le_max_r|].
  assert (Hp : (0 <= Qmin (mb * (1 # 2)) (1 # 2))%Q).
  { apply Q.min_glb; [|discriminate].
    apply Qmult_le_0_compat; [exact Hmb|discriminate]. }
  apply Q.max_lub; [|discriminate].
  apply Qle_trans with base; [|exact Hb1].
  apply Qle_minus_iff.
  setoid_replace (base + - (base - Qmin (mb * (1 # 2)) (1 # 2)))%Q
    with (Qmin (mb * (1 # 2)) (1 # 2)) using relation Qeq by ring.
  exact Hp.
Qed.

(** Whatever variant A returns keeps the ranges its result type
    promises: the score lies in [0, 1], the violation count and the
    largest break are not negative, violations never exceed the number of
    steps, a reason is given exactly when the pattern does not pass, and a
    passing result has a score of at least one half, at least three peaks
    and at least [min_peaks] of them. *)
Theorem detect_lower_highs_scored_ranges df min_peaks order r :
  detect_lower_highs_scored df min_peaks order = Ok r ->
  (0 <= score r <= 1)%Q /\
  0 <= violations r <= Z.of_nat (length (peaks r)) /\
  (0 <= max_break_pct r)%Q /\
  (reason r = None <-> passed r = true) /\
  (passed r = true ->
     ((1 # 2) <= score r)%Q /\ (3 <= length (peaks r))%nat /\
     min_peaks <= Z.of_nat (length (peaks r))).
Proof.
  unfold detect_lower_highs_scored.
  destruct (empty df).
  { intros [= <-]. cbn. repeat split; try discriminate; try lia. }
  destruct (Z.of_nat (length df) <? Z.max (min_peaks * order) 5).
  { intros [= <-]. cbn. repeat split; try discriminate; try lia. }
  destruct (argrelextrema (map high df) order) as [idx|e];
    cbn [mbind result_bind]; [|discriminate].
  destruct (Z.of_nat (length (iloc_rows df idx)) <? min_peaks) eqn:Emin.
  { intros [= <-]. cbn. repeat split; try discriminate; try lia. }
  apply Z.ltb_ge in Emin.
  set (hs := map high (iloc_rows df idx)).
  unfold polyfit_slope. destruct (length hs <? 2)%nat eqn:Etwo;
    cbn [mbind result_bind]; [discriminate|].
  apply Nat.ltb_ge in Etwo.
  rewrite count_steps_spec. cbn [descending_steps step_violations step_max_break].
  assert (Elen : length hs = length (iloc_rows df idx)) by apply length_map.
  assert (Epos : (0 <? Z.of_nat (length hs) - 1) = true) by (apply Z.ltb_lt; lia).
  rewrite Epos.
  destruct (steps_partition hs) as (Hsum & Hd0 & Hv0).
  assert (Hbase : (0 <= inject_Z (spec_descending_steps hs)
                        / inject_Z (Z.of_nat (length hs) - 1) <= 1)%Q).
  { apply inject_Z_ratio_le_1; lia. }
  pose proof (raw_score_range _ _ Hbase (spec_max_break_nonneg hs)) as [Hr0 Hr1].
  set (raw := Qmax (inject_Z (spec_descending_steps hs)
                    / inject_Z (Z.of_nat (length hs) - 1)
                    - Qmin (spec_max_break hs * (1 # 2)) (1 # 2)) 0) in *.
  intros [= <-]. cbn [score violations peaks max_break_pct reason passed].
  assert (Hscore : (0 <= (if Qle_bool 0 (lstsq_slope hs) then raw * (1 # 2) else raw) <= 1)%Q).
  { destruct (Qle_bool 0 (lstsq_slope hs)); [|split; assumption].
    split.
    - apply Qmult_le_0_compat; [exact Hr0|discriminate].
    - apply Qle_trans with (1 * (1 # 2))%Q; [|discriminate].
      apply Qmult_le_compat_r; [exact Hr1|discriminate]. }
  split; [exact Hscore|]. split; [lia|]. split; [apply spec_max_break_nonneg|].
  split.
  - destruct (Qle_bool (1 # 2) _ && (2 <=? spec_descending_steps hs));
      split; congruence.
  - intros Hp. apply andb_true_iff in Hp. destruct Hp as [Hhalf Htwo].
    apply Qle_bool_iff in Hhalf. apply Z.leb_le in Htwo.
    split; [exact Hhalf|]. split; lia.
Qed.

Lemma detect_lower_highs_scored_ranges_witness :
  exists r,
    detect_lower_highs_scored
      (DetectorSamples.with_highs [1; 2; 5; 2; 1; 1; 2; 6; 2; 1; 1; 2; 3; 2; 1]%Q) 3 2 = Ok r /\
    (0 <= score r <= 1)%Q /\ violations r = 1.
Proof.
  eexists. split; [vm_compute; reflexivity|].
  split; [|reflexivity].
  refine (proj1 (detect_lower_highs_scored_ranges
            (DetectorSamples.with_highs [1; 2; 5; 2; 1; 1; 2; 6; 2; 1; 1; 2; 3; 2; 1]%Q)
            3 2 _ _)).
  vm_compute. reflexivity.
Defined.

(** Variant A reports instead of raising: with a window of at least one
    candle on each side and at least two peaks required, every frame gets
    a result.  A window below one is rejected with [ValueError] once the
    frame is long enough to be searched. *)
Theorem detect_lower_highs_scored_total df min_peaks order :
  (1 <= order -> 2 <= min_peaks ->
   exists r, detect_lower_highs_scored df min_peaks order = Ok r) /\
  (order < 1 -> df <> [] -> Z.max (min_peaks * order) 5 <= Z.of_nat (length df) ->
   detect_lower_highs_scored df min_peaks order = Raise ValueError).
Proof.
  split.
  - intros Hord Hmin. unfold detect_lower_highs_scored.
    destruct (empty df); [eexists; reflexivity|].
    destruct (Z.of_nat (length df) <? Z.max (min_peaks * order) 5);
      [eexists; reflexivity|].
    unfold argrelextrema. apply Z.ltb_ge in Hord. rewrite Hord.
    cbn [mbind result_bind].
    destruct (Z.of_nat (length (iloc_rows df _)) <? min_peaks) eqn:E;
      [eexists; reflexivity|].
    apply Z.ltb_ge in E. unfold polyfit_slope.
    assert (E2 : (length (map high (iloc_rows df
                    (relmax_positions (map high df) (Z.to_nat order)))) <? 2)%nat = false).
    { apply Nat.ltb_ge. rewrite length_map. lia. }
    rewrite E2. cbn [mbind result_bind]. eexists. reflexivity.
  - intros Hord Hne Hlen. unfold detect_lower_highs_scored.
    apply empty_false_iff in Hne. rewrite Hne.
    apply Z.ltb_ge in Hlen. rewrite Hlen.
    unfold argrelextrema. apply Z.ltb_lt in Hord. rewrite Hord. reflexivity.
Qed.

Lemma detect_lower_highs_scored_total_witness :
  (exists r, detect_lower_highs_scored DetectorSamples.two_peaks 4 2 = Ok r) /\
  detect_lower_highs_scored DetectorSamples.two_peaks 3 0 = Raise ValueError.
Proof.
  split.
  - apply (proj1 (detect_lower_highs_scored_total DetectorSamples.two_peaks 4 2)); lia.
  - apply (proj2 (detect_lower_highs_scored_total DetectorSamples.two_peaks 3 0)).
    + lia.
    + discriminate.
    + vm_compute. discriminate.
Defined.

Lemma Qltb_irrefl a : Qltb a a = false.
Proof.
  destruct (Qltb a a) eqn:E; [|reflexivity].
  apply Qltb_lt in E. exfalso. exact (Qlt_irrefl _ E).
Qed.

Lemma take_clip_inside data i :
  (i < length data)%nat -> take_clip data (Z.of_nat i) = nth i data 0%Q.
Proof.
  intros H. unfold take_clip. f_equal. lia.
Qed.

Lemma take_clip_below data : take_clip data (-1) = take_clip data 0.
Proof. unfold take_clip. f_equal. lia. Qed.

Lemma take_clip_above data :
  take_clip data (Z.of_nat (length data)) = take_clip data (Z.of_nat (length data) - 1).
Proof. unfold take_clip. f_equal. lia. Qed.

(** A reported position is an interior one whose value strictly exceeds
    both direct neighbours. *)
Lemma relmax_positions_interior data order i :
  (1 <= order)%nat ->
  In i (relmax_positions data order) ->
  (0 < i)%nat /\ (S i < length data)%nat /\
  (nth (i - 1) data 0 < nth i data 0)%Q /\
  (nth (S i) data 0 < nth i data 0)%Q.
Proof.
  intros Hord Hin. unfold relmax_positions in Hin.
  apply List.filter_In in Hin. destruct Hin as [Hseq Hmax].
  apply in_seq in Hseq. destruct Hseq as [_ Hlt]. simpl in Hlt.
  unfold is_relmax in Hmax.
  destruct order as [|k]; [lia|].
  change (seq 1 (S k)) with (1%nat :: seq 2 k) in Hmax.
  cbn [forallb] in Hmax. apply andb_true_iff in Hmax. destruct Hmax as [H1 _].
  apply andb_true_iff in H1. destruct H1 as [Hplus Hminus].
  change (Z.of_nat 1) with 1 in *.
  destruct i as [|j].
  - exfalso. change (Z.of_nat 0 - 1) with (-1) in Hminus.
    rewrite take_clip_below in Hminus. change (Z.of_nat 0) with 0 in Hminus.
    rewrite Qltb_irrefl in Hminus. discriminate.
  - destruct (Nat.eq_dec (S (S j)) (length data)) as [E|Hne].
    + exfalso. replace (Z.of_nat (S j) + 1) with (Z.of_nat (length data)) in Hplus by lia.
      rewrite take_clip_above in Hplus.
      replace (Z.of_nat (length data) - 1) with (Z.of_nat (S j)) in Hplus by lia.
      rewrite Qltb_irrefl in Hplus. discriminate.
    + assert (Hin2 : (S (S j) < length data)%nat) by lia.
      split; [lia|]. split; [exact Hin2|].
      replace (Z.of_nat (S j) + 1) with (Z.of_nat (S (S j))) in Hplus by lia.
      replace (Z.of_nat (S j) - 1) with (Z.of_nat j) in Hminus by lia.
      rewrite !take_clip_inside in Hplus, Hminus by lia.
      apply Qltb_lt in Hplus. apply Qltb_lt in Hminus.
      replace (S j - 1)%nat with j by lia. split; assumption.
Qed.

Lemma iloc_rows_In df idx c :
  In c (iloc_rows df idx) <-> exists i, In i idx /\ nth_error df i = Some c.
Proof.
  unfold iloc_rows. rewrite in_flat_map. split.
  - intros (i & Hi & Hc). exists i. split; [exact Hi|].
    destruct (nth_error df i) as [d|]; [|destruct Hc].
    destruct Hc as [->|[]]. reflexivity.
  - intros (i & Hi & Hc). exists i. split; [exact Hi|]. rewrite Hc. left. reflexivity.
Qed.

Lemma nth_high (df : DataFrame) : forall i c,
  nth_error df i = Some c -> nth i (map high df) 0%Q = high c.
Proof.
  induction df as [|d rest IH]; intros [|i] c H; simpl in *; try discriminate.
  - congruence.
  - apply IH, H.
Qed.

(** The peaks of a result are rows of the frame, never its first or its
    last candle, each with a high strictly above the highs of the candle
    just before and the candle just after. *)
Theorem peaks_are_interior_local_maxima df min_peaks order r :
  detect_lower_highs_scored df min_peaks order = Ok r ->
  forall c, In c (peaks r) ->
    exists i before after,
      (0 < i)%nat /\ (S i < length df)%nat /\
      nth_error df i = Some c /\
      nth_error df (i - 1) = Some before /\
      nth_error df (S i) = Some after /\
      (high before < high c)%Q /\ (high after < high c)%Q.
Proof.
  unfold detect_lower_highs_scored.
  destruct (empty df); [intros [= <-] c []|].
  destruct (Z.of_nat (length df) <? Z.max (min_peaks * order) 5);
    [intros [= <-] c []|].
  unfold argrelextrema. destruct (order <? 1) eqn:Eord;
    cbn [mbind result_bind]; [discriminate|].
  apply Z.ltb_ge in Eord.
  set (idx := relmax_positions (map high df) (Z.to_nat order)).
  assert (Hpeak : forall c, In c (iloc_rows df idx) ->
            exists i before after,
              (0 < i)%nat /\ (S i < length df)%nat /\
              nth_error df i = Some c /\
              nth_error df (i - 1) = Some before /\
              nth_error df (S i) = Some after /\
              (high before < high c)%Q /\ (high after < high c)%Q).
  { intros c Hc. apply iloc_rows_In in Hc. destruct Hc as (i & Hi & Hc).
    destruct (relmax_positions_interior (map high df) (Z.to_nat order) i) as
      (H0 & HS & Hb & Ha); [lia|exact Hi|].
    rewrite length_map in HS.
    destruct (nth_error df (i - 1)) as [b|] eqn:Eb;
      [|apply nth_error_None in Eb; lia].
    destruct (nth_error df (S i)) as [a|] eqn:Ea;
      [|apply nth_error_None in Ea; lia].
    exists i, b, a.
    rewrite (nth_high df i c Hc) in Hb, Ha.
    rewrite (nth_high df (i - 1) b Eb) in Hb.
    rewrite (nth_high df (S i) a Ea) in Ha.
    repeat split; assumption. }
  destruct (Z.of_nat (length (iloc_rows df idx)) <? min_peaks);
    [intros [= <-]; exact Hpeak|].
  destruct (polyfit_slope _) as [m|e]; cbn [mbind result_bind]; [|discriminate].
  intros [= <-]. exact Hpeak.
Qed.

Lemma peaks_are_interior_local_maxima_witness :
  exists r i,
    detect_lower_highs_scored DetectorSamples.two_peaks 2 1 = Ok r /\
    (0 < i)%nat /\ (S i < 5)%nat /\
    nth_error DetectorSamples.two_peaks i = Some (mkCandle 86400 1 5 1 1 1 1 1).
Proof.
  assert (H : detect_lower_highs_scored DetectorSamples.two_peaks 2 1 =
              Ok (mkPatternResult false (-1) 
                    [mkCandle 86400 1 5 1 1 1 1 1; mkCandle 259200 1 4 1 1 1 1 1]
                    (2 # 2) 0 0 (Some "weak descent")))
    by (vm_compute; reflexivity).
  destruct (peaks_are_interior_local_maxima _ _ _ _ H (mkCandle 86400 1 5 1 1 1 1 1))
    as (i & b & a & H0 & HS & Hi & _).
  - left. reflexivity.
  - eexists. exists i. split; [exact H|]. split; [exact H0|]. split; [exact HS|exact Hi].
Defined.

(** A series whose highs only fall, or only rise, has no peak at all:
    once it is long enough to be searched, variant A rejects it with
    "not enough peaks", however steep the descent. *)
Theorem monotone_highs_have_no_peaks df min_peaks order :
  1 <= order -> 1 <= min_peaks ->
  df <> [] -> Z.max (min_peaks * order) 5 <= Z.of_nat (length df) ->
  highs_non_increasing df \/ highs_non_decreasing df ->
  detect_lower_highs_scored df min_peaks order =
  Ok (mkPatternResult false 0 [] 0 0 0 (Some "not enough peaks")).
Proof.
  intros Hord Hmin Hne Hlen Hmono.
  assert (Hnone : relmax_positions (map high df) (Z.to_nat order) = []).
  { destruct (relmax_positions (map high df) (Z.to_nat order)) as [|i rest] eqn:E;
      [reflexivity|].
    exfalso.
    destruct (relmax_positions_interior (map high df) (Z.to_nat order) i)
      as (H0 & HS & Hb & Ha); [lia|rewrite E; left; reflexivity|].
    rewrite length_map in HS.
    destruct Hmono as [Hdown|Hup].
    - specialize (Hdown (i - 1)%nat). replace (S (i - 1)) with i in Hdown by lia.
      specialize (Hdown ltac:(lia)). exact (Qlt_not_le _ _ Hb Hdown).
    - specialize (Hup i HS). exact (Qlt_not_le _ _ Ha Hup). }
  unfold detect_lower_highs_scored.
  apply empty_false_iff in Hne. rewrite Hne.
  apply Z.ltb_ge in Hlen. rewrite Hlen.
  unfold argrelextrema. apply Z.ltb_ge in Hord. rewrite Hord.
  cbn [mbind result_bind]. rewrite Hnone. cbn [iloc_rows flat_map length].
  assert (E : (Z.of_nat 0 <? min_peaks) = true) by (apply Z.ltb_lt; lia).
  rewrite E. reflexivity.
Qed.

Lemma monotone_highs_have_no_peaks_witness :
  detect_lower_highs_scored (DetectorSamples.with_highs [9; 8; 7; 6; 5; 4]%Q) 3 2 =
  Ok (mkPatternResult false 0 [] 0 0 0 (Some "not enough peaks")).
Proof.
  apply monotone_highs_have_no_peaks.
  - lia.
  - lia.
  - discriminate.
  - vm_compute. discriminate.
  - left. intros i Hi.
    change (length (DetectorSamples.with_highs [9; 8; 7; 6; 5; 4]%Q)) with 6%nat in Hi.
    do 5 (destruct i as [|i]; [vm_compute; discriminate|]). lia.
Defined.

(** ** More on variant B: result shape, fail-closed, errors *)

Lemma _slope_returns y :
  _slope y = Ok (if (length y <? 2)%nat then 0%Q else lstsq_slope y).
Proof.
  unfold _slope, polyfit_slope. destruct (length y <? 2)%nat; reflexivity.
Qed.

Lemma fail_result_shape window why :
  let r := fail_result window why in
  score r = float_of_bool (passed r) /\
  (reason r = None <-> passed r = true) /\
  max_break_pct r = 0%Q /\ passed r = false.
Proof. cbn. repeat split; discriminate. Qed.

Lemma rule_result_shape p m window why dflt :
  let r := rule_result p m window why dflt in
  score r = float_of_bool (passed r) /\
  (reason r = None <-> passed r = true) /\
  max_break_pct r = 0%Q /\ passed r = p.
Proof. destruct p; cbn; repeat split; congruence. Qed.

(** What every result of variant B looks like. *)
Lemma detect_descending_rules_shape inds now df tf pair r :
  detect_descending_rules inds now df tf pair = Ok r ->
  score r = float_of_bool (passed r) /\
  (reason r = None <-> passed r = true) /\
  max_break_pct r = 0%Q.
Proof.
  unfold detect_descending_rules.
  destruct (empty df); [intros [= <-]; cbn; repeat split; discriminate|].
  destruct (String.eqb tf "monthly").
  { destruct (length df <? PAT2_MONTHS_LOOKBACK)%nat;
      [intros [= <-]; cbn; repeat split; discriminate|].
    destruct (_ema_desc _ _ _ _ _) as [ep why]. rewrite _slope_returns.
    cbn [mbind result_bind]. intros [= <-].
    match goal with |- context [rule_result ?p ?m ?w ?y ?d] =>
      destruct (rule_result_shape p m w y d) as (A & B & C & _) end.
    repeat split; try assumption; apply B. }
  destruct (String.eqb tf "daily").
  { cbv zeta.
    destruct (empty (rows_since _ df)); [intros [= <-]; cbn; repeat split; discriminate|].
    destruct (empty (rows_before _ _) || empty (rows_since _ (rows_since _ df)));
      [intros [= <-]; cbn; repeat split; discriminate|].
    destruct (daily_ema_check _) as [[ep why]|e]; cbn [mbind result_bind]; [|discriminate].
    rewrite _slope_returns. cbn [mbind result_bind]. intros [= <-].
    match goal with |- context [rule_result ?p ?m ?w ?y ?d] =>
      destruct (rule_result_shape p m w y d) as (A & B & C & _) end.
    repeat split; try assumption; apply B. }
  destruct (String.eqb tf "4h"); [|intros [= <-]; cbn; repeat split; discriminate].
  cbv zeta.
  destruct (empty (rows_since _ df)); [intros [= <-]; cbn; repeat split; discriminate|].
  destruct (length (rows_since _ df) <=? PAT2_4H_RECENT_BARS)%nat;
    [intros [= <-]; cbn; repeat split; discriminate|].
  destruct (empty (firstn _ _)); [intros [= <-]; cbn; repeat split; discriminate|].
  destruct (h4_ema_check _ _) as [ep why].
  rewrite _slope_returns. cbn [mbind result_bind]. intros [= <-].
  match goal with |- context [rule_result ?p ?m ?w ?y ?d] =>
    destruct (rule_result_shape p m w y d) as (A & B & C & _) end.
  repeat split; try assumption; apply B.
Qed.

(** The score of variant B is binary: whatever it returns has score 1
    when it passed and 0 otherwise, no break magnitude, and a reason
    exactly when it did not pass. *)
Theorem detect_descending_rules_binary inds now df tf pair r :
  detect_descending_rules inds now df tf pair = Ok r ->
  score r = float_of_bool (passed r) /\
  (reason r = None <-> passed r = true) /\
  max_break_pct r = 0%Q /\
  (score r == 0 \/ score r == 1)%Q.
Proof.
  intros H.
  destruct (detect_descending_rules_shape inds now df tf pair r H) as (A & B & C).
  split; [exact A|]. split; [exact B|]. split; [exact C|].
  rewrite A. destruct (passed r); [right|left]; reflexivity.
Qed.

Lemma detect_descending_rules_binary_witness :
  exists r,
    detect_descending_rules ClockSamples.indicators ClockSamples.clock1
      ClockSamples.candles "daily" "XBTUSD" = Ok r /\
    score r = 1%Q /\ passed r = true.
Proof.
  eexists. split; [vm_compute; reflexivity|].
  split; [|reflexivity].
  refine (proj1 (detect_descending_rules_binary ClockSamples.indicators
            ClockSamples.clock1 ClockSamples.candles "daily" "XBTUSD" _ _)).
  vm_compute. reflexivity.
Defined.

(** Fail closed: without an indicator file for the pair and timeframe,
    variant B returns a result, never an error, and the result never
    passes, on every timeframe, frame and clock reading. *)
Theorem no_indicator_file_never_passes inds now df tf pair :
  _load_indicators inds pair tf = None ->
  exists r, detect_descending_rules inds now df tf pair = Ok r /\ passed r = false.
Proof.
  intros Hload. unfold detect_descending_rules. rewrite Hload.
  destruct (empty df); [eexists; split; reflexivity|].
  destruct (String.eqb tf "monthly").
  { destruct (length df <? PAT2_MONTHS_LOOKBACK)%nat; [eexists; split; reflexivity|].
    cbn [_ema_desc]. rewrite _slope_returns. cbn [mbind result_bind].
    eexists. split; [reflexivity|]. cbn. apply andb_false_r. }
  destruct (String.eqb tf "daily").
  { cbv zeta.
    destruct (empty (rows_since _ df)); [eexists; split; reflexivity|].
    destruct (empty (rows_before _ _) || empty (rows_since _ (rows_since _ df)));
      [eexists; split; reflexivity|].
    cbn [daily_ema_check mbind result_bind]. rewrite _slope_returns.
    cbn [mbind result_bind]. eexists. split; [reflexivity|]. cbn. apply andb_false_r. }
  destruct (String.eqb tf "4h"); [|eexists; split; reflexivity].
  cbv zeta.
  destruct (empty (rows_since _ df)); [eexists; split; reflexivity|].
  destruct (length (rows_since _ df) <=? PAT2_4H_RECENT_BARS)%nat;
    [eexists; split; reflexivity|].
  destruct (empty (firstn _ _)); [eexists; split; reflexivity|].
  cbn [h4_ema_check]. rewrite _slope_returns. cbn [mbind result_bind].
  eexists. split; [reflexivity|]. cbn. apply andb_false_r.
Qed.

Lemma no_indicator_file_never_passes_witness :
  exists r,
    detect_descending_rules ∅ ClockSamples.clock1 ClockSamples.candles "daily" "XBTUSD"
      = Ok r /\ passed r = false.
Proof.
  apply (no_indicator_file_never_passes ∅ ClockSamples.clock1 ClockSamples.candles
           "daily" "XBTUSD").
  reflexivity.
Defined.

(** A timeframe other than monthly, daily and 4h is rejected with the
    reason "unsupported tf" on every frame that has rows. *)
Theorem unsupported_timeframe_fails inds now df tf pair :
  df <> [] -> tf <> "monthly" -> tf <> "daily" -> tf <> "4h" ->
  detect_descending_rules inds now df tf pair = Ok (fail_result [] "unsupported tf").
Proof.
  intros Hne Hm Hd H4. unfold detect_descending_rules.
  apply empty_false_iff in Hne. rewrite Hne.
  apply String.eqb_neq in Hm, Hd, H4. rewrite Hm, Hd, H4. reflexivity.
Qed.

Lemma unsupported_timeframe_fails_witness :
  detect_descending_rules ClockSamples.indicators ClockSamples.clock1
    ClockSamples.candles "weekly" "XBTUSD" = Ok (fail_result [] "unsupported tf").
Proof.
  apply unsupported_timeframe_fails; discriminate.
Defined.

(** The one error of variant B.  On the daily timeframe, when the frame
    has candles on both sides of the 7-day cut inside the 30-day window
    and the indicator file carries [ema_50] but no [ema_200] column, the
    detector raises [KeyError] instead of returning a result; and this is
    the only way it fails to return. *)
Theorem daily_missing_ema_200_raises inds now df tf pair :
  (forall frame,
     tf = "daily" ->
     _load_indicators inds pair tf = Some frame ->
     has_column frame "ema_50" = true ->
     has_column frame "ema_200" = false ->
     let window := rows_since (now - days_us PAT2_DAILY_LOOKBACK_DAYS) df in
     rows_since (now - days_us PAT2_DAILY_RECENT_DAYS) window <> [] ->
     rows_before (now - days_us PAT2_DAILY_RECENT_DAYS) window <> [] ->
     detect_descending_rules inds now df tf pair = Raise KeyError) /\
  (forall e,
     detect_descending_rules inds now df tf pair = Raise e ->
     e = KeyError /\ tf = "daily" /\
     exists frame,
       _load_indicators inds pair tf = Some frame /\
       has_column frame "ema_50" = true /\ has_column frame "ema_200" = false).
Proof.
  split.
  - intros frame -> Hload H50 H200 window Hrecent Hbase.
    unfold detect_descending_rules.
    assert (Hdf : empty df = false).
    { destruct df; [|reflexivity]. exfalso. apply Hrecent. reflexivity. }
    rewrite Hdf. change (String.eqb "daily" "monthly") with false.
    change (String.eqb "daily" "daily") with true. cbv iota zeta.
    fold window.
    assert (Hw : empty window = false).
    { destruct window; [|reflexivity]. exfalso. apply Hrecent. reflexivity. }
    rewrite Hw. apply empty_false_iff in Hrecent, Hbase.
    rewrite Hrecent, Hbase. cbn [orb].
    rewrite Hload. unfold daily_ema_check, dropna_column. rewrite H50, H200.
    cbn [andb].
    destruct (50 <? _)%nat; [destruct (_ema_desc _ _ _ _ _)|]; reflexivity.
  - intros e. unfold detect_descending_rules.
    destruct (empty df); [discriminate|].
    destruct (String.eqb tf "monthly").
    { destruct (length df <? PAT2_MONTHS_LOOKBACK)%nat; [discriminate|].
      destruct (_ema_desc _ _ _ _ _). rewrite _slope_returns. discriminate. }
    destruct (String.eqb tf "daily") eqn:Ed.
    { apply String.eqb_eq in Ed. subst tf. cbv zeta.
      destruct (empty (rows_since _ df)); [discriminate|].
      destruct (empty (rows_before _ _) || empty (rows_since _ (rows_since _ df)));
        [discriminate|].
      destruct (_load_indicators inds pair "daily") as [frame|];
        [|cbn [daily_ema_check mbind result_bind]; rewrite _slope_returns; discriminate].
      unfold daily_ema_check, dropna_column.
      destruct (has_column frame "ema_50") eqn:H50;
        [|cbn [mbind result_bind]; rewrite _slope_returns; discriminate].
      destruct (has_column frame "ema_200") eqn:H200.
      - cbn [andb].
        destruct (if (50 <? _)%nat then _ else _) as [p50 r50].
        destruct (if (200 <? _)%nat then _ else _) as [p200 r200].
        cbn [mbind result_bind].
        destruct (200 <? _)%nat; cbn [mbind result_bind];
          rewrite _slope_returns; discriminate.
      - cbn [andb].
        destruct (if (50 <? _)%nat then _ else _) as [p50 r50].
        cbn [mbind result_bind]. intros [= <-].
        split; [reflexivity|]. split; [reflexivity|].
        exists frame. repeat split; assumption. }
    destruct (String.eqb tf "4h"); [|discriminate].
    cbv zeta.
    destruct (empty (rows_since _ df)); [discriminate|].
    destruct (length (rows_since _ df) <=? PAT2_4H_RECENT_BARS)%nat; [discriminate|].
    destruct (empty (firstn _ _)); [discriminate|].
    destruct (h4_ema_check _ _). rewrite _slope_returns. discriminate.
Qed.

Lemma daily_missing_ema_200_raises_witness :
  detect_descending_rules ExtraSamples.indicators_without_ema_200 ClockSamples.clock1
    ClockSamples.candles "daily" "XBTUSD" = Raise KeyError.
Proof.
  apply (proj1 (daily_missing_ema_200_raises ExtraSamples.indicators_without_ema_200
                  ClockSamples.clock1 ClockSamples.candles "daily" "XBTUSD")
           ExtraSamples.only_ema_50).
  - reflexivity.
  - reflexivity.
  - reflexivity.
  - reflexivity.
  - vm_compute. discriminate.
  - vm_compute. discriminate.
Defined.




Lemma rows_since_idem c df : rows_since c (rows_since c df) = rows_since c df.
Proof.
  unfold rows_since. induction df as [|d rest IH]; [reflexivity|].
  simpl. destruct (since_us c (time d)) eqn:E; simpl; [rewrite E, IH|]; auto.
Qed.

(** History older than the lookback is ignored: on the daily and the 4h
    timeframe, as long as some candle falls inside the lookback window,
    dropping every candle before it changes nothing in the result. *)
Theorem old_rows_do_not_matter inds now df pair :
  (rows_since (now - days_us PAT2_DAILY_LOOKBACK_DAYS) df <> [] ->
   detect_descending_rules inds now df "daily" pair =
   detect_descending_rules inds now
     (rows_since (now - days_us PAT2_DAILY_LOOKBACK_DAYS) df) "daily" pair) /\
  (rows_since (now - days_us PAT2_4H_LOOKBACK_DAYS) df <> [] ->
   detect_descending_rules inds now df "4h" pair =
   detect_descending_rules inds now
     (rows_since (now - days_us PAT2_4H_LOOKBACK_DAYS) df) "4h" pair).
Proof.
  split; intros Hw.
  - assert (Hdf : empty df = false).
    { destruct df; [|reflexivity]. exfalso. apply Hw. reflexivity. }
    apply empty_false_iff in Hw.
    unfold detect_descending_rules. rewrite Hdf, Hw.
    change (String.eqb "daily" "monthly") with false.
    change (String.eqb "daily" "daily") with true. cbv iota zeta.
    rewrite rows_since_idem, Hw. reflexivity.
  - assert (Hdf : empty df = false).
    { destruct df; [|reflexivity]. exfalso. apply Hw. reflexivity. }
    apply empty_false_iff in Hw.
    unfold detect_descending_rules. rewrite Hdf, Hw.
    change (String.eqb "4h" "monthly") with false.
    change (String.eqb "4h" "daily") with false.
    change (String.eqb "4h" "4h") with true. cbv iota zeta.
    rewrite rows_since_idem, Hw. reflexivity.
Qed.

Lemma old_rows_do_not_matter_witness :
  detect_descending_rules ClockSamples.indicators ClockSamples.clock2
    ClockSamples.candles "daily" "XBTUSD" =
  detect_descending_rules ClockSamples.indicators ClockSamples.clock2
    (rows_since (ClockSamples.clock2 - days_us PAT2_DAILY_LOOKBACK_DAYS)
       ClockSamples.candles) "daily" "XBTUSD".
Proof.
  apply (proj1 (old_rows_do_not_matter ClockSamples.indicators ClockSamples.clock2
                  ClockSamples.candles "XBTUSD")).
  vm_compute. discriminate.
Defined.

(** ** More on the volume profile *)

Lemma fold_Qmin_le l : forall a, (fold_left Qmin l a <= a)%Q.
Proof.
  induction l as [|x l IH]; intros a; simpl; [apply Qle_refl|].
  eapply Qle_trans; [apply IH|apply Q.le_min_l].
Qed.

Lemma fold_Qmin_lower l : forall a x, In x l -> (fold_left Qmin l a <= x)%Q.
Proof.
  induction l as [|y l IH]; intros a x Hin; [destruct Hin|].
  simpl. destruct Hin as [->|Hin].
  - eapply Qle_trans; [apply fold_Qmin_le|apply Q.le_min_r].
  - apply IH, Hin.
Qed.

Lemma fold_Qmax_upper l : forall a x, In x l -> (x <= fold_left Qmax l a)%Q.
Proof.
  induction l as [|y l IH]; intros a x Hin; [destruct Hin|].
  simpl. destruct Hin as [->|Hin].
  - eapply Qle_trans; [apply Q.le_max_r|apply fold_Qmax_ge].
  - apply IH, Hin.
Qed.

(** Inside a proper range every value gets a bin among the [n] bins. *)
Lemma bin_index_range first last n x :
  (first < last)%Q -> (first <= x <= last)%Q -> (0 < n)%nat ->
  0 <= bin_index first last n x < Z.of_nat n.
Proof.
  intros Hfl [Hlo Hhi] Hn. unfold bin_index.
  set (q := ((x - first) * inject_Z (Z.of_nat n) / (last - first))%Q).
  assert (Hw : (0 < last - first)%Q).
  { apply (Qplus_lt_l _ _ first). ring_simplify. exact Hfl. }
  assert (Hn0 : (0 <= inject_Z (Z.of_nat n))%Q) by (unfold Qle; simpl; lia).
  assert (Hq0 : (0 <= q)%Q).
  { unfold q. apply Qle_shift_div_l; [exact Hw|]. rewrite Qmult_0_l.
    apply Qmult_le_0_compat; [|exact Hn0].
    apply (Qplus_le_l _ _ first). ring_simplify. exact Hlo. }
  assert (Hqn : (q <= inject_Z (Z.of_nat n))%Q).
  { unfold q. apply Qle_shift_div_r; [exact Hw|].
    rewrite (Qmult_comm (inject_Z (Z.of_nat n))).
    apply Qmult_le_compat_r; [|exact Hn0].
    apply (Qplus_le_l _ _ first). ring_simplify. exact Hhi. }
  assert (Hf0 : 0 <= Qfloor q).
  { change 0 with (Qfloor 0). apply Qfloor_resp_le. exact Hq0. }
  assert (Hfn : Qfloor q <= Z.of_nat n).
  { rewrite <- (Qfloor_Z (Z.of_nat n)). apply Qfloor_resp_le. exact Hqn. }
  destruct (Qfloor q =? Z.of_nat n) eqn:E.
  - apply Z.eqb_eq in E. lia.
  - apply Z.eqb_neq in E. lia.
Qed.

(** Summing, bin by bin, the weights that fall in the bin gives the sum
    of all weights when every index is one of the bins. *)
Lemma Qsum_pick (bs : list nat) (i : nat) (v : Q) (f : nat -> Q) :
  List.NoDup bs -> In i bs ->
  (Qsum (map (fun b => if (Z.of_nat i =? Z.of_nat b) then v + f b else f b) bs)
   == v + Qsum (map f bs))%Q.
Proof.
  induction bs as [|b bs IH]; intros Hnd Hin; [destruct Hin|].
  apply List.NoDup_cons_iff in Hnd. destruct Hnd as [Hni Hnd].
  cbn [map]. rewrite !Qsum_cons.
  destruct (Nat.eq_dec i b) as [->|Hne].
  - rewrite Z.eqb_refl.
    assert (E : map (fun b0 => if Z.of_nat b =? Z.of_nat b0 then (v + f b0)%Q else f b0) bs
                = map f bs).
    { apply map_ext_in. intros c Hc.
      destruct (Z.of_nat b =? Z.of_nat c) eqn:Ebc; [|reflexivity].
      apply Z.eqb_eq in Ebc. apply Nat2Z.inj in Ebc. subst c. contradiction. }
    rewrite E. ring.
  - assert (Ez : (Z.of_nat i =? Z.of_nat b) = false) by (apply Z.eqb_neq; lia).
    rewrite Ez. destruct Hin as [E|Hin]; [congruence|].
    rewrite (IH Hnd Hin). ring.
Qed.

Lemma Qsum_ext_eq {A} (f g : A -> Q) l :
  (forall x, In x l -> (f x == g x)%Q) -> (Qsum (map f l) == Qsum (map g l))%Q.
Proof.
  induction l as [|x l IH]; intros H; [reflexivity|].
  cbn [map]. rewrite !Qsum_cons, IH, (H x).
  - reflexivity.
  - left. reflexivity.
  - intros y Hy. apply H. right. exact Hy.
Qed.

Lemma histogram_sum (idx : Q -> Z) (n : nat) (pvs : list (Q * Q)) :
  (forall pv, In pv pvs -> 0 <= idx (fst pv) < Z.of_nat n) ->
  (Qsum (map (fun b : nat =>
                Qred (Qsum (map snd (List.filter
                                       (fun pv : Q * Q => idx (fst pv) =? Z.of_nat b) pvs))))
             (seq 0 n))
   == Qsum (map snd pvs))%Q.
Proof.
  induction pvs as [|[p v] rest IH]; intros Hidx.
  - cbn [List.filter map]. clear Hidx.
    induction (seq 0 n) as [|b bs IHb]; [reflexivity|].
    cbn [map]. rewrite Qsum_cons, IHb. reflexivity.
  - cbn [map snd]. rewrite Qsum_cons, <- IH
      by (intros pv Hpv; apply Hidx; right; exact Hpv).
    destruct (Hidx (p, v) (or_introl eq_refl)) as [Hi0 Hin]. cbn [fst] in Hi0, Hin.
    rewrite <- (Qsum_pick (seq 0 n) (Z.to_nat (idx p)) v
                  (fun b => Qred (Qsum (map snd (List.filter
                     (fun pv : Q * Q => idx (fst pv) =? Z.of_nat b) rest))))).
    + apply Qsum_ext_eq. intros b _. cbn [List.filter fst].
      rewrite Z2Nat.id by lia.
      destruct (idx p =? Z.of_nat b); [|reflexivity].
      cbn [map snd]. rewrite !Qred_correct, Qsum_cons. reflexivity.
    + apply seq_NoDup.
    + apply in_seq. lia.
Qed.

Lemma combine_map_snd {A} (f g : A -> Q) (l : list A) :
  map snd (combine (map f l) (map g l)) = map g l.
Proof. induction l as [|x l IH]; simpl; congruence. Qed.

Lemma combine_map_In {A} (f g : A -> Q) (l : list A) pv :
  In pv (combine (map f l) (map g l)) -> In (fst pv) (map f l).
Proof. destruct pv. apply in_combine_l. Qed.

(** [np_histogram] on the closes and volumes of a frame: it returns for
    every positive bin count, with one count per bin, one more edge than
    bins, and counts that add up to the total volume. *)
Lemma np_histogram_spec (df : DataFrame) bins :
  df <> [] -> 1 <= bins ->
  exists hist first last,
    np_histogram (map close df) (map volume df) bins =
      Ok (hist, linspace first last (Z.to_nat bins)) /\
    (first < last)%Q /\
    length hist = Z.to_nat bins /\
    length (linspace first last (Z.to_nat bins)) = S (Z.to_nat bins) /\
    (Qsum hist == Qsum (map volume df))%Q.
Proof.
  intros Hne Hbins. unfold np_histogram.
  apply Z.ltb_ge in Hbins. rewrite Hbins. apply Z.ltb_ge in Hbins.
  destruct df as [|c rest]; [congruence|].
  cbn [map].
  set (lo := Qminimum (close c) (map close rest)).
  set (hi := Qmaximum (close c) (map close rest)).
  assert (Hlohi : forall x, In x (close c :: map close rest) -> (lo <= x <= hi)%Q).
  { intros x [<-|Hx]; split.
    - apply fold_Qmin_le.
    - apply fold_Qmax_ge.
    - apply fold_Qmin_lower, Hx.
    - apply fold_Qmax_upper, Hx. }
  assert (Hle : (lo <= hi)%Q).
  { destruct (Hlohi (close c) (or_introl eq_refl)) as [A B].
    eapply Qle_trans; eassumption. }
  set (range := if Qeq_bool lo hi then ((lo - (1 # 2))%Q, (hi + (1 # 2))%Q) else (lo, hi)).
  assert (Hrange : (fst range < snd range)%Q /\
                   forall x, In x (close c :: map close rest) ->
                             (fst range <= x <= snd range)%Q).
  { unfold range. destruct (Qeq_bool lo hi) eqn:E; cbn [fst snd].
    - split.
      + apply Qle_lt_trans with lo.
        * apply (Qplus_le_l _ _ (1 # 2)). ring_simplify.
          apply (Qplus_le_l _ _ (- lo)). ring_simplify. discriminate.
        * apply Qle_lt_trans with hi; [exact Hle|].
          apply (Qplus_lt_l _ _ (- hi)). ring_simplify. reflexivity.
      + intros x Hx. destruct (Hlohi x Hx) as [A B]. split.
        * eapply Qle_trans; [|exact A].
          apply (Qplus_le_l _ _ (1 # 2)). ring_simplify.
          apply (Qplus_le_l _ _ (- lo)). ring_simplify. discriminate.
        * eapply Qle_trans; [exact B|].
          apply (Qplus_le_l _ _ (- hi)). ring_simplify. discriminate.
    - split; [|exact Hlohi].
      apply Qle_lteq in Hle. destruct Hle as [Hlt|Heq]; [exact Hlt|].
      apply Qeq_bool_iff in Heq. congruence. }
  destruct range as [first last]. cbn [fst snd] in Hrange.
  destruct Hrange as [Hfl Hin].
  eexists. exists first, last. split; [reflexivity|].
  split; [exact Hfl|].
  split; [rewrite length_map, length_seq; reflexivity|].
  split; [unfold linspace; rewrite length_map, length_seq; reflexivity|].
  change (close c :: map close rest) with (map close (c :: rest)) in *.
  change (volume c :: map volume rest) with (map volume (c :: rest)).
  rewrite (histogram_sum (bin_index first last (Z.to_nat bins)) (Z.to_nat bins)).
  - rewrite combine_map_snd. reflexivity.
  - intros pv Hpv.
    apply bin_index_range; [exact Hfl| |lia].
    apply Hin. apply (combine_map_In close volume). exact Hpv.
Qed.

(** [argmax] finds the first position of the largest entry. *)
Lemma argmax_from_spec (L : list Q) : forall l i best_i,
  skipn i L = l -> (best_i < i)%nat -> (i <= length L)%nat ->
  (forall j, (j < i)%nat -> (nth j L 0 <= nth best_i L 0)%Q) ->
  (forall j, (j < best_i)%nat -> (nth j L 0 < nth best_i L 0)%Q) ->
  let r := argmax_from best_i (nth best_i L 0%Q) i l in
  (r < length L)%nat /\
  (forall j, (j < length L)%nat -> (nth j L 0 <= nth r L 0)%Q) /\
  (forall j, (j < r)%nat -> (nth j L 0 < nth r L 0)%Q).
Proof.
  induction l as [|x rest IH]; intros i best_i Hskip Hbi Hi Hall Hfirst.
  - cbn. assert (i = length L).
    { apply (f_equal (@length _)) in Hskip. rewrite length_skipn in Hskip.
      simpl in Hskip. lia. }
    subst i. split; [lia|]. split; assumption.
  - assert (Hlen : (i < length L)%nat).
    { apply (f_equal (@length _)) in Hskip. rewrite length_skipn in Hskip.
      simpl in Hskip. lia. }
    assert (Hx : nth i L 0%Q = x).
    { rewrite <- (firstn_skipn i L) at 1. rewrite app_nth2; rewrite length_firstn;
        [|lia]. replace (i - Nat.min i (length L))%nat with 0%nat by lia.
      rewrite Hskip. reflexivity. }
    assert (Hrest : skipn (S i) L = rest).
    { replace (S i) with (1 + i)%nat by lia. rewrite <- skipn_skipn, Hskip. reflexivity. }
    cbn [argmax_from]. destruct (Qltb (nth best_i L 0%Q) x) eqn:E.
    + rewrite <- Hx. apply Qltb_lt in E. rewrite <- Hx in E.
      apply IH; [exact Hrest|lia|lia| |].
      * intros j Hj. destruct (Nat.eq_dec j i) as [->|Hne]; [apply Qle_refl|].
        apply Qle_trans with (nth best_i L 0%Q); [apply Hall; lia|].
        apply Qlt_le_weak, E.
      * intros j Hj. apply Qle_lt_trans with (nth best_i L 0%Q); [apply Hall; lia|exact E].
    + apply IH; [exact Hrest|lia|lia| |exact Hfirst].
      intros j Hj. destruct (Nat.eq_dec j i) as [->|Hne]; [|apply Hall; lia].
      rewrite Hx. destruct (Qlt_le_dec (nth best_i L 0%Q) x) as [Hlt|Hle]; [|exact Hle].
      apply Qltb_lt in Hlt. congruence.
Qed.

Lemma argmax_spec (L : list Q) :
  L <> [] ->
  (argmax L < length L)%nat /\
  (forall j, (j < length L)%nat -> (nth j L 0 <= nth (argmax L) L 0)%Q) /\
  (forall j, (j < argmax L)%nat -> (nth j L 0 < nth (argmax L) L 0)%Q).
Proof.
  destruct L as [|x rest]; [congruence|]. intros _.
  unfold argmax.
  apply (argmax_from_spec (x :: rest) rest 1 0); [reflexivity|lia|simpl; lia| |].
  - intros j Hj. replace j with 0%nat by lia. apply Qle_refl.
  - intros j Hj. lia.
Qed.

Lemma linspace_nth first last n i :
  (i <= n)%nat ->
  (nth i (linspace first last n) 0
   == first + (last - first) * inject_Z (Z.of_nat i) / inject_Z (Z.of_nat n))%Q.
Proof.
  intros Hi. unfold linspace.
  set (f := fun i : nat =>
      Qred (first + (last - first) * inject_Z (Z.of_nat i) / inject_Z (Z.of_nat n))%Q).
  rewrite (nth_indep _ 0%Q (f 0%nat)) by (rewrite length_map, length_seq; lia).
  rewrite map_nth, seq_nth by lia. unfold f. rewrite Qred_correct. reflexivity.
Qed.

(** The edges rise with their position. *)
Lemma linspace_monotone first last n i j :
  (first <= last)%Q -> (i <= j)%nat -> (j <= n)%nat -> (0 < n)%nat ->
  (nth i (linspace first last n) 0 <= nth j (linspace first last n) 0)%Q.
Proof.
  intros Hfl Hij Hjn Hn. rewrite !linspace_nth by lia.
  assert (Hnq : (0 < inject_Z (Z.of_nat n))%Q) by (unfold Qlt; simpl; lia).
  apply Qplus_le_r. unfold Qdiv.
  apply Qmult_le_compat_r; [|apply Qlt_le_weak, Qinv_lt_0_compat, Hnq].
  rewrite !(Qmult_comm (last - first)).
  apply Qmult_le_compat_r.
  - unfold Qle; simpl; lia.
  - apply (Qplus_le_l _ _ first). ring_simplify. exact Hfl.
Qed.

(** The loop only ever adds positions of the histogram, and keeps what
    was included. *)
Lemma value_area_loop_bounds hist total target : forall fuel included left right accum,
  left < Z.of_nat (length hist) -> 0 <= right ->
  let out := value_area_loop fuel hist total target included left right accum in
  (forall x, In x included -> In x out) /\
  (forall x, In x out -> In x included \/ 0 <= x < Z.of_nat (length hist)).
Proof.
  induction fuel as [|fuel IH]; intros included left right accum Hl Hr; cbn [value_area_loop].
  - split; auto.
  - cbv zeta.
    destruct (Qltb (accum / total) target
              && ((0 <=? left) || (right <? Z.of_nat (length hist)))); [|split; auto].
    destruct (Qle_bool _ _ && (right <? Z.of_nat (length hist))) eqn:Eright.
    + apply andb_true_iff in Eright. destruct Eright as [_ Hlt]. apply Z.ltb_lt in Hlt.
      assert (Hr' : 0 <= right + 1) by lia.
      pose proof (IH (right :: included) left (right + 1)
                  (accum + nth (Z.to_nat right) hist 0%Q)%Q Hl Hr') as H.
      cbv zeta in H. destruct H as [A B].
      split.
      * intros x Hx. apply A. right. exact Hx.
      * intros x Hx. destruct (B x Hx) as [[E|Hin]|Hb];
          [right; lia|left; exact Hin|right; exact Hb].
    + destruct (0 <=? left) eqn:Eleft; [|split; auto].
      apply Z.leb_le in Eleft.
      assert (Hl' : left - 1 < Z.of_nat (length hist)) by lia.
      pose proof (IH (left :: included) (left - 1) right
                  (accum + nth (Z.to_nat left) hist 0%Q)%Q Hl' Hr) as H.
      cbv zeta in H. destruct H as [A B].
      split.
      * intros x Hx. apply A. right. exact Hx.
      * intros x Hx. destruct (B x Hx) as [[E|Hin]|Hb];
          [right; lia|left; exact Hin|right; exact Hb].
Qed.

(** Termination of the loop: once the fuel exceeds the number of bins
    still outside [left, right], more fuel changes nothing. *)
Lemma value_area_loop_fuel hist total target : forall fuel fuel' included left right accum,
  -1 <= left -> right <= Z.of_nat (length hist) ->
  (left + 1) + (Z.of_nat (length hist) - right) < Z.of_nat fuel ->
  (left + 1) + (Z.of_nat (length hist) - right) < Z.of_nat fuel' ->
  value_area_loop fuel hist total target included left right accum =
  value_area_loop fuel' hist total target included left right accum.
Proof.
  induction fuel as [|fuel IH]; intros fuel' included left right accum Hl Hr Hf Hf'; [lia|].
  destruct fuel' as [|fuel']; [lia|].
  cbn [value_area_loop]. cbv zeta.
  destruct (Qltb (accum / total) target
            && ((0 <=? left) || (right <? Z.of_nat (length hist)))); [|reflexivity].
  destruct (Qle_bool _ _ && (right <? Z.of_nat (length hist))) eqn:Eright.
  - apply andb_true_iff in Eright. destruct Eright as [_ Hlt]. apply Z.ltb_lt in Hlt.
    apply IH; lia.
  - destruct (0 <=? left) eqn:Eleft; [|reflexivity].
    apply Z.leb_le in Eleft. apply IH; lia.
Qed.

Lemma fold_Zmin_bounds l : forall a lo,
  lo <= a -> (forall x, In x l -> lo <= x) ->
  lo <= fold_left Z.min l a <= a.
Proof.
  induction l as [|x l IH]; intros a lo Ha Hl; simpl; [lia|].
  destruct (IH (Z.min a x) lo) as [A B].
  - specialize (Hl x (or_introl eq_refl)). lia.
  - intros y Hy. apply Hl. right. exact Hy.
  - lia.
Qed.

Lemma fold_Zmax_bounds l : forall a hi,
  a <= hi -> (forall x, In x l -> x <= hi) ->
  a <= fold_left Z.max l a <= hi.
Proof.
  induction l as [|x l IH]; intros a hi Ha Hl; simpl; [lia|].
  destruct (IH (Z.max a x) hi) as [A B].
  - specialize (Hl x (or_introl eq_refl)). lia.
  - intros y Hy. apply Hl. right. exact Hy.
  - lia.
Qed.

(** The bounds returned by [_value_area_bounds] are the edges of two
    positions around the point of control. *)
Lemma _value_area_bounds_spec hist edges poc_idx target :
  (poc_idx < length hist)%nat ->
  exists lower upper : nat,
    (lower <= poc_idx)%nat /\ (poc_idx <= upper)%nat /\ (upper < length hist)%nat /\
    _value_area_bounds hist edges poc_idx target =
    (nth (S upper) edges 0%Q, nth lower edges 0%Q).
Proof.
  intros Hp. unfold _value_area_bounds.
  set (p := Z.of_nat poc_idx).
  set (out := value_area_loop _ _ _ _ _ _ _ _).
  assert (Hl0 : p - 1 < Z.of_nat (length hist)) by (unfold p; lia).
  assert (Hr0 : 0 <= p + 1) by (unfold p; lia).
  pose proof (value_area_loop_bounds hist (Qsum hist) target (length hist) [p] (p - 1) (p + 1)
              (nth poc_idx hist 0%Q) Hl0 Hr0) as Hbb.
  cbv zeta in Hbb. destruct Hbb as [_ Hb]. fold out in Hb.
  assert (Hin : forall x, In x out -> 0 <= x < Z.of_nat (length hist)).
  { intros x Hx. destruct (Hb x Hx) as [[<-|[]]|H]; [unfold p; lia|exact H]. }
  assert (Hp0 : 0 <= p) by (unfold p; lia).
  assert (Hp1 : p <= Z.of_nat (length hist) - 1) by (unfold p; lia).
  destruct (fold_Zmin_bounds out p 0 Hp0 (fun x Hx => proj1 (Hin x Hx))) as [L1 L2].
  assert (Hin' : forall x, In x out -> x <= Z.of_nat (length hist) - 1).
  { intros x Hx. pose proof (Hin x Hx). lia. }
  destruct (fold_Zmax_bounds out p (Z.of_nat (length hist) - 1) Hp1 Hin') as [U1 U2].
  exists (Z.to_nat (fold_left Z.min out p)), (Z.to_nat (fold_left Z.max out p)).
  split; [unfold p in *; lia|]. split; [unfold p in *; lia|]. split; [lia|].
  f_equal. f_equal. lia.
Qed.

Lemma linspace_strict first last n i j :
  (first < last)%Q -> (i < j)%nat -> (j <= n)%nat ->
  (nth i (linspace first last n) 0 < nth j (linspace first last n) 0)%Q.
Proof.
  intros Hfl Hij Hjn. rewrite !linspace_nth by lia.
  assert (Hnq : (0 < inject_Z (Z.of_nat n))%Q) by (unfold Qlt; simpl; lia).
  apply Qplus_lt_r. unfold Qdiv.
  apply Qmult_lt_compat_r; [apply Qinv_lt_0_compat, Hnq|].
  rewrite !(Qmult_comm (last - first)).
  apply Qmult_lt_compat_r.
  - apply (Qplus_lt_l _ _ first). ring_simplify. exact Hfl.
  - unfold Qlt; simpl; lia.
Qed.

(** What a defined profile is made of. *)
Lemma compute_volume_profile_inv df bins target vp p :
  compute_volume_profile df bins target = Ok vp ->
  poc vp = Num p ->
  exists hist first last,
    let n := Z.to_nat bins in
    let edges := linspace first last n in
    1 <= bins /\ (first < last)%Q /\ length hist = n /\
    (Qsum hist == Qsum (map volume df))%Q /\
    ~ (Qsum (map volume df) == 0)%Q /\
    vp = mkVolumeProfileResult
           (Num (_bin_midpoint edges (argmax hist)))
           (Num (fst (_value_area_bounds hist edges (argmax hist) target)))
           (Num (snd (_value_area_bounds hist edges (argmax hist) target)))
           edges hist.
Proof.
  unfold compute_volume_profile.
  destruct (empty df) eqn:Edf; cbn [orb]; [intros [= <-]; discriminate|].
  destruct (Qeq_bool (Qsum (map volume df)) 0) eqn:Etot; [intros [= <-]; discriminate|].
  destruct (Z_lt_le_dec bins 1) as [Hlt|Hge].
  { unfold np_histogram. apply Z.ltb_lt in Hlt. rewrite Hlt. discriminate. }
  apply empty_false_iff in Edf.
  destruct (np_histogram_spec df bins Edf Hge) as (hist & first & last & Hh & Hfl & Hlen & _ & Hsum).
  rewrite Hh. cbn [mbind result_bind].
  destruct (Qeq_bool (Qsum hist) 0); [intros [= <-]; discriminate|].
  destruct (_value_area_bounds hist _ (argmax hist) target) as [h l] eqn:Ev.
  intros [= <-] _. exists hist, first, last. cbv zeta.
  split; [exact Hge|]. split; [exact Hfl|]. split; [exact Hlen|].
  split; [exact Hsum|]. split.
  - intros H. apply Qeq_bool_iff in H. congruence.
  - rewrite Ev. reflexivity.
Qed.

(** The profile is undefined exactly when nothing was traded.  For any
    positive bin count the computation returns; its point of control is
    NaN if and only if the volumes add up to zero (the empty frame
    included), and otherwise the histogram has one count per bin, one
    more edge than bins, and counts that add up to the total volume.  A
    bin count below one is an error as soon as there is volume. *)
Theorem volume_profile_defined_iff_volume df bins target :
  (1 <= bins ->
   exists vp,
     compute_volume_profile df bins target = Ok vp /\
     (poc vp = NaN <-> (Qsum (map volume df) == 0)%Q) /\
     (poc vp = NaN -> vah vp = NaN /\ val vp = NaN /\ histogram vp = []) /\
     (poc vp <> NaN ->
        length (histogram vp) = Z.to_nat bins /\
        length (bin_edges vp) = S (Z.to_nat bins) /\
        (Qsum (histogram vp) == Qsum (map volume df))%Q)) /\
  (bins < 1 -> ~ (Qsum (map volume df) == 0)%Q ->
   compute_volume_profile df bins target = Raise ValueError).
Proof.
  split.
  - intros Hbins. unfold compute_volume_profile.
    destruct (empty df) eqn:Edf; cbn [orb].
    { destruct df; [|discriminate]. eexists. split; [reflexivity|]. cbn.
      repeat split; try reflexivity; congruence. }
    destruct (Qeq_bool (Qsum (map volume df)) 0) eqn:Etot.
    { eexists. split; [reflexivity|]. cbn. apply Qeq_bool_iff in Etot.
      repeat split; try reflexivity; try congruence; try (intros _; exact Etot). }
    apply empty_false_iff in Edf.
    destruct (np_histogram_spec df bins Edf Hbins)
      as (hist & first & last & Hh & Hfl & Hlen & Hel & Hsum).
    rewrite Hh. cbn [mbind result_bind].
    assert (Hnz : ~ (Qsum (map volume df) == 0)%Q).
    { intros H. apply Qeq_bool_iff in H. congruence. }
    assert (Ehist : Qeq_bool (Qsum hist) 0 = false).
    { destruct (Qeq_bool (Qsum hist) 0) eqn:E; [|reflexivity].
      apply Qeq_bool_iff in E. exfalso. apply Hnz. rewrite <- Hsum. exact E. }
    rewrite Ehist.
    destruct (_value_area_bounds hist _ (argmax hist) target) as [h l].
    eexists. split; [reflexivity|]. cbn [poc vah val histogram bin_edges].
    split; [split; [discriminate|intros H; contradiction]|].
    split; [discriminate|]. intros _. repeat split; assumption.
  - intros Hbins Hnz. unfold compute_volume_profile.
    destruct (empty df) eqn:Edf; cbn [orb].
    { destruct df; [|discriminate]. exfalso. apply Hnz. reflexivity. }
    destruct (Qeq_bool (Qsum (map volume df)) 0) eqn:Etot.
    { apply Qeq_bool_iff in Etot. contradiction. }
    unfold np_histogram. apply Z.ltb_lt in Hbins. rewrite Hbins. reflexivity.
Qed.

Lemma volume_profile_defined_iff_volume_witness :
  exists vp,
    compute_volume_profile
      (DetectorSamples.priced [(1, 5); (2, 10); (3, 2); (4, 1)]%Q) 4 (7 # 10) = Ok vp /\
    histogram vp = [5; 10; 2; 1]%Q /\
    (Qsum (histogram vp) == 18)%Q.
Proof.
  destruct (proj1 (volume_profile_defined_iff_volume
                     (DetectorSamples.priced [(1, 5); (2, 10); (3, 2); (4, 1)]%Q) 4 (7 # 10)))
    as (vp & Hvp & _ & _ & Hsum).
  - lia.
  - exists vp. split; [exact Hvp|].
    assert (E : vp = mkVolumeProfileResult (Num (17 # 8)) (Num (5 # 2)) (Num 1)
                       [1; 7 # 4; 5 # 2; 13 # 4; 4]%Q [5; 10; 2; 1]%Q).
    { assert (H : compute_volume_profile
                    (DetectorSamples.priced [(1, 5); (2, 10); (3, 2); (4, 1)]%Q) 4 (7 # 10)
                  = Ok (mkVolumeProfileResult (Num (17 # 8)) (Num (5 # 2)) (Num 1)
                          [1; 7 # 4; 5 # 2; 13 # 4; 4]%Q [5; 10; 2; 1]%Q))
        by (vm_compute; reflexivity).
      congruence. }
    split; [rewrite E; reflexivity|].
    destruct Hsum as (_ & _ & Hs); [rewrite E; discriminate|].
    rewrite Hs. reflexivity.
Defined.

(** The point of control is the middle of the fullest bin: of the first
    bin whose count no other bin exceeds. *)
Theorem point_of_control_is_fullest_bin df bins target vp p :
  compute_volume_profile df bins target = Ok vp ->
  poc vp = Num p ->
  exists i,
    (i < length (histogram vp))%nat /\
    (p == (nth i (bin_edges vp) 0 + nth (S i) (bin_edges vp) 0) / 2)%Q /\
    (forall j, (j < length (histogram vp))%nat ->
               (nth j (histogram vp) 0 <= nth i (histogram vp) 0)%Q) /\
    (forall j, (j < i)%nat -> (nth j (histogram vp) 0 < nth i (histogram vp) 0)%Q).
Proof.
  intros Hvp Hp.
  destruct (compute_volume_profile_inv df bins target vp p Hvp Hp)
    as (hist & first & last & Hb & Hfl & Hlen & _ & _ & ->).
  cbn [poc histogram bin_edges] in *.
  assert (Hne : hist <> []) by (destruct hist; [simpl in Hlen; lia|discriminate]).
  destruct (argmax_spec hist Hne) as (Hi & Hmax & Hfirst).
  exists (argmax hist). split; [exact Hi|]. split; [|split; assumption].
  injection Hp as <-. unfold _bin_midpoint. apply Qred_correct.
Qed.

Lemma point_of_control_is_fullest_bin_witness :
  exists i,
    (i < 4)%nat /\
    (forall j, (j < 4)%nat -> (nth j [5; 10; 2; 1] 0 <= nth i [5; 10; 2; 1] 0)%Q).
Proof.
  destruct (point_of_control_is_fullest_bin
              (DetectorSamples.priced [(1, 5); (2, 10); (3, 2); (4, 1)]%Q) 4 (7 # 10)
              (mkVolumeProfileResult (Num (17 # 8)) (Num (5 # 2)) (Num 1)
                 [1; 7 # 4; 5 # 2; 13 # 4; 4]%Q [5; 10; 2; 1]%Q) (17 # 8))
    as (i & Hi & _ & Hmax & _).
  - vm_compute. reflexivity.
  - reflexivity.
  - exists i. split; [exact Hi|exact Hmax].
Defined.

(** The value area surrounds the point of control: the lower bound lies
    strictly below it and the upper bound strictly above, and both are
    edges of the histogram. *)
Theorem value_area_contains_point_of_control df bins target vp p :
  compute_volume_profile df bins target = Ok vp ->
  poc vp = Num p ->
  exists h l,
    vah vp = Num h /\ val vp = Num l /\
    (l < p)%Q /\ (p < h)%Q /\
    In h (bin_edges vp) /\ In l (bin_edges vp).
Proof.
  intros Hvp Hp.
  destruct (compute_volume_profile_inv df bins target vp p Hvp Hp)
    as (hist & first & last & Hb & Hfl & Hlen & _ & _ & ->).
  cbn [poc vah val bin_edges] in *. injection Hp as <-.
  set (n := Z.to_nat bins) in *. set (edges := linspace first last n) in *.
  assert (Hne : hist <> []) by (destruct hist; [simpl in Hlen; lia|discriminate]).
  destruct (argmax_spec hist Hne) as (Hi & _ & _).
  destruct (_value_area_bounds_spec hist edges (argmax hist) target Hi)
    as (lower & upper & Hlo & Hup & Hul & ->).
  cbn [fst snd]. eexists. eexists. split; [reflexivity|]. split; [reflexivity|].
  set (i := argmax hist) in *.
  assert (Hmid : (nth i edges 0 < _bin_midpoint edges i < nth (S i) edges 0)%Q).
  { unfold _bin_midpoint. rewrite Qred_correct.
    pose proof (linspace_strict first last n i (S i) Hfl ltac:(lia) ltac:(lia)) as Hs.
    fold edges in Hs.
    set (a := nth i edges 0%Q) in *. set (b := nth (S i) edges 0%Q) in *.
    assert (E : ((a + b) / 2 == (1 # 2) * a + (1 # 2) * b)%Q) by field.
    rewrite E. split; lra. }
  destruct Hmid as [Hm1 Hm2].
  assert (Hlow : (nth lower edges 0 <= nth i edges 0)%Q).
  { apply linspace_monotone; [apply Qlt_le_weak, Hfl|lia|lia|lia]. }
  assert (Hupp : (nth (S i) edges 0 <= nth (S upper) edges 0)%Q).
  { apply linspace_monotone; [apply Qlt_le_weak, Hfl|lia|lia|lia]. }
  assert (Hel : length edges = S n).
  { unfold edges, linspace. rewrite length_map, length_seq. reflexivity. }
  split; [eapply Qle_lt_trans; eassumption|].
  split; [eapply Qlt_le_trans; eassumption|].
  split; apply nth_In; lia.
Qed.

Lemma value_area_contains_point_of_control_witness :
  exists h l, ((l < 17 # 8)%Q /\ (17 # 8 < h)%Q) /\ In h [1; 7 # 4; 5 # 2; 13 # 4; 4]%Q.
Proof.
  destruct (value_area_contains_point_of_control
              (DetectorSamples.priced [(1, 5); (2, 10); (3, 2); (4, 1)]%Q) 4 (7 # 10)
              (mkVolumeProfileResult (Num (17 # 8)) (Num (5 # 2)) (Num 1)
                 [1; 7 # 4; 5 # 2; 13 # 4; 4]%Q [5; 10; 2; 1]%Q) (17 # 8))
    as (h & l & _ & _ & Hl & Hh & Hin & _).
  - vm_compute. reflexivity.
  - reflexivity.
  - exists h, l. split; [split; assumption|exact Hin].
Defined.

(** The search for the value area ends by itself: it adds one bin per
    round and stops when both sides are used up, so the bound of
    [len(hist)] rounds is never reached and a larger bound gives the same
    bounds. *)
Theorem value_area_search_terminates hist total target poc_idx extra :
  (poc_idx < length hist)%nat ->
  value_area_loop (length hist + extra) hist total target
    [Z.of_nat poc_idx] (Z.of_nat poc_idx - 1) (Z.of_nat poc_idx + 1)
    (nth poc_idx hist 0%Q) =
  value_area_loop (length hist) hist total target
    [Z.of_nat poc_idx] (Z.of_nat poc_idx - 1) (Z.of_nat poc_idx + 1)
    (nth poc_idx hist 0%Q).
Proof.
  intros Hp. apply value_area_loop_fuel; lia.
Qed.

Lemma value_area_search_terminates_witness :
  value_area_loop (4 + 10) [5; 10; 2; 1]%Q 18 (7 # 10) [1] 0 2 10 =
  value_area_loop 4 [5; 10; 2; 1]%Q 18 (7 # 10) [1] 0 2 10.
Proof.
  apply (value_area_search_terminates [5; 10; 2; 1]%Q 18 (7 # 10) 1 10).
  simpl. lia.
Defined.

(** ** More on the scores and on analyze_pair *)

Lemma clip_unit x : (0 <= clip x 0 1 <= 1)%Q.
Proof.
  unfold clip. split.
  - apply Q.min_glb; [apply Q.le_max_r|discriminate].
  - apply Q.le_min_r.
Qed.

Lemma volume_decline_score_unit df : (0 <= volume_decline_score df <= 1)%Q.
Proof.
  unfold volume_decline_score.
  destruct (length df <? 10)%nat; [split; discriminate|].
  destruct (Qle_bool _ 0); [split; discriminate|apply clip_unit].
Qed.

Lemma poc_distance_score_unit df vp q :
  poc_distance_score df vp = Ok q -> (0 <= q <= 1)%Q.
Proof.
  unfold poc_distance_score. destruct df as [|c rest]; [discriminate|].
  destruct (poc vp); [intros [= <-]; split; discriminate|].
  destruct (Qeq_bool _ 0); intros [= <-]; [split; discriminate|apply clip_unit].
Qed.

(** The two auxiliary scores stay in [0, 1], as their docstrings say:
    the volume-decline score on every frame (it is 0 below ten candles),
    and the point-of-control score whenever it returns. *)
Theorem component_scores_in_unit_interval df :
  (0 <= volume_decline_score df <= 1)%Q /\
  ((length df < 10)%nat -> volume_decline_score df = 0%Q) /\
  (forall vp q, poc_distance_score df vp = Ok q -> (0 <= q <= 1)%Q).
Proof.
  split; [apply volume_decline_score_unit|]. split.
  - intros H. unfold volume_decline_score.
    apply Nat.ltb_lt in H. rewrite H. reflexivity.
  - intros vp q. apply poc_distance_score_unit.
Qed.

Lemma component_scores_in_unit_interval_witness :
  volume_decline_score ClockSamples.candles = 0%Q /\
  (0 <= 59 # 60 <= 1)%Q.
Proof.
  destruct (component_scores_in_unit_interval ClockSamples.candles) as (_ & Hz & Hp).
  split.
  - apply Hz. simpl. lia.
  - apply (Hp (mkVolumeProfileResult (Num (61 # 60)) NaN NaN [] [])).
    vm_compute. reflexivity.
Defined.

Lemma aggregate_fold l : forall a,
  (fold_left
     (fun (acc : Q) (tf : TimeframeOutcome) =>
        acc + default 0 (TIMEFRAME_WEIGHTS !! name tf)
              * ((6 # 10) * score (pattern tf)
                 + (25 # 100) * volume_decline_score_of tf
                 + (15 # 100) * poc_distance_score_of tf)) l a
   == a + Qsum (map (fun o => weight_of (name o) * composite o) l))%Q.
Proof.
  induction l as [|o l IH]; intros a; cbn [fold_left map].
  - unfold Qsum. simpl. ring.
  - rewrite IH, Qsum_cons. unfold weight_of, composite. ring.
Qed.

(** The aggregate is the weighted sum of the composites. *)
Lemma aggregate_score_sum l b :
  (aggregate_score l b == Qsum (map (fun o => weight_of (name o) * composite o) l))%Q.
Proof.
  unfold aggregate_score. cbv zeta.
  destruct b; [unfold SOL_BONUS|]; rewrite aggregate_fold; ring.
Qed.

Lemma weight_of_cases tf :
  (tf = "monthly" /\ weight_of tf = (4 # 10)%Q) \/
  (tf = "daily" /\ weight_of tf = (35 # 100)%Q) \/
  (tf = "4h" /\ weight_of tf = (25 # 100)%Q) \/
  (tf <> "monthly" /\ tf <> "daily" /\ tf <> "4h" /\ weight_of tf = 0%Q).
Proof.
  unfold weight_of, TIMEFRAME_WEIGHTS.
  destruct (decide (tf = "monthly")) as [->|Hm]; [left; split; reflexivity|].
  destruct (decide (tf = "daily")) as [->|Hd]; [right; left; split; reflexivity|].
  destruct (decide (tf = "4h")) as [->|H4]; [right; right; left; split; reflexivity|].
  right. right. right. repeat (split; [assumption|]).
  rewrite !lookup_insert_ne by congruence. rewrite lookup_empty. reflexivity.
Qed.

Lemma weight_of_nonneg tf : (0 <= weight_of tf)%Q.
Proof.
  destruct (weight_of_cases tf) as [[_ ->]|[[_ ->]|[[_ ->]|(_ & _ & _ & ->)]]];
    discriminate.
Qed.

Lemma composite_unit o : unit_outcome o -> (0 <= composite o <= 1)%Q.
Proof.
  intros ((S0 & S1) & (V0 & V1) & (P0 & P1)). unfold composite.
  set (s := score (pattern o)) in *. set (v := volume_decline_score_of o) in *.
  set (p := poc_distance_score_of o) in *. split; lra.
Qed.



Lemma analyze_frame_unit inds now pair tf df o :
  analyze_frame inds now pair tf df = Ok o -> name o = tf /\ unit_outcome o.
Proof.
  unfold analyze_frame. change (PATTERN_DETECTOR_VERSION =? 2) with true. cbv iota.
  destruct (detect_descending_rules inds now df tf (altname pair)) as [r|e] eqn:Hr;
    cbn [mbind result_bind]; [|discriminate].
  destruct (compute_volume_profile df 30 (7 # 10)) as [vp|e];
    cbn [mbind result_bind]; [|discriminate].
  unfold score_timeframe.
  destruct (poc_distance_score df vp) as [q|e] eqn:Hq;
    cbn [mbind result_bind]; [|discriminate].
  intros [= <-]. split; [reflexivity|].
  unfold unit_outcome. cbn [pattern volume_decline_score_of poc_distance_score_of].
  destruct (detect_descending_rules_shape _ _ _ _ _ _ Hr) as (Hs & _).
  split; [|split].
  - rewrite Hs. destruct (passed r); split; discriminate.
  - apply volume_decline_score_unit.
  - apply (poc_distance_score_unit df vp q Hq).
Qed.

Lemma analyze_loop_spec client inds now pair refresh : forall tfs st outcomes frames outs frs st',
  analyze_loop client inds now pair refresh tfs st outcomes frames = Ok (outs, frs, st') ->
  exists new,
    outs = outcomes ++ new /\ map name new = tfs /\ Forall unit_outcome new /\
    (forall tf, In tf tfs -> is_Some (frs !! tf)) /\
    (forall tf, is_Some (frames !! tf) -> is_Some (frs !! tf)).
Proof.
  induction tfs as [|tf rest IH]; intros st outcomes frames outs frs st'.
  - cbn [analyze_loop]. intros [= <- <- <-]. exists [].
    rewrite app_nil_r. repeat split; auto. intros tf [].
  - cbn [analyze_loop].
    destruct (fetch_ohlc client now st pair tf refresh) as [[df st1]|e];
      cbn [mbind result_bind]; [|discriminate].
    destruct (analyze_frame inds now pair tf df) as [o|e] eqn:Ho;
      cbn [mbind result_bind]; [|discriminate].
    intros H. apply IH in H. destruct H as (new & -> & Hn & Hu & Hk & Hkeep).
    destruct (analyze_frame_unit _ _ _ _ _ _ Ho) as [Hname Hunit].
    exists (o :: new). split; [rewrite <- app_assoc; reflexivity|].
    split; [cbn [map]; congruence|]. split; [constructor; assumption|].
    split.
    + intros tf' [<-|Hin]; [|apply Hk, Hin].
      apply Hkeep. rewrite lookup_insert_eq. eexists. reflexivity.
    + intros tf' Hs. apply Hkeep.
      destruct (decide (tf = tf')) as [->|Hne].
      * rewrite lookup_insert_eq. eexists. reflexivity.
      * rewrite lookup_insert_ne by exact Hne. exact Hs.
Qed.

Lemma weighted_sum_bounds l :
  Forall unit_outcome l ->
  (0 <= Qsum (map (fun o => weight_of (name o) * composite o) l)
     <= Qsum (map weight_of (map name l)))%Q.
Proof.
  induction 1 as [|o l Ho _ IH]; [split; discriminate|].
  cbn [map]. rewrite !Qsum_cons.
  pose proof (composite_unit o Ho) as [C0 C1].
  pose proof (weight_of_nonneg (name o)) as W0.
  destruct IH as [I0 I1].
  assert (P0 : (0 <= weight_of (name o) * composite o)%Q)
    by (apply Qmult_le_0_compat; assumption).
  assert (P1 : (weight_of (name o) * composite o <= weight_of (name o))%Q).
  { rewrite <- (Qmult_1_r (weight_of (name o))) at 2.
    rewrite !(Qmult_comm (weight_of (name o))).
    apply Qmult_le_compat_r; assumption. }
  split; lra.
Qed.

(** What [analyze_pair] hands to reporting.  There is one outcome per
    requested timeframe, in the requested order and under its name, and
    one frame per requested timeframe; every component score lies in
    [0, 1]; the score lies between 0 and the sum of the weights of the
    requested timeframes, hence in [0, 1] for the default request
    monthly, daily, 4h. *)
Theorem analyze_pair_result client inds now st pair refresh timeframes res st' :
  analyze_pair client inds now st pair refresh timeframes = Ok (res, st') ->
  map name (res_outcomes res) = timeframes /\
  Forall unit_outcome (res_outcomes res) /\
  (forall tf, In tf timeframes -> is_Some (res_frames res !! tf)) /\
  (0 <= res_score res <= Qsum (map weight_of timeframes))%Q /\
  (timeframes = ["monthly"; "daily"; "4h"] -> (0 <= res_score res <= 1)%Q) /\
  res_pair res = altname pair /\ res_is_solana res = is_solana pair.
Proof.
  unfold analyze_pair.
  destruct (analyze_loop client inds now pair refresh timeframes st [] ∅)
    as [[[outs frs] st1]|e] eqn:Hloop; cbn [mbind result_bind]; [|discriminate].
  intros [= <- <-].
  destruct (analyze_loop_spec _ _ _ _ _ _ _ _ _ _ _ _ Hloop)
    as (new & -> & Hn & Hu & Hk & _).
  cbn [app res_outcomes res_frames res_score res_pair res_is_solana].
  pose proof (weighted_sum_bounds new Hu) as [B0 B1]. rewrite Hn in B1.
  assert (Hscore : (0 <= aggregate_score new (is_solana pair)
                      <= Qsum (map weight_of timeframes))%Q).
  { rewrite aggregate_score_sum. split; assumption. }
  split; [exact Hn|]. split; [exact Hu|]. split; [exact Hk|].
  split; [exact Hscore|]. split; [|split; reflexivity].
  intros ->. destruct Hscore as [S0 S1]. split; [exact S0|].
  eapply Qle_trans; [exact S1|]. vm_compute. discriminate.
Qed.

Lemma analyze_pair_result_witness :
  exists res,
    analyze_pair ClockSamples.offline ClockSamples.indicators ClockSamples.clock1
      ClockSamples.store Samples.xbt false ["daily"] = Ok (res, ClockSamples.store) /\
    map name (res_outcomes res) = ["daily"] /\
    (0 <= res_score res <= Qsum (map weight_of ["daily"]))%Q.
Proof.
  eexists. split; [vm_compute; reflexivity|].
  match goal with |- map name (res_outcomes ?r) = _ /\ _ =>
    destruct (analyze_pair_result ClockSamples.offline ClockSamples.indicators
                ClockSamples.clock1 ClockSamples.store Samples.xbt false ["daily"]
                r ClockSamples.store) as (Hn & _ & _ & Hs & _)
  end.
  - vm_compute. reflexivity.
  - split; [exact Hn|exact Hs].
Defined.

(** ** compute_indicators: the averages and what the detector sees *)

Lemma adjacent_pairs_cons x y l :
  adjacent_pairs (x :: y :: l) = (x, y) :: adjacent_pairs (y :: l).
Proof. reflexivity. Qed.

Lemma strictly_descending_inv x l :
  strictly_descending (x :: l) ->
  strictly_descending l /\ (forall y, In y l -> (y < x)%Q).
Proof.
  revert x. induction l as [|y l IH]; intros x H.
  - split; [constructor|intros y []].
  - unfold strictly_descending in H. rewrite adjacent_pairs_cons in H.
    pose proof (List.Forall_inv H) as Hxy. cbn [fst snd] in Hxy.
    pose proof (List.Forall_inv_tail H) as Hrest.
    split; [exact Hrest|].
    destruct (IH y Hrest) as [_ Hlt].
    intros z [<-|Hz]; [exact Hxy|].
    eapply Qlt_trans; [apply Hlt, Hz|exact Hxy].
Qed.

Lemma strictly_descending_cons x l :
  strictly_descending l ->
  (forall y, head l = Some y -> (y < x)%Q) ->
  strictly_descending (x :: l).
Proof.
  intros Hl Hh. destruct l as [|y l]; [constructor|].
  unfold strictly_descending. rewrite adjacent_pairs_cons.
  constructor; [apply Hh; reflexivity|exact Hl].
Qed.

Lemma strictly_descending_skipn k : forall l,
  strictly_descending l -> strictly_descending (skipn k l).
Proof.
  induction k as [|k IH]; intros l H; [exact H|].
  destruct l as [|x l]; [exact H|]. cbn [skipn].
  apply IH. apply (strictly_descending_inv x l H).
Qed.

(** In a strictly descending series every later value is below every
    earlier one. *)
Lemma strictly_descending_nth l : forall i j,
  strictly_descending l -> (i < j)%nat -> (j < length l)%nat ->
  (nth j l 0 < nth i l 0)%Q.
Proof.
  induction l as [|x l IH]; intros i j H Hij Hj; [simpl in Hj; lia|].
  destruct (strictly_descending_inv x l H) as [Hl Hlt].
  destruct j as [|j]; [lia|]. cbn [length] in Hj.
  destruct i as [|i].
  - cbn [nth]. apply Hlt, nth_In. lia.
  - cbn [nth]. apply IH; [exact Hl|lia|lia].
Qed.

Lemma strictly_decreased_over_descending l lag :
  strictly_descending l -> (1 <= lag)%nat ->
  strictly_decreased_over l lag = (lag <? length l)%nat.
Proof.
  intros H Hlag. unfold strictly_decreased_over.
  destruct (lag <? length l)%nat eqn:E; [|reflexivity].
  apply Nat.ltb_lt in E. cbn [andb]. unfold iloc_neg.
  apply Qltb_lt. apply strictly_descending_nth; [exact H|lia|lia].
Qed.

Lemma span_alpha_range w : (1 <= w)%nat -> (0 < span_alpha w <= 1)%Q.
Proof.
  intros Hw. unfold span_alpha.
  assert (Hd : (2 <= inject_Z (Z.of_nat w) + 1)%Q).
  { assert (H1 : (1 <= inject_Z (Z.of_nat w))%Q) by (unfold Qle; simpl; lia). lra. }
  split.
  - apply Qlt_shift_div_l; lra.
  - apply Qle_shift_div_r; lra.
Qed.

(** Over a falling series the moving average falls too, and stays at or
    above the series. *)
Lemma ewm_from_descending alpha : (0 < alpha <= 1)%Q -> forall xs prev,
  strictly_descending xs ->
  (forall x, head xs = Some x -> (x < prev)%Q) ->
  strictly_descending (prev :: ewm_from alpha prev xs) /\
  Forall2 Qle xs (ewm_from alpha prev xs).
Proof.
  intros [Ha0 Ha1]. induction xs as [|x rest IH]; intros prev Hsd Hhead.
  - split; [constructor|constructor].
  - cbn [ewm_from]. cbv zeta.
    set (y := Qred ((1 - alpha) * prev + alpha * x)).
    assert (Ey : (y == (1 - alpha) * prev + alpha * x)%Q) by apply Qred_correct.
    assert (Hx : (x < prev)%Q) by (apply Hhead; reflexivity).
    assert (Hy1 : (y < prev)%Q).
    { rewrite Ey. assert (H : (0 < alpha * (prev - x))%Q)
        by (apply Qmult_lt_0_compat; lra). lra. }
    assert (Hy2 : (x <= y)%Q).
    { rewrite Ey. assert (H : (0 <= (1 - alpha) * (prev - x))%Q)
        by (apply Qmult_le_0_compat; lra). lra. }
    destruct (strictly_descending_inv x rest Hsd) as [Hrest Hlt].
    destruct (IH y Hrest) as [Hsd' Hle].
    { intros z Hz. apply Qlt_le_trans with x; [|exact Hy2].
      apply Hlt. destruct rest; [discriminate|]. injection Hz as <-. left. reflexivity. }
    split.
    + apply strictly_descending_cons; [exact Hsd'|].
      intros z [= <-]. exact Hy1.
    + constructor; assumption.
Qed.

Lemma ewm_descending alpha xs :
  (0 < alpha <= 1)%Q -> strictly_descending xs ->
  strictly_descending (ewm alpha xs) /\ Forall2 Qle xs (ewm alpha xs).
Proof.
  intros Ha Hsd. destruct xs as [|x rest]; [split; constructor|].
  cbn [ewm]. destruct (strictly_descending_inv x rest Hsd) as [Hrest Hlt].
  destruct (ewm_from_descending alpha Ha rest x Hrest) as [A B].
  { intros z Hz. apply Hlt. destruct rest; [discriminate|].
    injection Hz as <-. left. reflexivity. }
  split; [exact A|]. constructor; [apply Qle_refl|exact B].
Qed.

Lemma ewm_from_length alpha : forall xs prev, length (ewm_from alpha prev xs) = length xs.
Proof. induction xs as [|x r IH]; intros prev; simpl; [reflexivity|]. rewrite IH. reflexivity. Qed.

Lemma ewm_length alpha xs : length (ewm alpha xs) = length xs.
Proof. destruct xs; simpl; [reflexivity|]. rewrite ewm_from_length. reflexivity. Qed.

(** The values that are not null are the averages from position
    [window - 1] on. *)
Lemma null_prefix_omap (w : nat) : forall (l : list Q) (k : nat),
  omap id (imap (fun (i : nat) (y : Q) =>
                   if (S (k + i) <? w)%nat then None else Some y) l)
  = skipn (w - 1 - k) l.
Proof.
  induction l as [|y l IH]; intros k.
  - rewrite skipn_nil. reflexivity.
  - rewrite imap_cons.
    replace (k + 0)%nat with k by lia.
    assert (E : imap ((fun (i : nat) (y0 : Q) =>
                  if (S (k + i) <? w)%nat then None else Some y0) ∘ S) l
              = imap (fun (i : nat) (y0 : Q) =>
                  if (S (S k + i) <? w)%nat then None else Some y0) l).
    { apply imap_ext. intros i x _. cbn. replace (k + S i)%nat with (S (k + i)) by lia.
      reflexivity. }
    rewrite E.
    destruct (S k <? w)%nat eqn:Ek.
    + apply Nat.ltb_lt in Ek.
      replace (w - 1 - k)%nat with (S (w - 1 - S k)) by lia.
      cbn [skipn]. apply (IH (S k)).
    + apply Nat.ltb_ge in Ek.
      replace (w - 1 - k)%nat with 0%nat by lia.
      transitivity (y :: skipn (w - 1 - S k) l).
      * cbn [omap list_omap id]. f_equal. apply (IH (S k)).
      * replace (w - 1 - S k)%nat with 0%nat by lia. reflexivity.
Qed.

Lemma ema_nonnull series window :
  omap id (ema series window) = skipn (window - 1) (ewm (span_alpha window) series).
Proof.
  unfold ema.
  pose proof (null_prefix_omap window (ewm (span_alpha window) series) 0) as H.
  cbn [Nat.add] in H. rewrite H.
  replace (window - 1 - 0)%nat with (window - 1)%nat by lia. reflexivity.
Qed.

Lemma ema_length series window : length (ema series window) = length series.
Proof. unfold ema. rewrite length_imap. apply ewm_length. Qed.


(** On a strictly falling series with a window of at least one, the
    average is strictly falling wherever it is defined. *)
Theorem ema_of_falling_series_falls series window :
  (1 <= window)%nat ->
  strictly_descending series ->
  strictly_descending (omap id (ema series window)) /\
  Forall2 Qle series (ewm (span_alpha window) series).
Proof.
  intros Hw Hsd.
  destruct (ewm_descending (span_alpha window) series (span_alpha_range window Hw) Hsd)
    as [A B].
  split; [|exact B]. rewrite ema_nonnull. apply strictly_descending_skipn, A.
Qed.

Lemma ema_of_falling_series_falls_witness :
  strictly_descending (omap id (ema [10; 9; 8; 7; 6; 5]%Q 3)).
Proof.
  apply (proj1 (ema_of_falling_series_falls [10; 9; 8; 7; 6; 5]%Q 3 ltac:(lia)
                  ltac:(repeat constructor))).
Defined.

(** *** Cells of the indicator rows *)

Lemma lookup_set_cell nm v (m : gmap string Q) k :
  set_cell nm v m !! k = if decide (nm = k) then v else m !! k.
Proof.
  unfold set_cell. destruct v as [x|]; destruct (decide (nm = k)) as [->|Hne].
  - apply lookup_insert_eq.
  - apply lookup_insert_ne, Hne.
  - apply lookup_delete_eq.
  - apply lookup_delete_ne, Hne.
Qed.

Lemma consts_keep_other_cells k : forall (consts : list (string * option Q)) m,
  ~ In k (map fst consts) ->
  fold_left (fun m (col : string * option Q) => set_cell (fst col) (snd col) m) consts m !! k
  = m !! k.
Proof.
  induction consts as [|[nm v] consts IH]; intros m Hk; [reflexivity|].
  cbn [fold_left fst snd]. rewrite IH.
  - rewrite lookup_set_cell. destruct (decide (nm = k)) as [->|]; [|reflexivity].
    exfalso. apply Hk. left. reflexivity.
  - intros Hin. apply Hk. right. exact Hin.
Qed.

Lemma emas_keep_other_cells i k : forall (emas : list (string * list (option Q))) m,
  ~ In k (map fst emas) ->
  fold_left (fun m (col : string * list (option Q)) =>
               set_cell (fst col) (nth i (snd col) None) m) emas m !! k
  = m !! k.
Proof.
  induction emas as [|[nm v] emas IH]; intros m Hk; [reflexivity|].
  cbn [fold_left fst snd]. rewrite IH.
  - rewrite lookup_set_cell. destruct (decide (nm = k)) as [->|]; [|reflexivity].
    exfalso. apply Hk. left. reflexivity.
  - intros Hin. apply Hk. right. exact Hin.
Qed.

Lemma emas_cell i k col : forall (emas : list (string * list (option Q))) m,
  List.NoDup (map fst emas) -> In (k, col) emas ->
  fold_left (fun m (c : string * list (option Q)) =>
               set_cell (fst c) (nth i (snd c) None) m) emas m !! k
  = nth i col None.
Proof.
  induction emas as [|[nm v] emas IH]; intros m Hnd Hin; [destruct Hin|].
  cbn [map fst] in Hnd.
  pose proof (proj1 (List.NoDup_cons_iff _ _) Hnd) as [Hnotin Hnd'].
  cbn [fold_left fst snd]. destruct Hin as [E|Hin].
  - injection E as -> ->. rewrite emas_keep_other_cells by exact Hnotin.
    rewrite lookup_set_cell. destruct (decide (k = k)); [reflexivity|congruence].
  - apply IH; assumption.
Qed.

(** A cell of an average column in row [i] is entry [i] of the
    average. *)
Lemma row_values_ema i c emas consts k col :
  List.NoDup (map fst emas) -> In (k, col) emas -> ~ In k (map fst consts) ->
  row_values i c emas consts !! k = nth i col None.
Proof.
  intros Hnd Hin Hk. unfold row_values.
  rewrite consts_keep_other_cells by exact Hk.
  apply emas_cell; assumption.
Qed.

Lemma omap_cons_eq {A B : Type} (f : A -> option B) a l :
  omap f (a :: l) = match f a with Some y => y :: omap f l | None => omap f l end.
Proof. reflexivity. Qed.

Lemma column_values_imap col : forall (out : DataFrame)
    (vals : nat -> Candle -> gmap string Q) (cells : list (option Q)),
  length cells = length out ->
  (forall i c, out !! i = Some c -> vals i c !! col = nth i cells None) ->
  column_values (imap (fun i c => mkIndRow (time c) (vals i c)) out) col
  = omap id cells.
Proof.
  unfold column_values.
  induction out as [|c out IH]; intros vals cells Hlen Hv.
  - destruct cells; [reflexivity|discriminate].
  - destruct cells as [|v cells]; [discriminate|].
    assert (E : omap (fun r => ind_vals r !! col)
                  (imap ((fun i c => mkIndRow (time c) (vals i c)) ∘ S) out)
                = omap id cells).
    { apply (IH (fun i c => vals (S i) c) cells).
      - simpl in Hlen. lia.
      - intros i c' Hc'. apply (Hv (S i) c' Hc'). }
    rewrite imap_cons, !omap_cons_eq, E. cbn [ind_vals].
    rewrite (Hv 0%nat c eq_refl). reflexivity.
Qed.

Lemma daily_return_names out :
  forall k, In k (map fst (if String.eqb "daily" "daily" && negb (empty out)
                           then daily_returns out else [])) ->
            k = "return_ytd" \/ k = "return_30d" \/ k = "return_7d".
Proof.
  intros k. cbn [String.eqb Ascii.eqb Bool.eqb andb].
  destruct out as [|c0 rest]; cbn [empty negb]; [intros []|].
  unfold daily_returns. cbv zeta. cbn [map fst In].
  intros [<-|[<-|[<-|[]]]]; auto.
Qed.

Lemma ema_names_disjoint_returns w (consts : list (string * option Q)) :
  (forall k, In k (map fst consts) ->
     k = "return_ytd" \/ k = "return_30d" \/ k = "return_7d") ->
  ~ In (ema_name w) (map fst consts).
Proof.
  intros Hc Hin. destruct (Hc _ Hin) as [E|[E|E]]; unfold ema_name in E;
    cbn in E; discriminate E.
Qed.

Lemma indicator_column out ws consts w :
  In w ws -> List.NoDup (map ema_name ws) ->
  ~ In (ema_name w) (map fst consts) ->
  column_values
    (imap (fun i c => mkIndRow (time c)
             (row_values i c (map (fun w => (ema_name w, ema (map close out) w)) ws) consts))
       out) (ema_name w)
  = omap id (ema (map close out) w).
Proof.
  intros Hw Hnd Hk. apply column_values_imap.
  - rewrite ema_length. apply length_map.
  - intros i c _. apply row_values_ema.
    + rewrite map_map. cbn [fst]. exact Hnd.
    + apply (in_map (fun w => (ema_name w, ema (map close out) w))), Hw.
    + exact Hk.
Qed.

Lemma windows_cases tf :
  default [] (WINDOWS !! tf) =
  if String.eqb tf "monthly" then [5; 12]%nat
  else if String.eqb tf "daily" then [5; 30; 50; 200]%nat
  else if String.eqb tf "4h" then [5; 7]%nat
  else [].
Proof.
  unfold WINDOWS.
  destruct (String.eqb_spec tf "monthly") as [->|H1]; [reflexivity|].
  rewrite lookup_insert_ne by congruence.
  destruct (String.eqb_spec tf "daily") as [->|H2]; [reflexivity|].
  rewrite lookup_insert_ne by congruence.
  destruct (String.eqb_spec tf "4h") as [->|H3]; [reflexivity|].
  rewrite lookup_insert_ne by congruence.
  reflexivity.
Qed.

Lemma windows_nodup tf : List.NoDup (map ema_name (default [] (WINDOWS !! tf))).
Proof.
  rewrite windows_cases.
  destruct (String.eqb tf "monthly"); [|destruct (String.eqb tf "daily");
    [|destruct (String.eqb tf "4h")]];
    vm_compute; repeat (constructor; [cbn; intuition discriminate|]); constructor.
Qed.

Lemma indicator_consts_names tf out :
  forall k, In k (map fst (if String.eqb tf "daily" && negb (empty out)
                           then daily_returns out else [])) ->
            k = "return_ytd" \/ k = "return_30d" \/ k = "return_7d".
Proof.
  destruct (String.eqb_spec tf "daily") as [->|Hne].
  - apply daily_return_names.
  - intros k [].
Qed.

(** Every average configured for a timeframe is a column of its
    indicator frame; the non-null values of the column are the averages
    of the closes, in time order, from position [w - 1] on. *)
Lemma indicators_of_ema tf df w :
  In w (default [] (WINDOWS !! tf)) ->
  has_column (indicators_of tf df) (ema_name w) = true /\
  column_values (ind_rows (indicators_of tf df)) (ema_name w)
  = skipn (w - 1) (ewm (span_alpha w) (map close (sort_values df))).
Proof.
  intros Hw. unfold indicators_of. cbv zeta. cbn [ind_rows]. split.
  - unfold has_column. cbn [ind_columns]. apply List.existsb_exists.
    exists (ema_name w). split; [|apply String.eqb_refl].
    right. right. apply in_or_app. left.
    rewrite map_map. cbn [fst]. apply (in_map ema_name), Hw.
  - rewrite <- ema_nonnull. apply indicator_column.
    + exact Hw.
    + apply windows_nodup.
    + apply ema_names_disjoint_returns, indicator_consts_names.
Qed.

(** *** File names *)

Lemma string_length_app (a b : string) :
  String.length (a +:+ b) = (String.length a + String.length b)%nat.
Proof.
  induction a as [|c a IH]; [reflexivity|].
  change (S (String.length (a +:+ b)) = S (String.length a + String.length b)).
  f_equal. exact IH.
Qed.

Lemma string_app_cancel_l (s a b : string) : s +:+ a = s +:+ b -> a = b.
Proof.
  induction s as [|c s IH]; [exact (fun H => H)|].
  change (String c (s +:+ a) = String c (s +:+ b) -> a = b).
  intros [= H]. apply IH, H.
Qed.

Lemma string_app_cancel_r (s : string) : forall a b : string,
  a +:+ s = b +:+ s -> a = b.
Proof.
  induction a as [|c a IH]; intros [|c' b] H.
  - reflexivity.
  - apply (f_equal String.length) in H.
    rewrite !string_length_app in H. cbn [String.length] in H. lia.
  - apply (f_equal String.length) in H.
    rewrite !string_length_app in H. cbn [String.length] in H. lia.
  - change (String c (a +:+ s) = String c' (b +:+ s)) in H.
    injection H as -> H. f_equal. apply IH, H.
Qed.

Lemma indicators_path_inj pair tf tf' :
  indicators_path pair tf = indicators_path pair tf' -> tf = tf'.
Proof.
  unfold indicators_path. intros H.
  apply string_app_cancel_l in H.
  apply string_app_cancel_l in H.
  apply string_app_cancel_r in H. exact H.
Qed.

Lemma compute_for_pair_other st pair : forall tfs inds k,
  (forall tf, In tf tfs -> k <> indicators_path pair tf) ->
  compute_for_pair st pair tfs inds !! k = inds !! k.
Proof.
  induction tfs as [|t rest IH]; intros inds k Hk; [reflexivity|].
  cbn [compute_for_pair].
  assert (Hrest : forall tf, In tf rest -> k <> indicators_path pair tf)
    by (intros tf Hin; apply Hk; right; exact Hin).
  destruct (cache_dir st !! _cache_path pair t) as [f|].
  - rewrite IH by exact Hrest. apply lookup_insert_ne.
    intros E. apply (Hk t); [left; reflexivity|]. symmetry. exact E.
  - apply IH, Hrest.
Qed.

Lemma compute_for_pair_written st pair tf f : forall tfs inds,
  In tf tfs -> cache_dir st !! _cache_path pair tf = Some f ->
  compute_for_pair st pair tfs inds !! indicators_path pair tf
  = Some (indicators_of tf (content f)).
Proof.
  induction tfs as [|t rest IH]; intros inds Hin Hf; [destruct Hin|].
  cbn [compute_for_pair].
  destruct (List.in_dec String.string_dec tf rest) as [Hr|Hr].
  - destruct (cache_dir st !! _cache_path pair t); apply IH; assumption.
  - destruct Hin as [->|Hin]; [|contradiction].
    rewrite Hf. rewrite compute_for_pair_other.
    + apply lookup_insert_eq.
    + intros tf' Hin' E. apply indicators_path_inj in E. subst tf'. contradiction.
Qed.

Lemma compute_for_pair_skipped st pair tf : forall tfs inds,
  cache_dir st !! _cache_path pair tf = None ->
  compute_for_pair st pair tfs inds !! indicators_path pair tf
  = inds !! indicators_path pair tf.
Proof.
  induction tfs as [|t rest IH]; intros inds Hf; [reflexivity|].
  cbn [compute_for_pair].
  destruct (cache_dir st !! _cache_path pair t) as [f|] eqn:Ht.
  - rewrite IH by exact Hf. apply lookup_insert_ne.
    intros E. apply indicators_path_inj in E. subst t. congruence.
  - apply IH, Hf.
Qed.

(** What the detector loads after [compute_for_pair]: for a listed
    timeframe with a cache file, the indicator frame of that file; for
    every other timeframe, whatever indicator file was there before. *)
Theorem compute_for_pair_then_load st pair tfs inds tf :
  _load_indicators (compute_for_pair st pair tfs inds) pair tf =
  match cache_dir st !! _cache_path pair tf with
  | Some f =>
      if existsb (String.eqb tf) tfs then Some (indicators_of tf (content f))
      else _load_indicators inds pair tf
  | None => _load_indicators inds pair tf
  end.
Proof.
  unfold _load_indicators.
  change (pair +:+ "_" +:+ tf +:+ "_indicators.parquet") with (indicators_path pair tf).
  destruct (cache_dir st !! _cache_path pair tf) as [f|] eqn:Hf.
  - destruct (existsb (String.eqb tf) tfs) eqn:Hin.
    + apply compute_for_pair_written; [|exact Hf].
      apply List.existsb_exists in Hin. destruct Hin as [t [Ht E]].
      apply String.eqb_eq in E. subst t. exact Ht.
    + apply compute_for_pair_other. intros tf' Hin' E.
      apply indicators_path_inj in E. subst tf'.
      assert (existsb (String.eqb tf) tfs = true); [|congruence].
      apply List.existsb_exists. exists tf. split; [exact Hin'|apply String.eqb_refl].
  - apply compute_for_pair_skipped, Hf.
Qed.

(** The frames [compute_for_pair] writes carry every average configured
    for their timeframe, so the daily trend check finds its two columns
    and does not raise. *)
Theorem written_frames_carry_configured_averages st pair tfs inds tf f w :
  In tf tfs -> cache_dir st !! _cache_path pair tf = Some f ->
  In w (default [] (WINDOWS !! tf)) ->
  exists frame,
    _load_indicators (compute_for_pair st pair tfs inds) pair tf = Some frame /\
    has_column frame (ema_name w) = true /\
    dropna_column frame (ema_name w)
    = Ok (skipn (w - 1) (ewm (span_alpha w) (map close (sort_values (content f))))).
Proof.
  intros Hin Hf Hw. exists (indicators_of tf (content f)).
  destruct (indicators_of_ema tf (content f) w Hw) as [Hc Hv].
  split; [|split].
  - apply compute_for_pair_written; assumption.
  - exact Hc.
  - unfold dropna_column. rewrite Hc, Hv. reflexivity.
Qed.

(** A daily cache in time order whose closes fall strictly from candle to
    candle passes the trend check of the daily rule exactly when it holds
    at least 100 candles: fewer leave the 50-period average with too few
    points for a lag of 50. *)
Theorem falling_daily_closes_pass_trend_check st pair tfs inds f :
  In "daily" tfs -> cache_dir st !! _cache_path pair "daily" = Some f ->
  StronglySorted time_le (content f) ->
  strictly_descending (map close (content f)) ->
  exists why,
    daily_ema_check (_load_indicators (compute_for_pair st pair tfs inds) pair "daily")
    = Ok ((100 <=? length (content f))%nat, why) /\
    (why = None <-> (100 <= length (content f))%nat).
Proof.
  intros Hin Hf Hsorted Hfall.
  assert (Hload : _load_indicators (compute_for_pair st pair tfs inds) pair "daily"
                  = Some (indicators_of "daily" (content f)))
    by (apply compute_for_pair_written; assumption).
  rewrite Hload. set (frame := indicators_of "daily" (content f)).
  assert (W50 : In 50%nat (default [] (WINDOWS !! "daily")))
    by (vm_compute; tauto).
  assert (W200 : In 200%nat (default [] (WINDOWS !! "daily")))
    by (vm_compute; tauto).
  destruct (indicators_of_ema "daily" (content f) 50 W50) as [C50 V50].
  destruct (indicators_of_ema "daily" (content f) 200 W200) as [C200 V200].
  change (ema_name 50) with "ema_50" in C50, V50.
  change (ema_name 200) with "ema_200" in C200, V200.
  rewrite (sort_values_id _ Hsorted) in V50, V200.
  fold frame in C50, V50, C200, V200.
  destruct (daily_ema_check_spec frame (fun _ => C200)) as [why [Hcheck Hwhy]].
  assert (Hspec : spec_daily_trend_check (Some frame) 201
                  = (100 <=? length (content f))%nat).
  { unfold spec_daily_trend_check. cbv zeta. rewrite C50, V50, V200.
    cbn [andb].
    destruct (ewm_descending (span_alpha 50) (map close (content f))
                (span_alpha_range 50 ltac:(lia)) Hfall) as [D50 _].
    destruct (ewm_descending (span_alpha 200) (map close (content f))
                (span_alpha_range 200 ltac:(lia)) Hfall) as [D200 _].
    rewrite !strictly_decreased_over_descending
      by (try apply strictly_descending_skipn; try assumption; lia).
    rewrite !length_skipn, !ewm_length, !length_map.
    set (n := length (content f)).
    destruct (100 <=? n)%nat eqn:E100.
    - apply Nat.leb_le in E100.
      replace (50 <? n - (50 - 1))%nat with true
        by (symmetry; apply Nat.ltb_lt; lia).
      cbn [andb].
      destruct (201 <=? n - (200 - 1))%nat eqn:E201; [|reflexivity].
      apply Nat.leb_le in E201. apply Nat.ltb_lt. lia.
    - apply Nat.leb_gt in E100.
      replace (50 <? n - (50 - 1))%nat with false
        by (symmetry; apply Nat.ltb_ge; lia).
      reflexivity. }
  exists why. rewrite Hcheck, Hspec. split; [reflexivity|].
  rewrite Hwhy, Hspec. apply Nat.leb_le.
Qed.

Lemma written_frames_carry_configured_averages_witness :
  exists frame,
    _load_indicators
      (compute_for_pair ClockSamples.store "XBTUSD" ["monthly"; "daily"; "4h"] ∅)
      "XBTUSD" "daily" = Some frame /\
    has_column frame (ema_name 200) = true /\
    dropna_column frame (ema_name 200)
    = Ok (skipn (200 - 1)
            (ewm (span_alpha 200) (map close (sort_values ClockSamples.candles)))).
Proof.
  apply (written_frames_carry_configured_averages ClockSamples.store "XBTUSD"
           ["monthly"; "daily"; "4h"] ∅ "daily"
           (mkCacheFile ((ClockSamples.day 40 - 7200) * 1000000) ClockSamples.candles)
           200%nat).
  - right. left. reflexivity.
  - reflexivity.
  - vm_compute. tauto.
Defined.

Lemma falling_daily_closes_pass_trend_check_witness :
  exists why,
    daily_ema_check
      (_load_indicators
         (compute_for_pair ExtraSamples.falling_store "XBTUSD"
            ["monthly"; "daily"; "4h"] ∅) "XBTUSD" "daily")
    = Ok (true, why) /\
    (why = None <-> (100 <= 120)%nat).
Proof.
  apply (falling_daily_closes_pass_trend_check ExtraSamples.falling_store "XBTUSD"
           ["monthly"; "daily"; "4h"] ∅ (mkCacheFile 0 ExtraSamples.falling_daily)).
  - right. left. reflexivity.
  - reflexivity.
  - assert (E : sort_values ExtraSamples.falling_daily = ExtraSamples.falling_daily)
      by (vm_compute; reflexivity).
    cbn [content]. rewrite <- E. apply sort_values_sorted.
  - cbn [content]. vm_compute. repeat constructor.
Defined.

(** ** Discovery of the USD pairs *)








Lemma accepted_not_dark info :
  _is_usd_spot_pair info = true -> endswith (get info "altname") ".d" = false.
Proof.
  unfold _is_usd_spot_pair. cbv zeta.
  destruct (endswith (get info "altname") ".d"); [discriminate|reflexivity].
Qed.

Lemma accepted_has_usd_mark info :
  _is_usd_spot_pair info = true ->
  get info "quote" = "ZUSD" \/ get info "quote" = "USD" \/
  endswith (get info "altname") "USD" = true \/
  contains (get info "wsname") "/USD" = true.
Proof.
  unfold _is_usd_spot_pair. cbv zeta.
  destruct (endswith (get info "altname") ".d"); [discriminate|].
  destruct (String.eqb_spec (get info "quote") "ZUSD") as [E1|_]; [auto|].
  destruct (String.eqb_spec (get info "quote") "USD") as [E2|_]; [auto|].
  destruct (endswith (get info "altname") "USD"); [auto|].
  destruct (contains (get info "wsname") "/USD"); [auto|].
  cbn. discriminate.
Qed.

(** What the listing holds.  Every whitelist member is listed, whatever
    the exchange answered.  No listed pair is a dark-pool pair and none
    has an empty quote.  Every entry the filter accepts is listed, and
    every listed pair is either such an entry, which carries a USD mark,
    or a whitelist member the exchange did not list, which is added with
    quote USD and never flagged as Solana. *)
Theorem discover_usd_pairs_listing upper pairs :
  (forall w, In w PAIR_WHITELIST ->
     In w (map altname (discover_usd_pairs upper pairs))) /\
  (forall m, In m (discover_usd_pairs upper pairs) ->
     endswith (altname m) ".d" = false /\ quote m <> "") /\
  (forall key info, In (key, info) pairs -> _is_usd_spot_pair info = true ->
     In (meta_of upper info) (discover_usd_pairs upper pairs)) /\
  (forall m, In m (discover_usd_pairs upper pairs) ->
     (exists key info,
        In (key, info) pairs /\ _is_usd_spot_pair info = true /\
        m = meta_of upper info /\
        (get info "quote" = "ZUSD" \/ get info "quote" = "USD" \/
         endswith (get info "altname") "USD" = true \/
         contains (get info "wsname") "/USD" = true)) \/
     (In (altname m) PAIR_WHITELIST /\ m = whitelist_meta (altname m) /\
      quote m = "USD" /\ is_solana m = false)).
Proof.
  unfold discover_usd_pairs. cbv zeta.
  set (accepted := List.filter (fun kv : string * Info => _is_usd_spot_pair (snd kv)) pairs).
  set (metas := map (fun kv : string * Info => meta_of upper (snd kv)) accepted).
  set (missing := List.filter
                    (fun w => negb (existsb (String.eqb w) (map altname metas)))
                    PAIR_WHITELIST).
  assert (Hmetas : forall m, In m metas ->
            exists key info, In (key, info) pairs /\ _is_usd_spot_pair info = true /\
                             m = meta_of upper info).
  { intros m Hm. apply List.in_map_iff in Hm. destruct Hm as [[key info] [<- Hin]].
    apply List.filter_In in Hin. destruct Hin as [Hin Hacc].
    exists key, info. auto. }
  assert (Hmissing : forall m, In m (map whitelist_meta missing) ->
            In (altname m) PAIR_WHITELIST /\ m = whitelist_meta (altname m)).
  { intros m Hm. apply List.in_map_iff in Hm. destruct Hm as [w [<- Hin]].
    apply List.filter_In in Hin. destruct Hin as [Hin _]. split; [exact Hin|reflexivity]. }
  split; [|split; [|split]].
  - intros w Hw. rewrite map_app. apply in_or_app.
    destruct (existsb (String.eqb w) (map altname metas)) eqn:E.
    + left. apply List.existsb_exists in E. destruct E as [a [Ha Eq]].
      apply String.eqb_eq in Eq. subst a. exact Ha.
    + right. rewrite map_map. apply List.in_map_iff. exists w.
      split; [reflexivity|]. apply List.filter_In. rewrite E. auto.
  - intros m Hm. apply in_app_or in Hm. destruct Hm as [Hm|Hm].
    + destruct (Hmetas m Hm) as (key & info & _ & Hacc & ->).
      unfold meta_of. cbv zeta. cbn [altname quote]. split.
      * apply accepted_not_dark, Hacc.
      * destruct (String.eqb_spec (get info "quote") ""); [discriminate|assumption].
    + destruct (Hmissing m Hm) as [Hw ->]. cbn [whitelist_meta altname quote].
      split; [|discriminate].
      destruct Hw as [<-|[]]. reflexivity.
  - intros key info Hin Hacc. apply in_or_app. left.
    apply List.in_map_iff. exists (key, info). split; [reflexivity|].
    apply List.filter_In. auto.
  - intros m Hm. apply in_app_or in Hm. destruct Hm as [Hm|Hm].
    + left. destruct (Hmetas m Hm) as (key & info & Hin & Hacc & ->).
      exists key, info. split; [exact Hin|]. split; [exact Hacc|].
      split; [reflexivity|]. apply accepted_has_usd_mark, Hacc.
    + right. destruct (Hmissing m Hm) as [Hw E]. split; [exact Hw|].
      split; [exact E|]. rewrite E. split; reflexivity.
Qed.

Lemma discover_usd_pairs_listing_witness :
  In "JTOUSD" (map altname (discover_usd_pairs upper DiscoverySamples.answer)) /\
  In (meta_of upper DiscoverySamples.bonk)
     (discover_usd_pairs upper DiscoverySamples.answer) /\
  map altname (discover_usd_pairs upper DiscoverySamples.answer) = ["BONKUSD"; "JTOUSD"].
Proof.
  split; [|split].
  - apply (proj1 (discover_usd_pairs_listing upper DiscoverySamples.answer)).
    left. reflexivity.
  - apply (proj1 (proj2 (proj2 (discover_usd_pairs_listing upper DiscoverySamples.answer)))
             "BONKUSD" DiscoverySamples.bonk).
    + left. reflexivity.
    + vm_compute. reflexivity.
  - vm_compute. reflexivity.
Defined.
